(** * Two-player game coordination: rooms, Tic-Tac-Toe, Rock-Paper-Scissors

    A shallow embedding of the game subsystem of the application: the
    lobby component [Games] (room creation, listing, joining, win rate),
    the two game components [TicTacToe] and [RockPaperScissors], the
    [game_rooms] and [user_activity_stats] tables they write, and the
    change notifications that carry a written row back to the clients.

    The datastore is an external collaborator.  It is modelled as the
    interface the components use: insert with column defaults, update of
    the rows selected by a filter (reporting the rows it changed), queries
    with filter, order and limit, and an upsert keyed by user.  Row-level
    authorisation policies and the wire encoding of filters are outside
    the model; a filter chain is read as the row predicate it spells. *)

From Stdlib Require Import ZArith Floats.
From stdpp Require Import base option strings list gmap sorting.

Local Open Scope string_scope.
Local Open Scope Z_scope.

(** ** JavaScript values used by the components *)

(** A board cell is typed [string | null]; reading past the end of an
    array gives [undefined]. *)
Inductive cell :=
  | CUndefined
  | CNull
  | CStr (s : string).

#[global] Instance cell_eq_dec : EqDecision cell.
Proof. solve_decision. Defined.

(** Truthiness of a [string | null | undefined]: only a non-empty string. *)
Definition truthy (o : option string) : bool :=
  match o with
  | Some s => bool_decide (s ≠ "")
  | None => false
  end.

Definition cell_truthy (c : cell) : bool :=
  match c with
  | CStr s => bool_decide (s ≠ "")
  | _ => false
  end.

(** [a || b] on strings. *)
Definition or_else (o : option string) (d : string) : string :=
  match o with
  | Some s => if bool_decide (s ≠ "") then s else d
  | None => d
  end.

(** [squares[i]]. *)
Definition sq (squares : list cell) (i : nat) : cell :=
  default CUndefined (squares !! i).

(** [arr[i] = v] on a copy: in range it replaces the cell, past the end
    the array grows and the skipped positions read [undefined]. *)
Definition js_set (arr : list cell) (i : nat) (v : cell) : list cell :=
  if decide (i < length arr)%nat then <[i:=v]> arr
  else (arr ++ replicate (i - length arr) CUndefined ++ [v])%list.

(** ** Data model *)

(** The [game_state] payload: a JSON object with the keys the two games
    use.  An absent key is [None]. *)
Record GameState := mkGameState {
  board : option (list cell);
  currentTurn : option string;
  player1Choice : option string;
  player2Choice : option string;
}.

Definition empty_state : GameState := mkGameState None None None None.

#[global] Instance GameState_eq_dec : EqDecision GameState.
Proof. solve_decision. Defined.

(** A row of [game_rooms].  Timestamps are instants on an integer clock. *)
Record GameRoom := mkGameRoom {
  room_id : string;
  game_type : string;
  player1_id : string;
  player2_id : option string;
  game_state : GameState;
  status : string;
  winner_id : option string;
  created_at : Z;
  completed_at : option Z;
}.

#[global] Instance GameRoom_eq_dec : EqDecision GameRoom.
Proof. solve_decision. Defined.

(** The object handed to [.update(...)]: the columns it names.  A
    nullable column can be set to [null] ([Some None]). *)
Record RoomUpdate := mkRoomUpdate {
  u_player2_id : option (option string);
  u_game_state : option GameState;
  u_status : option string;
  u_winner_id : option (option string);
  u_completed_at : option (option Z);
}.

Definition no_update : RoomUpdate := mkRoomUpdate None None None None None.

Definition apply_update (u : RoomUpdate) (r : GameRoom) : GameRoom :=
  {| room_id := room_id r;
     game_type := game_type r;
     player1_id := player1_id r;
     player2_id := default (player2_id r) (u_player2_id u);
     game_state := default (game_state r) (u_game_state u);
     status := default (status r) (u_status u);
     winner_id := default (winner_id r) (u_winner_id u);
     created_at := created_at r;
     completed_at := default (completed_at r) (u_completed_at u) |}.

(** A row of [user_activity_stats], restricted to the two game counters. *)
Record Stats := mkStats {
  games_played : Z;
  games_won : Z;
}.

(** ** The datastore *)

Definition supported_game_types : list string :=
  ["tic_tac_toe"; "rock_paper_scissors"].

(** [game_rooms], keyed by its primary key. *)
Abbreviation rooms := (gmap string GameRoom).
(** [user_activity_stats], keyed by its unique [user_id]. *)
Abbreviation stats_table := (gmap string Stats).

(** Result of [.single()]: the one row, or an error. *)
Definition single (rows : list GameRoom) : option GameRoom :=
  match rows with
  | [r] => Some r
  | _ => None
  end.

(** [insert([{game_type, player1_id, status}]).select()]: the store picks
    the key [newid] and the creation instant [now], fills the defaults
    and checks the [game_type] constraint. *)
Definition db_insert (db : rooms) (newid : string) (now : Z)
    (gameType player1 st : string) : rooms * list GameRoom :=
  if decide (gameType ∈ supported_game_types ∧ db !! newid = None) then
    let r := mkGameRoom newid gameType player1 None empty_state st None now None in
    (<[newid:=r]> db, [r])
  else (db, []).

(** [update(u).eq('id', rid)] with a further filter [p]: one atomic
    statement returning the rows it changed. *)
Definition db_update (db : rooms) (rid : string) (p : GameRoom → bool)
    (u : RoomUpdate) : rooms * list GameRoom :=
  match db !! rid with
  | Some r =>
      if p r then let r' := apply_update u r in (<[rid:=r']> db, [r'])
      else (db, [])
  | None => (db, [])
  end.

Definition newer_first (a b : GameRoom) : Prop := created_at b ≤ created_at a.

#[global] Instance newer_first_dec a b : Decision (newer_first a b).
Proof. unfold newer_first. apply _. Defined.

(** [select('*').eq('status','waiting').is('player2_id',null)
     .order('created_at',{ascending:false}).limit(10)]. *)
Definition db_open_rooms (db : rooms) : list GameRoom :=
  take 10 (merge_sort newer_first
    (filter (λ r, status r = "waiting" ∧ player2_id r = None)
            ((map_to_list db).*2))).

(** ** The lobby component [Games] *)

Inductive ui_event :=
  | Alert (msg : string)
  | ConsoleError (msg : string).

Module Games.

Record State := mkState {
  availableRooms : list GameRoom;
  activeGame : option GameRoom;
  selectedGameType : option string;
  stats_played : Z;
  stats_won : Z;
  isJoining : option string;
}.

Definition initial : State := mkState [] None None 0 0 None.

Definition setAvailableRooms (l : list GameRoom) (s : State) : State :=
  mkState l (activeGame s) (selectedGameType s) (stats_played s) (stats_won s)
          (isJoining s).

Definition setIsJoining (j : option string) (s : State) : State :=
  mkState (availableRooms s) (activeGame s) (selectedGameType s)
          (stats_played s) (stats_won s) j.

Definition setActive (g : option GameRoom) (t : option string) (s : State) : State :=
  mkState (availableRooms s) g t (stats_played s) (stats_won s) (isJoining s).

Definition setStats (p w : Z) (s : State) : State :=
  mkState (availableRooms s) (activeGame s) (selectedGameType s) p w (isJoining s).

Definition loadAvailableRooms (db : rooms) (s : State) : State :=
  setAvailableRooms (db_open_rooms db) s.

Definition loadStats (user : option string) (tbl : stats_table) (s : State) : State :=
  match user with
  | None => s
  | Some uid =>
      match tbl !! uid with
      | Some d => setStats (games_played d) (games_won d) s
      | None => s
      end
  end.

(** [createRoom] and [joinRoom] return the table, the rows their
    statement changed (what the store announces on the change channel)
    and the component state; [joinRoom] also the alerts it raised. *)
Definition createRoom (user : option string) (gameType newid : string) (now : Z)
    (db : rooms) (s : State) : rooms * list GameRoom * State :=
  match user with
  | None => (db, [], s)
  | Some uid =>
      let '(db', rows) := db_insert db newid now gameType uid "waiting" in
      match single rows with
      | Some data => (db', rows, setActive (Some data) (Some gameType) s)
      | None => (db', rows, s)
      end
  end.

Definition join_update (uid : string) : RoomUpdate :=
  mkRoomUpdate (Some (Some uid)) None (Some "in_progress") None None.

Definition joinRoom (user : option string) (room : GameRoom)
    (db : rooms) (s : State) : rooms * list GameRoom * State * list ui_event :=
  match user with
  | None => (db, [], s, [])
  | Some uid =>
      if bool_decide (player1_id room = uid) then
        (db, [], s, [Alert "Vous ne pouvez pas rejoindre votre propre partie!"])
      else if truthy (player2_id room) then
        (db, [], loadAvailableRooms db s, [Alert "Cette partie est déjà complète!"])
      else
        let '(db', rows) :=
          db_update db (room_id room)
                    (λ r, bool_decide (player2_id r = None)) (join_update uid) in
        match single rows with
        | None =>
            (db', rows, setIsJoining None (loadAvailableRooms db' s),
             [ConsoleError "Error joining room:";
              Alert "Impossible de rejoindre la partie. Elle est peut-être déjà complète."])
        | Some data =>
            (db', rows,
             setIsJoining None (setActive (Some data) (Some (game_type room)) s), [])
        end
  end.

(** The lobby is on screen unless [activeGame && selectedGameType]. *)
Definition lobby_rendered (s : State) : bool :=
  negb (bool_decide (is_Some (activeGame s)) && truthy (selectedGameType s)).

(** *** The win-rate tile *)

(** The JavaScript number holding an integer (exact up to 2^53; the
    counters are 32-bit columns). *)
Definition number (z : Z) : float :=
  if z <? 0 then PrimFloat.opp (PrimFloat.of_uint63 (Uint63.of_Z (- z)))
  else PrimFloat.of_uint63 (Uint63.of_Z z).

(** [Math.round]: the integer nearest to [x], a tie going up; [None]
    for NaN and the infinities. *)
Definition Math_round (x : float) : option Z :=
  match Prim2SF x with
  | S754_zero _ => Some 0
  | S754_finite s m e =>
      let n := if s then Z.neg m else Z.pos m in
      if 0 <=? e then Some (n * 2 ^ e)
      else Some ((2 * n + 2 ^ (- e)) / 2 ^ (1 - e))
  | _ => None
  end.

(** A value together with the denominators of the divisions that were
    evaluated to obtain it. *)
Definition traced (A : Type) : Type := A * list Z.

Definition ret {A} (a : A) : traced A := (a, []).

Definition bind {A B} (m : traced A) (k : A → traced B) : traced B :=
  let '(a, t) := m in let '(b, t') := k a in (b, (t ++ t')%list).

Definition divide (x y : Z) : traced float :=
  (PrimFloat.div (number x) (number y), [y]).

(** [stats.played > 0 ? Math.round((stats.won / stats.played) * 100) : 0]. *)
Definition winRate (played won : Z) : traced (option Z) :=
  if 0 <? played then
    bind (divide won played)
         (λ q, ret (Math_round (PrimFloat.mul q (number 100))))
  else ret (Some 0).

End Games.

(** Rounding of the exact quotient [100 * won / played], a tie going up. *)
Definition exact_percent (played won : Z) : Z :=
  (200 * won + played) / (2 * played).

(** ** The Tic-Tac-Toe component *)

Module TicTacToe.

Record State := mkState {
  st_board : list cell;
  st_currentTurn : string;
  st_winner : option string;
  st_gameState : GameRoom;
}.

(** The indices of the nine rendered cells. *)
Definition cells : list nat := [0; 1; 2; 3; 4; 5; 6; 7; 8]%nat.

Definition lines : list (nat * nat * nat) :=
  [(0, 1, 2); (3, 4, 5); (6, 7, 8);
   (0, 3, 6); (1, 4, 7); (2, 5, 8);
   (0, 4, 8); (2, 4, 6)]%nat.

(** [squares[a] && squares[a] === squares[b] && squares[a] === squares[c]]. *)
Definition line_won (squares : list cell) (l : nat * nat * nat) : bool :=
  let '(a, b, c) := l in
  cell_truthy (sq squares a)
  && bool_decide (sq squares a = sq squares b)
  && bool_decide (sq squares a = sq squares c).

Definition checkWinner (squares : list cell) : option string :=
  match find (line_won squares) lines with
  | Some (a, _, _) =>
      match sq squares a with
      | CStr s => Some s
      | _ => None
      end
  | None => None
  end.

Section Component.
(** [useAuth().user?.id] and the [gameRoom] prop. *)
Variable user : option string.
Variable gameRoom : GameRoom.

Definition isPlayer1 : bool := bool_decide (user = Some (player1_id gameRoom)).

Definition mySymbol : string := if isPlayer1 then "X" else "O".

(** Initial state and the mount-time part of the effect. *)
Definition mount : State :=
  match board (game_state gameRoom) with
  | Some b => mkState b (or_else (currentTurn (game_state gameRoom)) "X") None gameRoom
  | None => mkState (replicate 9 CNull) "X" None gameRoom
  end.

Definition updateStats (won : bool) (tbl : stats_table) : stats_table :=
  match user with
  | None => tbl
  | Some uid =>
      let currentStats := tbl !! uid in
      <[uid := mkStats (from_option games_played 0 currentStats + 1)
                       (from_option games_won 0 currentStats
                        + (if won then 1 else 0))]> tbl
  end.

(** The [postgres_changes] callback. *)
Definition on_update (updated : GameRoom) (s : State) (tbl : stats_table)
    : State * stats_table :=
  let s1 :=
    match board (game_state updated) with
    | Some b =>
        mkState b (or_else (currentTurn (game_state updated)) "X")
                (st_winner s) updated
    | None => mkState (st_board s) (st_currentTurn s) (st_winner s) updated
    end in
  if truthy (winner_id updated) then
    let won := bool_decide (winner_id updated = user) in
    (mkState (st_board s1) (st_currentTurn s1)
             (Some (if won then "you" else "opponent")) (st_gameState s1),
     updateStats won tbl)
  else (s1, tbl).

(** [handleClick]: [None] when it returns before the write, otherwise
    the object it passes to [.update(...)]. *)
Definition handleClick (now : Z) (index : nat) (s : State) : option RoomUpdate :=
  if cell_truthy (sq (st_board s) index) || truthy (st_winner s) then None
  else if (bool_decide (st_currentTurn s = "X") && negb isPlayer1)
          || (bool_decide (st_currentTurn s = "O") && isPlayer1) then None
  else if bool_decide (status (st_gameState s) ≠ "in_progress") then None
  else
    let newBoard := js_set (st_board s) index (CStr (st_currentTurn s)) in
    let winningSymbol := checkWinner newBoard in
    let isDraw :=
      negb (truthy winningSymbol)
      && forallb (λ c, bool_decide (c ≠ CNull)) newBoard in
    let newTurn := if bool_decide (st_currentTurn s = "X") then "O" else "X" in
    let gs := mkGameState (Some newBoard) (Some newTurn) None None in
    Some
      (if truthy winningSymbol then
         mkRoomUpdate None (Some gs) (Some "completed")
           (Some (if bool_decide (winningSymbol = Some "X")
                  then Some (player1_id gameRoom) else player2_id gameRoom))
           (Some (Some now))
       else if isDraw then
         mkRoomUpdate None (Some gs) (Some "completed") None (Some (Some now))
       else mkRoomUpdate None (Some gs) None None None).

(** The grid is rendered once the local copy of the room has a second
    player; before that the component shows the waiting panel. *)
Definition grid_rendered (s : State) : bool :=
  truthy (player2_id (st_gameState s)).

End Component.

End TicTacToe.

(** ** The Rock-Paper-Scissors component *)

Module RockPaperScissors.

Record State := mkState {
  st_myChoice : option string;
  st_gameState : GameRoom;
  st_result : option string;
}.

Definition choices : list string := ["rock"; "paper"; "scissors"].

(** The [winConditions] table: the choice each key defeats. *)
Definition winConditions (k : string) : option string :=
  if bool_decide (k = "rock") then Some "scissors"
  else if bool_decide (k = "paper") then Some "rock"
  else if bool_decide (k = "scissors") then Some "paper"
  else None.

Section Component.
Variable user : option string.
Variable gameRoom : GameRoom.

Definition isPlayer1 : bool := bool_decide (user = Some (player1_id gameRoom)).

Definition mount : State :=
  let gs := game_state gameRoom in
  let mine :=
    if truthy (player1Choice gs) || truthy (player2Choice gs) then
      if isPlayer1 && truthy (player1Choice gs) then player1Choice gs
      else if negb isPlayer1 && truthy (player2Choice gs) then player2Choice gs
      else None
    else None in
  mkState mine gameRoom None.

Definition updateStats (won : bool) (tbl : stats_table) : stats_table :=
  match user with
  | None => tbl
  | Some uid =>
      let currentStats := tbl !! uid in
      <[uid := mkStats (from_option games_played 0 currentStats + 1)
                       (from_option games_won 0 currentStats
                        + (if won then 1 else 0))]> tbl
  end.

Definition determineWinner (state : GameRoom) (s : State) (tbl : stats_table)
    : State * stats_table :=
  let p1Choice := player1Choice (game_state state) in
  let p2Choice := player2Choice (game_state state) in
  if negb (truthy p1Choice) || negb (truthy p2Choice) then (s, tbl)
  else if bool_decide (p1Choice = p2Choice) then
    (mkState (st_myChoice s) (st_gameState s) (Some "draw"), updateStats false tbl)
  else
    let player1Wins :=
      bool_decide (from_option winConditions None p1Choice = p2Choice) in
    let iWon := (isPlayer1 && player1Wins) || (negb isPlayer1 && negb player1Wins) in
    (mkState (st_myChoice s) (st_gameState s) (Some (if iWon then "win" else "lose")),
     updateStats iWon tbl).

(** The [postgres_changes] callback. *)
Definition on_update (updated : GameRoom) (s : State) (tbl : stats_table)
    : State * stats_table :=
  let s1 := mkState (st_myChoice s) updated (st_result s) in
  if bool_decide (status updated = "completed") then determineWinner updated s1 tbl
  else (s1, tbl).

(** [makeChoice]: [None] when it returns at the guard, otherwise the
    state after [setMyChoice] and the object passed to [.update(...)]. *)
Definition makeChoice (now : Z) (choice : string) (s : State)
    : option (State * RoomUpdate) :=
  if negb (bool_decide (is_Some user)) || truthy (st_myChoice s) then None
  else
    let local := game_state (st_gameState s) in
    let gs :=
      if isPlayer1 then
        mkGameState (board local) (currentTurn local) (Some choice) (player2Choice local)
      else
        mkGameState (board local) (currentTurn local) (player1Choice local) (Some choice) in
    let otherPlayerChoice :=
      if isPlayer1 then player2Choice local else player1Choice local in
    let s' := mkState (Some choice) (st_gameState s) (st_result s) in
    Some
      (s',
       if truthy otherPlayerChoice then
         let p1Choice := if isPlayer1 then Some choice else otherPlayerChoice in
         let p2Choice := if isPlayer1 then otherPlayerChoice else Some choice in
         mkRoomUpdate None (Some gs) (Some "completed")
           (if bool_decide (p1Choice ≠ p2Choice) then
              Some (if bool_decide (from_option winConditions None p1Choice = p2Choice)
                    then Some (player1_id gameRoom) else player2_id gameRoom)
            else None)
           (Some (Some now))
       else mkRoomUpdate None (Some gs) None None None).

(** The three choice buttons are rendered once the local copy of the
    room has a second player and while neither a choice nor a result
    is recorded locally. *)
Definition buttons_rendered (s : State) : bool :=
  truthy (player2_id (st_gameState s))
  && negb (truthy (st_myChoice s)) && negb (truthy (st_result s)).

End Component.

End RockPaperScissors.

(** ** Two clients sharing one room

    One client creates a room, the other finds it in its lobby and joins.
    Every write to [game_rooms] is one atomic statement; the change
    channel then queues the new row for each subscribed client, and a
    client's copy of the room changes only when a queued notification is
    delivered to it. *)

Inductive side := Creator | Joiner.

Inductive component :=
  | TTT (gameRoom : GameRoom) (s : TicTacToe.State)
  | RPS (gameRoom : GameRoom) (s : RockPaperScissors.State).

Inductive notification :=
  | LobbyChange
  | RoomChanged (payload : GameRoom).

Record Client := mkClient {
  user : option string;
  lobby : Games.State;
  comp : option component;
  inbox : list notification;
}.

Record World := mkWorld {
  db : rooms;
  tbl : stats_table;
  creator : Client;
  joiner : Client;
  clock : Z;
}.

Definition client (p : side) (w : World) : Client :=
  match p with Creator => creator w | Joiner => joiner w end.

Definition set_client (p : side) (c : Client) (w : World) : World :=
  match p with
  | Creator => mkWorld (db w) (tbl w) c (joiner w) (clock w)
  | Joiner => mkWorld (db w) (tbl w) (creator w) c (clock w)
  end.

(** What [Games] renders for [activeGame && selectedGameType]. *)
Definition render (u : option string) (g : Games.State) : option component :=
  match Games.activeGame g with
  | Some room =>
      if bool_decide (Games.selectedGameType g = Some "tic_tac_toe") then
        Some (TTT room (TicTacToe.mount room))
      else if bool_decide (Games.selectedGameType g = Some "rock_paper_scissors") then
        Some (RPS room (RockPaperScissors.mount u room))
      else None
  | None => None
  end.

Definition props (c : component) : GameRoom :=
  match c with TTT g _ | RPS g _ => g end.

(** The component channel filters on [id=eq.<gameRoom.id>]. *)
Definition subscribed (c : Client) (r : GameRoom) : bool :=
  match comp c with
  | Some k => bool_decide (room_id (props k) = room_id r)
  | None => false
  end.

Definition push (l : list notification) (c : Client) : Client :=
  mkClient (user c) (lobby c) (comp c) (inbox c ++ l)%list.

(** An updated row is announced to every lobby and to the components
    subscribed to it at the time of the write. *)
Definition announce (r : GameRoom) (c : Client) : Client :=
  push (LobbyChange :: (if subscribed c r then [RoomChanged r] else [])) c.

Definition publish (rows : list GameRoom) (w : World) : World :=
  foldl (λ w r, mkWorld (db w) (tbl w) (announce r (creator w))
                        (announce r (joiner w)) (clock w)) w rows.

(** [supabase.from('game_rooms').update(u).eq('id', rid)] and its fan-out. *)
Definition write (rid : string) (u : RoomUpdate) (w : World) : World :=
  let '(db', rows) := db_update (db w) rid (λ _, true) u in
  publish rows (mkWorld db' (tbl w) (creator w) (joiner w) (clock w)).

Inductive action :=
  | Join
  | Click (p : side) (index : nat)
  | Choose (p : side) (choice : string)
  | Deliver (p : side).

Definition tick (w : World) : World :=
  mkWorld (db w) (tbl w) (creator w) (joiner w) (clock w + 1).

(** The joiner presses the join button of the creator's room, if its
    lobby is on screen and lists that room (the button is rendered for
    rooms of other users only). *)
Definition do_join (w : World) : World :=
  let c := joiner w in
  match Games.activeGame (lobby (creator w)) with
  | Some mine =>
      match find (λ r, bool_decide (room_id r = room_id mine))
                 (Games.availableRooms (lobby c)) with
      | Some room =>
          if Games.lobby_rendered (lobby c)
             && negb (bool_decide (Some (player1_id room) = user c)) then
            let '(db', rows, g', _) := Games.joinRoom (user c) room (db w) (lobby c) in
            let w' := publish rows (mkWorld db' (tbl w) (creator w) c (clock w)) in
            set_client Joiner
              (mkClient (user c) g' (render (user c) g') (inbox (joiner w'))) w'
          else w
      | None => w
      end
  | None => w
  end.

Definition do_click (p : side) (index : nat) (w : World) : World :=
  let c := client p w in
  match comp c with
  | Some (TTT g s) =>
      if TicTacToe.grid_rendered s && bool_decide (index ∈ TicTacToe.cells) then
        match TicTacToe.handleClick (user c) g (clock w) index s with
        | Some u => write (room_id g) u w
        | None => w
        end
      else w
  | _ => w
  end.

Definition do_choose (p : side) (choice : string) (w : World) : World :=
  let c := client p w in
  match comp c with
  | Some (RPS g s) =>
      if RockPaperScissors.buttons_rendered s
         && bool_decide (choice ∈ RockPaperScissors.choices) then
        match RockPaperScissors.makeChoice (user c) g (clock w) choice s with
        | Some (s', u) =>
            write (room_id g) u
              (set_client p (mkClient (user c) (lobby c) (Some (RPS g s')) (inbox c)) w)
        | None => w
        end
      else w
  | _ => w
  end.

(** The [postgres_changes] callback of the mounted component. *)
Definition receive (u : option string) (k : component) (r : GameRoom)
    (t : stats_table) : component * stats_table :=
  match k with
  | TTT g s => let '(s', t') := TicTacToe.on_update u r s t in (TTT g s', t')
  | RPS g s => let '(s', t') := RockPaperScissors.on_update u g r s t in (RPS g s', t')
  end.

Definition do_deliver (p : side) (w : World) : World :=
  let c := client p w in
  match inbox c with
  | [] => w
  | LobbyChange :: rest =>
      set_client p
        (mkClient (user c) (Games.loadAvailableRooms (db w) (lobby c)) (comp c) rest) w
  | RoomChanged r :: rest =>
      match comp c with
      | Some k =>
          let '(k', t') := receive (user c) k r (tbl w) in
          set_client p (mkClient (user c) (lobby c) (Some k') rest)
            (mkWorld (db w) t' (creator w) (joiner w) (clock w))
      | None => set_client p (mkClient (user c) (lobby c) None rest) w
      end
  end.

Definition step (a : action) (w : World) : World :=
  tick (match a with
        | Join => do_join w
        | Click p i => do_click p i w
        | Choose p ch => do_choose p ch w
        | Deliver p => do_deliver p w
        end).

(** Any schedule of user actions and deliveries. *)
Definition run (l : list action) (w : World) : World :=
  foldl (λ w a, step a w) w l.

(** Delivery of everything queued, first to the creator's client. *)
Definition deliver_all (p : side) (w : World) : World :=
  Nat.iter (length (inbox (client p w))) (step (Deliver p)) w.

Definition settle (w : World) : World :=
  deliver_all Joiner (deliver_all Creator w).

(** A schedule in which every action's notifications are delivered to
    both clients before the next action. *)
Definition run_settled (l : list action) (w : World) : World :=
  foldl (λ w a, settle (step a w)) w l.

(** User [A] opens the lobby and creates a room; user [B] has the lobby
    open.  The store picks the key [rid] and the instant [now]. *)
Definition create_world (db0 : rooms) (tbl0 : stats_table) (A B : string)
    (gameType rid : string) (now : Z) : World :=
  let l0 := Games.loadAvailableRooms db0 Games.initial in
  let '(db1, rows, lA) := Games.createRoom (Some A) gameType rid now db0 l0 in
  let news := (λ _ : GameRoom, LobbyChange) <$> rows in
  mkWorld db1 tbl0
    (mkClient (Some A) (Games.loadStats (Some A) tbl0 lA) (render (Some A) lA) news)
    (mkClient (Some B) (Games.loadStats (Some B) tbl0 l0) None news)
    (now + 1).

(** The state in which the game proper starts: room created and lobbies
    refreshed. *)
Definition opened (db0 : rooms) (tbl0 : stats_table) (A B gameType rid : string)
    (now : Z) : World :=
  settle (create_world db0 tbl0 A B gameType rid now).

(** Agreement of the win-rate tile with the exact rounding, as a check. *)
Definition rate_agrees (played won : nat) : bool :=
  bool_decide
    ((Games.winRate (Z.of_nat played) (Z.of_nat won)).1
     = Some (exact_percent (Z.of_nat played) (Z.of_nat won))).


(** ** Sample data: two users, ann and bob, and an onlooker cy *)


(** A Tic-Tac-Toe room of ann (X) and bob (O) after ann's first move. *)
Definition sample_room : GameRoom :=
  mkGameRoom "r1" "tic_tac_toe" "ann" (Some "bob")
    (mkGameState
       (Some [CStr "X"; CNull; CNull; CNull; CNull; CNull; CNull; CNull; CNull])
       (Some "O") None None)
    "in_progress" None 5 None.

(** ann has created a Rock-Paper-Scissors room, bob has the lobby open. *)
Definition rps_opened : World :=
  opened ∅ ∅ "ann" "bob" "rock_paper_scissors" "r1" 100.

(** The same for Tic-Tac-Toe. *)
Definition ttt_opened : World :=
  opened ∅ ∅ "ann" "bob" "tic_tac_toe" "r1" 100.

(** bob joins and ann's client is told. *)
Definition joined_and_seen : list action :=
  [Join; Deliver Creator; Deliver Creator].

(** The stored row of the sample room. *)
Definition stored (w : World) : option GameRoom := db w !! "r1".

(** A Tic-Tac-Toe game that fills the board without a line:
    X O X / X O O / O X X. *)
Definition draw_game : list action :=
  [Join; Click Creator 0; Click Joiner 1; Click Creator 2; Click Joiner 4;
   Click Creator 3; Click Joiner 5; Click Creator 7; Click Joiner 6;
   Click Creator 8]%nat.

(** ** Invariants of settled runs

    In a settled run each component's copy of the room is the stored
    row.  The predicates below say what the stored row and the two
    components look like in such a run of users [A] (creator) and [B]
    (joiner) on the room with key [rid]. *)

(** The board and the turn marker a Tic-Tac-Toe component shows for a row. *)
Definition ttt_board (r : GameRoom) : list cell :=
  default (replicate 9 CNull) (board (game_state r)).

Definition ttt_turn (r : GameRoom) : string :=
  match board (game_state r) with
  | Some _ => or_else (currentTurn (game_state r)) "X"
  | None => "X"
  end.

Definition count_marks (b : list cell) : nat :=
  length (filter (λ c, c ≠ CNull) b).

(** The player a symbol belongs to: player 1 plays "X", player 2 "O". *)
Definition owner (r : GameRoom) (sym : string) : option string :=
  if bool_decide (sym = "X") then Some (player1_id r) else player2_id r.

(** Some line of the board holds three equal non-empty symbols [sym]. *)
Definition line_of (b : list cell) (sym : string) : Prop :=
  sym ≠ "" ∧ ∃ x y z, (x, y, z) ∈ TicTacToe.lines
    ∧ sq b x = CStr sym ∧ sq b y = CStr sym ∧ sq b z = CStr sym.


Record ttt_row_ok (r : GameRoom) : Prop := {
  board_length : length (ttt_board r) = 9%nat;
  board_cells : Forall (λ c, c = CNull ∨ c = CStr "X" ∨ c = CStr "O") (ttt_board r);
  turn_parity :
    ttt_turn r = if Nat.even (count_marks (ttt_board r)) then "X" else "O";
  open_board : status r ≠ "completed" → TicTacToe.checkWinner (ttt_board r) = None;
  won_board : ∀ w, winner_id r = Some w →
    status r = "completed"
    ∧ ∃ sym, TicTacToe.checkWinner (ttt_board r) = Some sym ∧ owner r sym = Some w;
}.

Record rps_row_ok (r : GameRoom) : Prop := {
  slot1 : ∀ c, player1Choice (game_state r) = Some c → c ∈ RockPaperScissors.choices;
  slot2 : ∀ c, player2Choice (game_state r) = Some c → c ∈ RockPaperScissors.choices;
  rps_completed :
    status r = "completed" →
    is_Some (player1Choice (game_state r)) ∧ is_Some (player2Choice (game_state r));
  rps_won : ∀ w, winner_id r = Some w →
    status r = "completed"
    ∧ player1Choice (game_state r) ≠ player2Choice (game_state r);
}.

Definition row_ok (r : GameRoom) : Prop :=
  (game_type r = "tic_tac_toe" ∧ ttt_row_ok r)
  ∨ (game_type r = "rock_paper_scissors" ∧ rps_row_ok r).

(** The component is the one for the row's game and shows the row. *)
Definition mirrors (u : option string) (k : component) (r : GameRoom) : Prop :=
  match k with
  | TTT g s =>
      game_type r = "tic_tac_toe"
      ∧ TicTacToe.st_gameState s = r
      ∧ TicTacToe.st_board s = ttt_board r
      ∧ TicTacToe.st_currentTurn s = ttt_turn r
  | RPS g s =>
      game_type r = "rock_paper_scissors"
      ∧ RockPaperScissors.st_gameState s = r
      ∧ RockPaperScissors.st_myChoice s
        = if RockPaperScissors.isPlayer1 u g then player1Choice (game_state r)
          else player2Choice (game_state r)
  end.

Inductive settled_inv (A B rid : string) (w : World) : Prop :=
  | SettledInv (r : GameRoom) (kA : component)
      (Hkeys : ∀ k x, db w !! k = Some x → room_id x = k)
      (Hrow : db w !! rid = Some r)
      (Hp1 : player1_id r = A)
      (Hok : row_ok r)
      (HuA : user (creator w) = Some A)
      (HiA : inbox (creator w) = [])
      (HcA : comp (creator w) = Some kA)
      (HgA : room_id (props kA) = rid ∧ player1_id (props kA) = A)
      (HmA : mirrors (Some A) kA r)
      (HaA : Games.activeGame (lobby (creator w)) = Some (props kA))
      (HuB : user (joiner w) = Some B)
      (HiB : inbox (joiner w) = [])
      (HlB : Games.availableRooms (lobby (joiner w)) = db_open_rooms (db w))
      (HB : (comp (joiner w) = None ∧ player2_id r = None ∧ status r = "waiting"
             ∧ winner_id r = None)
            ∨ (∃ kB, comp (joiner w) = Some kB
                 ∧ room_id (props kB) = rid ∧ player1_id (props kB) = A
                 ∧ player2_id (props kB) = Some B
                 ∧ mirrors (Some B) kB r ∧ player2_id r = Some B
                 ∧ status r ≠ "waiting")).

(** The user at a side. *)
Definition player (A B : string) (p : side) : string :=
  match p with Creator => A | Joiner => B end.

(** The states of settled runs of users [A] and [B] on a fresh room. *)
Definition reachable (db0 : rooms) (tbl0 : stats_table) (A B gameType rid : string)
    (now : Z) (w : World) : Prop :=
  ∃ l, w = run_settled l (opened db0 tbl0 A B gameType rid now).

(** Keys of the table are the [id] column. *)
Definition keyed (d : rooms) : Prop := ∀ k x, d !! k = Some x → room_id x = k.

(** The outcome a completed row records is decisive. *)
Definition decisive (r : GameRoom) : Prop :=
  (game_type r = "tic_tac_toe" ∧ ∃ sym, line_of (ttt_board r) sym)
  ∨ (game_type r = "rock_paper_scissors"
     ∧ is_Some (player1Choice (game_state r))
     ∧ is_Some (player2Choice (game_state r))
     ∧ player1Choice (game_state r) ≠ player2Choice (game_state r)).

(** ann and bob one move before ann completes the top row. *)
Definition before_win : list action :=
  [Join; Click Creator 0; Click Joiner 4; Click Creator 1; Click Joiner 3]%nat.

(** ** Invariants of arbitrary schedules (Tic-Tac-Toe)

    Between a write and the delivery of its notification a component's
    copy of the room is behind the store.  The predicates below say what
    holds of the stored row, the queued rows and the copies whatever the
    order of clicks and deliveries. *)

(** The rows queued for a component. *)
Definition payloads (l : list notification) : list GameRoom :=
  omap (λ n, match n with RoomChanged r => Some r | LobbyChange => None end) l.

(** What every stored, queued or copied Tic-Tac-Toe row satisfies. *)
Record ttt_row_wf (r : GameRoom) : Prop := {
  wf_length : length (ttt_board r) = 9%nat;
  wf_turn : ttt_turn r = "X" ∨ ttt_turn r = "O";
  wf_open : status r ≠ "completed" → TicTacToe.checkWinner (ttt_board r) = None;
  wf_winner : status r ≠ "completed" → winner_id r = None;
}.

(** Along a sequence of rows completion is never undone. *)
Fixpoint mono (l : list GameRoom) : Prop :=
  match l with
  | [] => True
  | r :: l' =>
      (status r = "completed" → Forall (λ x, status x = "completed") l') ∧ mono l'
  end.

(** The copy of a component followed by the rows queued for it: a
    sequence of well-formed rows that ends with the stored row [r]. *)
Record behind (s : TicTacToe.State) (queue : list notification) (r : GameRoom)
    : Prop := {
  bh_rows : Forall ttt_row_wf (TicTacToe.st_gameState s :: payloads queue);
  bh_mono : mono (TicTacToe.st_gameState s :: payloads queue);
  bh_last : last (TicTacToe.st_gameState s :: payloads queue) = Some r;
  bh_length : length (TicTacToe.st_board s) = 9%nat;
  bh_turn : TicTacToe.st_currentTurn s = "X" ∨ TicTacToe.st_currentTurn s = "O";
  bh_open : status (TicTacToe.st_gameState s) ≠ "completed" →
            TicTacToe.checkWinner (TicTacToe.st_board s) = None;
}.

Inductive ttt_inv (A B rid : string) (w : World) : Prop :=
  | TttInv (r gA : GameRoom) (sA : TicTacToe.State)
      (Hkeys : keyed (db w))
      (Hrow : db w !! rid = Some r)
      (Hp1 : player1_id r = A)
      (HuA : user (creator w) = Some A)
      (HcA : comp (creator w) = Some (TTT gA sA))
      (HgA : room_id gA = rid ∧ player1_id gA = A)
      (HaA : Games.activeGame (lobby (creator w)) = Some gA)
      (HvA : behind sA (inbox (creator w)) r)
      (HuB : user (joiner w) = Some B)
      (HB : (comp (joiner w) = None ∧ player2_id r = None ∧ status r = "waiting"
             ∧ game_type r = "tic_tac_toe"
             ∧ payloads (inbox (creator w)) = [] ∧ payloads (inbox (joiner w)) = []
             ∧ Games.availableRooms (lobby (joiner w)) = db_open_rooms (db w))
            ∨ (∃ gB sB, comp (joiner w) = Some (TTT gB sB)
                 ∧ room_id gB = rid ∧ player1_id gB = A ∧ player2_id gB = Some B
                 ∧ behind sB (inbox (joiner w)) r
                 ∧ player2_id r = Some B
                 ∧ Games.lobby_rendered (lobby (joiner w)) = false)).

(** The states of any schedule of clicks and deliveries of users [A]
    and [B] on a fresh Tic-Tac-Toe room. *)
Definition playing (db0 : rooms) (tbl0 : stats_table) (A B rid : string)
    (now : Z) (w : World) : Prop :=
  ∃ l, w = run l (opened db0 tbl0 A B "tic_tac_toe" rid now).

(** ** The rest of the lobby, the cells and the panels

    The parts of the three components that the game logic above does
    not need: leaving a game, what a Tic-Tac-Toe cell and the status
    panel show, and the tab bar that mounts the lobby. *)


(** The mount effect of [Games]: list and statistics are loaded into the
    initial state. *)
Definition mountGames (user : option string) (db : rooms) (tbl : stats_table)
    : Games.State :=
  Games.loadStats user tbl (Games.loadAvailableRooms db Games.initial).

(** The button [renderCell] returns: its [disabled] attribute, whether
    it carries the hover and pointer classes, and the icon inside. *)
Record CellView := mkCellView {
  cell_disabled : bool;
  cell_inviting : bool;
  cell_icon : option string;
}.

Definition renderCell (user : option string) (gameRoom : GameRoom) (index : nat)
    (s : TicTacToe.State) : CellView :=
  let value := sq (TicTacToe.st_board s) index in
  let isPlayer1 := TicTacToe.isPlayer1 user gameRoom in
  mkCellView
    (cell_truthy value || bool_decide (TicTacToe.st_winner s ≠ None)
     || bool_decide (status (TicTacToe.st_gameState s) ≠ "in_progress"))
    (negb (cell_truthy value)
     && bool_decide (status (TicTacToe.st_gameState s) = "in_progress")
     && ((bool_decide (TicTacToe.st_currentTurn s = "X") && isPlayer1)
         || (bool_decide (TicTacToe.st_currentTurn s = "O") && negb isPlayer1)))
    (if bool_decide (value = CStr "X") then Some "X"
     else if bool_decide (value = CStr "O") then Some "O"
     else None).

(** What the Tic-Tac-Toe component shows above the grid. *)
Inductive ttt_panel :=
  | WaitingForOpponent
  | YouWon
  | YouLost
  | Drawn
  | Turn (mine : bool).

Definition ttt_render (user : option string) (gameRoom : GameRoom)
    (s : TicTacToe.State) : ttt_panel :=
  if negb (truthy (player2_id (TicTacToe.st_gameState s))) then WaitingForOpponent
  else if truthy (TicTacToe.st_winner s) then
    if bool_decide (TicTacToe.st_winner s = Some "you") then YouWon else YouLost
  else if bool_decide (status (TicTacToe.st_gameState s) = "completed") then Drawn
  else Turn (bool_decide (TicTacToe.st_currentTurn s = TicTacToe.mySymbol user gameRoom)).

(** The tab bar [Activities]: the lobby is mounted while the games tab
    is selected, and its state lives only as long as it is mounted. *)
Module Activities.

Inductive ActivityView := games | sports | challenges | gratitude.

#[global] Instance ActivityView_eq_dec : EqDecision ActivityView.
Proof. solve_decision. Defined.

Record State := mkState {
  currentView : ActivityView;
  mounted : option Games.State;
}.

Definition initial (user : option string) (db : rooms) (tbl : stats_table) : State :=
  mkState games (Some (mountGames user db tbl)).


End Activities.

(** The columns of a row no update names. *)
Definition same_room (r r' : GameRoom) : Prop :=
  room_id r' = room_id r ∧ game_type r' = game_type r
  ∧ player1_id r' = player1_id r ∧ created_at r' = created_at r.

(** The counters of a statistics row are consistent. *)
Definition stats_ok (d : Stats) : Prop := 0 ≤ games_won d ≤ games_played d.


(** Rows are neither added nor removed, and keep their identity. *)
Definition rows_kept (d d' : rooms) : Prop :=
  ∀ k, match d !! k with
       | Some r => ∃ r', d' !! k = Some r' ∧ same_room r r'
       | None => d' !! k = None
       end.

(** Counters only grow and stay consistent. *)
Definition stats_grow (t t' : stats_table) : Prop :=
  (∀ uid d, t !! uid = Some d →
     ∃ d', t' !! uid = Some d'
       ∧ games_played d ≤ games_played d' ∧ games_won d ≤ games_won d')
  ∧ ((∀ uid d, t !! uid = Some d → stats_ok d) →
     ∀ uid d, t' !! uid = Some d → stats_ok d).

(** ** The join button and the Rock-Paper-Scissors panel *)


(** The labels of the entries of [choices]; the emoji of an entry is
    shown wherever its label is. *)
Definition choice_labels : list (string * string) :=
  [("rock", "Pierre"); ("paper", "Feuille"); ("scissors", "Ciseaux")].

(** [choices.find(c => c.value === v)?.label]. *)
Definition shown_choice (v : option string) : option string :=
  snd <$> find (λ c, bool_decide (Some c.1 = v)) choice_labels.

Inductive rps_banner := Won | Lost | Draw.

(** What the Rock-Paper-Scissors component shows above the buttons. *)
Inductive rps_panel :=
  | RpsWaitingForOpponent
  | RpsResult (banner : rps_banner) (mine theirs : option string)
  | RpsWaitingForChoice (mine : option string)
  | RpsMakeChoice.

Definition rps_render (user : option string) (gameRoom : GameRoom)
    (s : RockPaperScissors.State) : rps_panel :=
  let gs := game_state (RockPaperScissors.st_gameState s) in
  if negb (truthy (player2_id (RockPaperScissors.st_gameState s))) then
    RpsWaitingForOpponent
  else if truthy (RockPaperScissors.st_result s) then
    RpsResult
      (if bool_decide (RockPaperScissors.st_result s = Some "win") then Won
       else if bool_decide (RockPaperScissors.st_result s = Some "lose") then Lost
       else Draw)
      (shown_choice (RockPaperScissors.st_myChoice s))
      (shown_choice (if RockPaperScissors.isPlayer1 user gameRoom
                     then player2Choice gs else player1Choice gs))
  else if truthy (RockPaperScissors.st_myChoice s) then
    RpsWaitingForChoice (shown_choice (RockPaperScissors.st_myChoice s))
  else RpsMakeChoice.

(** ** Invariants of arbitrary schedules (Rock-Paper-Scissors)

    A player chooses once, and the write of a choice completes the room
    only when the writer's copy shows the opponent's choice.  The
    predicates below say what this gives whatever the order of choices
    and deliveries. *)

(** The user of a client has made a choice in the mounted component. *)
Definition chosen (c : Client) : bool :=
  match comp c with
  | Some (RPS _ s) => truthy (RockPaperScissors.st_myChoice s)
  | _ => false
  end.

(** The games counted for a user since the table was [t0]. *)
Definition counted (t0 t : stats_table) (uid : string) : Z :=
  from_option games_played 0 (t !! uid) - from_option games_played 0 (t0 !! uid).

(** The wins counted for a user since the table was [t0]. *)
Definition won_counted (t0 t : stats_table) (uid : string) : Z :=
  from_option games_won 0 (t !! uid) - from_option games_won 0 (t0 !! uid).

(** A row holds a choice only of a player who has chosen, and is
    completed only when both have. *)
Record slots_owned (chA chB : bool) (x : GameRoom) : Prop := {
  own_slot1 : truthy (player1Choice (game_state x)) = true → chA = true;
  own_slot2 : truthy (player2Choice (game_state x)) = true → chB = true;
  own_completed : status x = "completed" → chA = true ∧ chB = true;
}.

(** The completed rows queued for a component. *)
Definition completed_rows (l : list notification) : Z :=
  Z.of_nat (length (filter (λ x, status x = "completed") (payloads l))).

Inductive rps_inv (A B rid : string) (t0 : stats_table) (w : World) : Prop :=
  | RpsInv (r gA : GameRoom) (sA : RockPaperScissors.State)
      (Hkeys : keyed (db w))
      (Hrow : db w !! rid = Some r)
      (Hgt : game_type r = "rock_paper_scissors")
      (Hp1 : player1_id r = A)
      (HuA : user (creator w) = Some A)
      (HcA : comp (creator w) = Some (RPS gA sA))
      (HgA : room_id gA = rid ∧ player1_id gA = A)
      (HaA : Games.activeGame (lobby (creator w)) = Some gA)
      (HuB : user (joiner w) = Some B)
      (Hown : Forall (slots_owned (chosen (creator w)) (chosen (joiner w)))
                (r :: RockPaperScissors.st_gameState sA :: payloads (inbox (creator w))))
      (HnA : 0 ≤ counted t0 (tbl w) A
             ∧ counted t0 (tbl w) A + completed_rows (inbox (creator w)) ≤ 1)
      (HnB : 0 ≤ counted t0 (tbl w) B
             ∧ counted t0 (tbl w) B + completed_rows (inbox (joiner w)) ≤ 1)
      (Hfirst : chosen (creator w) && chosen (joiner w) = false →
                counted t0 (tbl w) A = 0 ∧ counted t0 (tbl w) B = 0)
      (Hwon : 0 ≤ won_counted t0 (tbl w) A ≤ counted t0 (tbl w) A
              ∧ 0 ≤ won_counted t0 (tbl w) B ≤ counted t0 (tbl w) B)
      (HB : (comp (joiner w) = None ∧ player2_id r = None
             ∧ chosen (creator w) = false
             ∧ Forall (λ x, truthy (player2_id x) = false)
                 (RockPaperScissors.st_gameState sA :: payloads (inbox (creator w)))
             ∧ payloads (inbox (joiner w)) = []
             ∧ Games.availableRooms (lobby (joiner w)) = db_open_rooms (db w))
            ∨ (∃ gB sB, comp (joiner w) = Some (RPS gB sB)
                 ∧ room_id gB = rid ∧ player1_id gB = A
                 ∧ Forall (slots_owned (chosen (creator w)) (chosen (joiner w)))
                     (RockPaperScissors.st_gameState sB :: payloads (inbox (joiner w)))
                 ∧ Games.lobby_rendered (lobby (joiner w)) = false)).

(** The states of any schedule of choices and deliveries of users [A]
    and [B] on a fresh Rock-Paper-Scissors room. *)
Definition choosing (db0 : rooms) (tbl0 : stats_table) (A B rid : string)
    (now : Z) (w : World) : Prop :=
  ∃ l, w = run l (opened db0 tbl0 A B "rock_paper_scissors" rid now).

(** ann chooses rock, bob paper, each after seeing the other's move, and
    everything is delivered. *)
Definition rps_round : list action :=
  [Join; Deliver Creator; Deliver Creator; Choose Creator "rock";
   Deliver Joiner; Deliver Joiner; Deliver Joiner; Choose Joiner "paper";
   Deliver Creator; Deliver Creator; Deliver Creator; Deliver Creator;
   Deliver Joiner; Deliver Joiner].

(** * Properties *)

(** ** The win-rate tile *)

Lemma winRate_not_positive played won :
  played ≤ 0 → Games.winRate played won = (Some 0, []).
Proof.
  intros H. unfold Games.winRate.
  destruct (Z.ltb_spec 0 played) as [Hlt|_]; [lia|done].
Qed.

Lemma winRate_positive played won :
  0 < played →
  Games.winRate played won
  = (Games.Math_round
       (PrimFloat.mul (PrimFloat.div (Games.number won) (Games.number played))
                      (Games.number 100)),
     [played]).
Proof.
  intros H. unfold Games.winRate.
  destruct (Z.ltb_spec 0 played) as [_|Hle]; [done|lia].
Qed.

Lemma rate_agrees_below_40 :
  forallb (λ p, forallb (rate_agrees p) (seq 0 (S p))) (seq 1 39) = true.
Proof. vm_compute. reflexivity. Qed.

(** C10, the claim as stated fails: with 23 wins in 40 games the quotient
    23/40 is not a binary fraction, the double product is
    57.49999999999999 and the tile shows 57, while 100 * 23 / 40 = 57.5
    rounds to 58. *)
Lemma winRate_differs_from_exact_percent :
  (Games.winRate 40 23).1 = Some 57
  ∧ exact_percent 40 23 = 58
  ∧ ¬ (∀ played won, 0 < played →
         (Games.winRate played won).1 = Some (exact_percent played won)).
Proof.
  split; [by vm_compute|]. split; [by vm_compute|].
  intros H. specialize (H 40 23 eq_refl). vm_compute in H. discriminate.
Qed.

(** C10 (amended): the win rate is defined for every stats pair.  When
    [games_played] is not positive it is 0 and no division is evaluated;
    otherwise it is [Math.round] of the double [(won / played) * 100], the
    only division having the non-zero denominator [played].  For fewer
    than 40 games played this is the exact quotient rounded half up. *)
Theorem winRate_total_and_guarded (played won : Z) :
  (played ≤ 0 → Games.winRate played won = (Some 0, []))
  ∧ (0 < played →
     Games.winRate played won
     = (Games.Math_round
          (PrimFloat.mul (PrimFloat.div (Games.number won) (Games.number played))
                         (Games.number 100)),
        [played]))
  ∧ (0 ∉ snd (Games.winRate played won))
  ∧ (0 < played < 40 → 0 ≤ won ≤ played →
     (Games.winRate played won).1 = Some (exact_percent played won)).
Proof.
  split; [apply winRate_not_positive|]. split; [apply winRate_positive|]. split.
  - destruct (Z.le_gt_cases played 0) as [H|H].
    + rewrite winRate_not_positive by done. apply not_elem_of_nil.
    + rewrite winRate_positive by lia. simpl.
      intros Hin. apply list_elem_of_singleton in Hin. lia.
  - intros Hp Hw.
    pose proof rate_agrees_below_40 as Hall.
    rewrite forallb_forall in Hall.
    specialize (Hall (Z.to_nat played)).
    rewrite forallb_forall in Hall.
    assert (Hin : In (Z.to_nat played) (seq 1 39)) by (apply in_seq; lia).
    specialize (Hall Hin (Z.to_nat won)).
    assert (Hin' : In (Z.to_nat won) (seq 0 (S (Z.to_nat played))))
      by (apply in_seq; lia).
    specialize (Hall Hin'). unfold rate_agrees in Hall.
    apply bool_decide_eq_true in Hall.
    by rewrite !Z2Nat.id in Hall by lia.
Qed.

Lemma winRate_total_and_guarded_witness :
  0 < 8 < 40 ∧ 0 ≤ 1 ≤ 8 ∧ (Games.winRate 8 1).1 = Some (exact_percent 8 1).
Proof.
  split; [lia|]. split; [lia|].
  apply (winRate_total_and_guarded 8 1); lia.
Defined.

(** ** Joining a room *)

Lemma joinRoom_free (db : rooms) (s : Games.State) (uid : string) (room r : GameRoom) :
  player1_id room ≠ uid → truthy (player2_id room) = false →
  db !! room_id room = Some r → player2_id r = None →
  Games.joinRoom (Some uid) room db s
  = (<[room_id room := apply_update (Games.join_update uid) r]> db,
     [apply_update (Games.join_update uid) r],
     Games.setIsJoining None
       (Games.setActive (Some (apply_update (Games.join_update uid) r))
                        (Some (game_type room)) s),
     []).
Proof.
  intros Hne Hopen Hr Hp2. unfold Games.joinRoom, db_update.
  rewrite bool_decide_eq_false_2 by done.
  rewrite Hopen, Hr, Hp2. by rewrite bool_decide_eq_true_2.
Qed.




(** ** Arrays and the terminal check *)

Lemma js_set_in_range (b : list cell) (i : nat) (v : cell) :
  (i < length b)%nat → js_set b i v = <[i:=v]> b.
Proof. intros H. unfold js_set. by rewrite decide_True. Qed.

Lemma sq_js_set_eq (b : list cell) (i : nat) (v : cell) : sq (js_set b i v) i = v.
Proof.
  unfold sq, js_set. case_decide as H.
  - by rewrite list_lookup_insert_eq.
  - rewrite lookup_app_r by lia. rewrite lookup_app_r by (rewrite length_replicate; lia).
    rewrite length_replicate. by replace (i - length b - (i - length b))%nat with 0%nat by lia.
Qed.

Lemma sq_js_set_ne (b : list cell) (i j : nat) (v : cell) :
  j ≠ i → sq (js_set b i v) j = sq b j.
Proof.
  intros Hne. unfold sq, js_set. case_decide as H.
  - by rewrite list_lookup_insert_ne.
  - destruct (decide (j < length b)%nat) as [Hj|Hj].
    + by rewrite lookup_app_l.
    + rewrite (lookup_ge_None_2 b j) by lia. rewrite lookup_app_r by lia.
      destruct (decide (j < i)%nat) as [Hji|Hji].
      * rewrite lookup_app_l by (rewrite length_replicate; lia).
        by rewrite lookup_replicate_2 by lia.
      * rewrite lookup_app_r by (rewrite length_replicate; lia).
        rewrite length_replicate.
        by rewrite lookup_ge_None_2 by (simpl; lia).
Qed.

Lemma line_won_true (b : list cell) (x y z : nat) :
  TicTacToe.line_won b (x, y, z) = true
  ↔ ∃ s, s ≠ "" ∧ sq b x = CStr s ∧ sq b y = CStr s ∧ sq b z = CStr s.
Proof.
  unfold TicTacToe.line_won. rewrite !andb_true_iff, !bool_decide_eq_true. split.
  - intros [[Ht Hy] Hz]. destruct (sq b x) as [| |s] eqn:Hx; try done.
    simpl in Ht. apply bool_decide_eq_true in Ht. exists s. by rewrite <- Hy, <- Hz.
  - intros (s & Hs & -> & -> & ->). simpl. by rewrite bool_decide_eq_true.
Qed.

Lemma checkWinner_Some (b : list cell) (s : string) :
  TicTacToe.checkWinner b = Some s →
  s ≠ "" ∧ ∃ x y z, (x, y, z) ∈ TicTacToe.lines
    ∧ sq b x = CStr s ∧ sq b y = CStr s ∧ sq b z = CStr s.
Proof.
  unfold TicTacToe.checkWinner.
  destruct (find (TicTacToe.line_won b) TicTacToe.lines) as [[[x y] z]|] eqn:Hf; [|done].
  apply find_some in Hf as [Hin Hw]. apply line_won_true in Hw as (s' & Hs' & Hx & Hy & Hz).
  rewrite Hx. intros [= <-]. split; [done|].
  exists x, y, z. by rewrite list_elem_of_In.
Qed.

Lemma checkWinner_None (b : list cell) :
  TicTacToe.checkWinner b = None
  ↔ ∀ l, l ∈ TicTacToe.lines → TicTacToe.line_won b l = false.
Proof.
  unfold TicTacToe.checkWinner. split.
  - destruct (find (TicTacToe.line_won b) TicTacToe.lines) as [[[x y] z]|] eqn:Hf.
    + apply find_some in Hf as [Hin Hw]. apply line_won_true in Hw as (s' & Hs' & Hx & _).
      by rewrite Hx.
    + intros _ l Hl. eapply find_none in Hf; [done|]. by apply list_elem_of_In.
  - intros Hall.
    destruct (find (TicTacToe.line_won b) TicTacToe.lines) as [[[x y] z]|] eqn:Hf; [|done].
    apply find_some in Hf as [Hin Hw]. apply list_elem_of_In in Hin.
    by rewrite (Hall _ Hin) in Hw.
Qed.

(** A line completed by a move carries the symbol just placed. *)
Lemma checkWinner_after_move (b : list cell) (i : nat) (t s : string) :
  TicTacToe.checkWinner b = None →
  TicTacToe.checkWinner (js_set b i (CStr t)) = Some s → s = t.
Proof.
  intros Hnone Hsome. apply checkWinner_Some in Hsome as (Hs & x & y & z & Hin & Hx & Hy & Hz).
  destruct (decide (x = i)) as [->|Hxi]; [rewrite sq_js_set_eq in Hx; congruence|].
  destruct (decide (y = i)) as [->|Hyi]; [rewrite sq_js_set_eq in Hy; congruence|].
  destruct (decide (z = i)) as [->|Hzi]; [rewrite sq_js_set_eq in Hz; congruence|].
  rewrite sq_js_set_ne in Hx, Hy, Hz by done.
  rewrite checkWinner_None in Hnone. specialize (Hnone _ Hin).
  assert (TicTacToe.line_won b (x, y, z) = true) as Hw by (apply line_won_true; eauto).
  congruence.
Qed.

(** ** [handleClick] *)

(** Case analysis on every decided proposition of the goal. *)
Ltac case_decided :=
  repeat match goal with
         | |- context [bool_decide ?P] => destruct (bool_decide_reflect P)
         end.

(** The three guards of [handleClick], as one condition. *)
Lemma handleClick_None_iff user g now i (s : TicTacToe.State) :
  TicTacToe.handleClick user g now i s = None
  ↔ (cell_truthy (sq (TicTacToe.st_board s) i) = true
     ∨ truthy (TicTacToe.st_winner s) = true
     ∨ (TicTacToe.st_currentTurn s = "X" ∧ TicTacToe.isPlayer1 user g = false)
     ∨ (TicTacToe.st_currentTurn s = "O" ∧ TicTacToe.isPlayer1 user g = true)
     ∨ status (TicTacToe.st_gameState s) ≠ "in_progress").
Proof.
  unfold TicTacToe.handleClick.
  destruct (cell_truthy _) eqn:Hc; simpl; [naive_solver|].
  destruct (truthy (TicTacToe.st_winner s)) eqn:Hw; simpl; [naive_solver|].
  destruct (TicTacToe.isPlayer1 user g) eqn:Hp; simpl;
    case_decided; simpl; intuition congruence.
Qed.

Lemma handleClick_Some user g now i (s : TicTacToe.State) (u : RoomUpdate) :
  TicTacToe.handleClick user g now i s = Some u →
  let nb := js_set (TicTacToe.st_board s) i (CStr (TicTacToe.st_currentTurn s)) in
  let nt := if bool_decide (TicTacToe.st_currentTurn s = "X") then "O" else "X" in
  cell_truthy (sq (TicTacToe.st_board s) i) = false
  ∧ truthy (TicTacToe.st_winner s) = false
  ∧ status (TicTacToe.st_gameState s) = "in_progress"
  ∧ (TicTacToe.st_currentTurn s = "X" → TicTacToe.isPlayer1 user g = true)
  ∧ (TicTacToe.st_currentTurn s = "O" → TicTacToe.isPlayer1 user g = false)
  ∧ u_player2_id u = None
  ∧ u_game_state u = Some (mkGameState (Some nb) (Some nt) None None)
  ∧ match TicTacToe.checkWinner nb with
    | Some sym =>
        u_status u = Some "completed"
        ∧ u_winner_id u
          = Some (if bool_decide (sym = "X") then Some (player1_id g) else player2_id g)
        ∧ u_completed_at u = Some (Some now)
    | None =>
        if forallb (λ c, bool_decide (c ≠ CNull)) nb then
          u_status u = Some "completed" ∧ u_winner_id u = None
          ∧ u_completed_at u = Some (Some now)
        else u_status u = None ∧ u_winner_id u = None ∧ u_completed_at u = None
    end.
Proof.
  intros Hu nb nt.
  assert (Hsome : TicTacToe.handleClick user g now i s ≠ None) by congruence.
  rewrite handleClick_None_iff in Hsome.
  assert (Hc : cell_truthy (sq (TicTacToe.st_board s) i) = false)
    by (destruct (cell_truthy _); naive_solver).
  assert (Hw : truthy (TicTacToe.st_winner s) = false)
    by (destruct (truthy _); naive_solver).
  assert (Hst : status (TicTacToe.st_gameState s) = "in_progress")
    by (destruct (decide (status (TicTacToe.st_gameState s) = "in_progress")); naive_solver).
  assert (HX : TicTacToe.st_currentTurn s = "X" → TicTacToe.isPlayer1 user g = true)
    by (destruct (TicTacToe.isPlayer1 user g); naive_solver).
  assert (HO : TicTacToe.st_currentTurn s = "O" → TicTacToe.isPlayer1 user g = false)
    by (destruct (TicTacToe.isPlayer1 user g); naive_solver).
  do 5 (split; [done|]).
  unfold TicTacToe.handleClick in Hu. rewrite Hc, Hw in Hu. simpl in Hu.
  rewrite (bool_decide_eq_false_2 (status _ ≠ _)) in Hu by naive_solver.
  destruct ((bool_decide (TicTacToe.st_currentTurn s = "X") && negb (TicTacToe.isPlayer1 user g))
            || (bool_decide (TicTacToe.st_currentTurn s = "O") && TicTacToe.isPlayer1 user g))
    eqn:Hturn.
  { exfalso. apply orb_true_iff in Hturn as [Ht|Ht]; apply andb_true_iff in Ht as [Ht1 Ht2];
      apply bool_decide_eq_true in Ht1.
    - rewrite (HX Ht1) in Ht2. done.
    - rewrite (HO Ht1) in Ht2. done. }
  fold nb in Hu. fold nt in Hu.
  destruct (TicTacToe.checkWinner nb) as [sym|] eqn:Hcw.
  - apply checkWinner_Some in Hcw as [Hsym _].
    simpl in Hu. rewrite bool_decide_eq_true_2 in Hu by done.
    injection Hu as <-. simpl. repeat split; try done.
    f_equal. case_decided; naive_solver.
  - simpl in Hu. destruct (forallb _ nb); injection Hu as <-; done.
Qed.

(** ** Illegal moves *)




(** ** The store under writes *)

Lemma db_publish (rows : list GameRoom) (w : World) : db (publish rows w) = db w.
Proof.
  unfold publish. revert w. induction rows as [|r rows IH]; intros w; [done|].
  simpl. by rewrite IH.
Qed.

Lemma tbl_publish (rows : list GameRoom) (w : World) : tbl (publish rows w) = tbl w.
Proof.
  unfold publish. revert w. induction rows as [|r rows IH]; intros w; [done|].
  simpl. by rewrite IH.
Qed.

(** A write replaces the named columns of the stored row, whatever the
    row holds at that time. *)
Lemma write_lookup (rid : string) (u : RoomUpdate) (w : World) :
  db (write rid u w) !! rid = apply_update u <$> db w !! rid.
Proof.
  unfold write, db_update. destruct (db w !! rid) as [r|] eqn:Hr;
    rewrite db_publish; simpl.
  - by rewrite lookup_insert_eq.
  - by rewrite Hr.
Qed.

(** ** [makeChoice] *)

Lemma makeChoice_Some (uid : string) (g : GameRoom) (now : Z) (ch : string)
    (s : RockPaperScissors.State) :
  truthy (RockPaperScissors.st_myChoice s) = false →
  ∃ u, RockPaperScissors.makeChoice (Some uid) g now ch s
       = Some (RockPaperScissors.mkState (Some ch) (RockPaperScissors.st_gameState s)
                 (RockPaperScissors.st_result s), u).
Proof.
  intros Hm. unfold RockPaperScissors.makeChoice. rewrite Hm.
  rewrite bool_decide_eq_true_2 by eauto. simpl. eauto.
Qed.

(** C5, the claim as stated fails: [makeChoice] reads the opponent's slot
    in the component's own copy of the room, which changes only when a
    notification is delivered.  bob's choice is stored; ann chooses
    before bob's write reaches her client: her write does not compute
    the outcome, leaves the room in progress, and replaces the stored
    payload by one without bob's choice. *)
Lemma stored_choice_not_used :
  let w := run (joined_and_seen ++ [Choose Joiner "paper"]) rps_opened in
  player2Choice ∘ game_state <$> stored w = Some (Some "paper")
  ∧ RockPaperScissors.st_myChoice <$>
      (match comp (creator w) with Some (RPS _ s) => Some s | _ => None end)
    = Some None
  ∧ status <$> stored (step (Choose Creator "rock") w) = Some "in_progress"
  ∧ game_state <$> stored (step (Choose Creator "rock") w)
    = Some (mkGameState None None (Some "rock") None).
Proof. by vm_compute. Qed.

(** C5 (amended): [makeChoice] writes nothing when a choice is already
    recorded in the component.  Otherwise it records the choice locally
    and writes the component's copy of [game_state] with the caller's
    slot set.  If the opponent's slot of that copy is populated the same
    write sets [status] to completed and [completed_at], and writes the
    winner column exactly when the two choices differ; if it is empty
    the write names [game_state] only. *)
Theorem makeChoice_reads_local_copy (uid : string) (g : GameRoom) (now : Z)
    (choice : string) (s : RockPaperScissors.State) :
  let local := game_state (RockPaperScissors.st_gameState s) in
  let first := RockPaperScissors.isPlayer1 (Some uid) g in
  let other := if first then player2Choice local else player1Choice local in
  (truthy (RockPaperScissors.st_myChoice s) = true →
   RockPaperScissors.makeChoice (Some uid) g now choice s = None)
  ∧ (truthy (RockPaperScissors.st_myChoice s) = false →
     ∃ s' u,
       RockPaperScissors.makeChoice (Some uid) g now choice s = Some (s', u)
       ∧ RockPaperScissors.st_myChoice s' = Some choice
       ∧ u_game_state u
         = Some (if first
                 then mkGameState (board local) (currentTurn local) (Some choice)
                                  (player2Choice local)
                 else mkGameState (board local) (currentTurn local)
                                  (player1Choice local) (Some choice))
       ∧ (truthy other = true →
          u_status u = Some "completed" ∧ u_completed_at u = Some (Some now)
          ∧ (other = Some choice → u_winner_id u = None)
          ∧ (other ≠ Some choice → is_Some (u_winner_id u)))
       ∧ (truthy other = false →
          u_status u = None ∧ u_winner_id u = None ∧ u_completed_at u = None)).
Proof.
  intros local first other. split.
  - intros Hm. unfold RockPaperScissors.makeChoice. rewrite Hm.
    by rewrite orb_true_r.
  - intros Hm. unfold RockPaperScissors.makeChoice. rewrite Hm.
    rewrite bool_decide_eq_true_2 by eauto. simpl.
    subst first other. fold local.
    destruct (RockPaperScissors.isPlayer1 (Some uid) g).
    + destruct (truthy (player2Choice local)) eqn:Ho; eexists _, _;
        (split; [reflexivity|]); simpl; repeat split; try done.
      * intros He. rewrite bool_decide_eq_false_2; [done|]. intros Hne. by apply Hne.
      * intros He. rewrite bool_decide_eq_true_2; [eauto|]. congruence.
    + destruct (truthy (player1Choice local)) eqn:Ho; eexists _, _;
        (split; [reflexivity|]); simpl; repeat split; try done.
      * intros He. rewrite bool_decide_eq_false_2; [done|]. intros Hne. by apply Hne.
      * intros He. rewrite bool_decide_eq_true_2; [eauto|]. congruence.
Qed.

Lemma makeChoice_reads_local_copy_witness :
  RockPaperScissors.makeChoice (Some "bob") sample_room 7 "rock"
    (RockPaperScissors.mkState (Some "paper") sample_room None) = None.
Proof.
  apply (makeChoice_reads_local_copy "bob" sample_room 7 "rock"
           (RockPaperScissors.mkState (Some "paper") sample_room None)).
  reflexivity.
Defined.

(** ** Outcome of Rock-Paper-Scissors *)

Lemma choice_truthy (c : string) :
  c ∈ RockPaperScissors.choices → truthy (Some c) = true.
Proof.
  unfold RockPaperScissors.choices. intros H.
  repeat (apply elem_of_cons in H as [->|H]; [done|]).
  by apply elem_of_nil in H.
Qed.

(** What the completing write names as winner, for the nine pairs of
    choices: nothing on equal choices, otherwise [player1_id] of the
    component's [gameRoom] prop when player 1's choice defeats player 2's
    and [player2_id] of that prop when it does not. *)
Lemma makeChoice_winner_column (uid : string) (g : GameRoom) (now : Z)
    (mine theirs : string) (s : RockPaperScissors.State) (s' : RockPaperScissors.State)
    (u : RoomUpdate) :
  mine ∈ RockPaperScissors.choices → theirs ∈ RockPaperScissors.choices →
  (if RockPaperScissors.isPlayer1 (Some uid) g
   then player2Choice (game_state (RockPaperScissors.st_gameState s))
   else player1Choice (game_state (RockPaperScissors.st_gameState s))) = Some theirs →
  RockPaperScissors.makeChoice (Some uid) g now mine s = Some (s', u) →
  let p1 := if RockPaperScissors.isPlayer1 (Some uid) g then mine else theirs in
  let p2 := if RockPaperScissors.isPlayer1 (Some uid) g then theirs else mine in
  u_status u = Some "completed"
  ∧ u_winner_id u
    = if bool_decide (p1 = p2) then None
      else Some (if bool_decide (RockPaperScissors.winConditions p1 = Some p2)
                 then Some (player1_id g) else player2_id g).
Proof.
  intros Hm Ht Hother Hmk.
  unfold RockPaperScissors.makeChoice in Hmk.
  destruct (negb _ || truthy _); [done|].
  pose proof (choice_truthy theirs Ht) as Htr.
  destruct (RockPaperScissors.isPlayer1 (Some uid) g); rewrite Hother, Htr in Hmk;
    injection Hmk as <- <-; simpl; (split; [done|]);
    case_decided; simpl;
    first [ congruence
          | exfalso; match goal with H : ¬ (_ ≠ _) |- _ => apply H; congruence end ].
Qed.

(** C3, at the failing input: ann created the room, bob joined and chose
    paper, ann then chooses rock.  The room prop of ann's component is
    the row returned by her insert, whose [player2_id] is null, so the
    completing write stores a null winner although paper defeats rock.
    With the roles of first and second chooser exchanged the winner is
    stored. *)
Theorem creator_choosing_last_loses_winner :
  let w := run_settled [Join; Choose Joiner "paper"; Choose Creator "rock"] rps_opened in
  let w' := run_settled [Join; Choose Creator "rock"; Choose Joiner "paper"] rps_opened in
  (player2_id ∘ props <$> comp (creator w) = Some None
   ∧ game_state <$> stored w = Some (mkGameState None None (Some "rock") (Some "paper"))
   ∧ status <$> stored w = Some "completed"
   ∧ player2_id <$> stored w = Some (Some "bob")
   ∧ winner_id <$> stored w = Some None)
  ∧ (game_state <$> stored w' = Some (mkGameState None None (Some "rock") (Some "paper"))
     ∧ status <$> stored w' = Some "completed"
     ∧ winner_id <$> stored w' = Some (Some "bob")).
Proof. by vm_compute. Qed.

(** ** Statistics *)

Lemma ttt_on_update_without_winner (u : option string) (r : GameRoom)
    (s : TicTacToe.State) (t : stats_table) :
  truthy (winner_id r) = false → (TicTacToe.on_update u r s t).2 = t.
Proof. intros H. unfold TicTacToe.on_update. by rewrite H. Qed.

(** C8, at the failing input: a Tic-Tac-Toe game ending in a draw.  The
    room is completed without a winner, both clients have processed the
    notification, and neither player has a statistics row: the callback
    calls [updateStats] only for a non-null [winner_id].  A drawn
    Rock-Paper-Scissors game does count for both players. *)
Theorem drawn_tic_tac_toe_not_counted :
  let w := run_settled draw_game ttt_opened in
  let w' := run_settled [Join; Choose Creator "rock"; Choose Joiner "rock"] rps_opened in
  (status <$> stored w = Some "completed" ∧ winner_id <$> stored w = Some None
   ∧ inbox (creator w) = [] ∧ inbox (joiner w) = []
   ∧ tbl w !! "ann" = None ∧ tbl w !! "bob" = None)
  ∧ (status <$> stored w' = Some "completed" ∧ winner_id <$> stored w' = Some None
     ∧ tbl w' !! "ann" = Some (mkStats 1 0) ∧ tbl w' !! "bob" = Some (mkStats 1 0)).
Proof. by vm_compute. Qed.

(** ** Frame of a move write *)

Lemma db_set_client (p : side) (c : Client) (w : World) : db (set_client p c w) = db w.
Proof. by destruct p. Qed.

(** C9, the claim as stated fails when the writer's copy of the room is
    behind the store.  Tic-Tac-Toe: ann clicks cell 0 and, before the
    notification of her own write is delivered, cell 1; the second write
    stores a board without the mark at cell 0.  Rock-Paper-Scissors: ann
    chooses rock and bob, before her write reaches him, paper; bob's
    write stores a payload without ann's choice. *)
Lemma stored_moves_can_be_dropped :
  (let w1 := run (joined_and_seen ++ [Click Creator 0%nat]) ttt_opened in
   let w2 := step (Click Creator 1%nat) w1 in
   board ∘ game_state <$> stored w1
   = Some (Some [CStr "X"; CNull; CNull; CNull; CNull; CNull; CNull; CNull; CNull])
   ∧ board ∘ game_state <$> stored w2
     = Some (Some [CNull; CStr "X"; CNull; CNull; CNull; CNull; CNull; CNull; CNull]))
  ∧ (let w1 := run (joined_and_seen ++ [Choose Creator "rock"]) rps_opened in
     let w2 := step (Choose Joiner "paper") w1 in
     game_state <$> stored w1 = Some (mkGameState None None (Some "rock") None)
     ∧ game_state <$> stored w2 = Some (mkGameState None None None (Some "paper"))).
Proof. by vm_compute. Qed.

(** C9 (amended): a move write never drops a move of the writer's own
    copy of the game.  The board a Tic-Tac-Toe write carries is the
    component's board with the clicked cell, empty there, set to the
    mover's mark and every other cell as it was; the payload a
    Rock-Paper-Scissors write carries is the component's copy with the
    caller's slot set and the opponent's slot as it was.  The write
    replaces the stored payload, so whenever the writer's copy is the
    stored one, every stored mark and the opponent's stored choice
    survive the write. *)
Theorem move_write_extends_writers_copy :
  (∀ u g now i (s : TicTacToe.State) upd,
     TicTacToe.handleClick u g now i s = Some upd →
     ∃ nb nt, u_game_state upd = Some (mkGameState (Some nb) (Some nt) None None)
       ∧ cell_truthy (sq (TicTacToe.st_board s) i) = false
       ∧ sq nb i = CStr (TicTacToe.st_currentTurn s)
       ∧ ∀ j, j ≠ i → sq nb j = sq (TicTacToe.st_board s) j)
  ∧ (∀ u g now ch (s s' : RockPaperScissors.State) upd,
       RockPaperScissors.makeChoice u g now ch s = Some (s', upd) →
       let local := game_state (RockPaperScissors.st_gameState s) in
       ∃ gs, u_game_state upd = Some gs
         ∧ board gs = board local ∧ currentTurn gs = currentTurn local
         ∧ if RockPaperScissors.isPlayer1 u g
           then player1Choice gs = Some ch ∧ player2Choice gs = player2Choice local
           else player2Choice gs = Some ch ∧ player1Choice gs = player1Choice local)
  ∧ (∀ w p i g (s : TicTacToe.State) row,
       comp (client p w) = Some (TTT g s) →
       db w !! room_id g = Some row →
       board (game_state row) = Some (TicTacToe.st_board s) →
       ∃ row' b', db (do_click p i w) !! room_id g = Some row'
         ∧ board (game_state row') = Some b'
         ∧ ∀ j, cell_truthy (sq (TicTacToe.st_board s) j) = true →
                sq b' j = sq (TicTacToe.st_board s) j)
  ∧ (∀ w p ch g (s : RockPaperScissors.State) row,
       comp (client p w) = Some (RPS g s) →
       db w !! room_id g = Some row →
       game_state row = game_state (RockPaperScissors.st_gameState s) →
       ∃ row', db (do_choose p ch w) !! room_id g = Some row'
         ∧ if RockPaperScissors.isPlayer1 (user (client p w)) g
           then player2Choice (game_state row') = player2Choice (game_state row)
           else player1Choice (game_state row') = player1Choice (game_state row)).
Proof.
  assert (HT : ∀ u g now i (s : TicTacToe.State) upd,
     TicTacToe.handleClick u g now i s = Some upd →
     ∃ nb nt, u_game_state upd = Some (mkGameState (Some nb) (Some nt) None None)
       ∧ cell_truthy (sq (TicTacToe.st_board s) i) = false
       ∧ sq nb i = CStr (TicTacToe.st_currentTurn s)
       ∧ ∀ j, j ≠ i → sq nb j = sq (TicTacToe.st_board s) j).
  { intros u g now i s upd H. apply handleClick_Some in H as (Hc & _ & _ & _ & _ & _ & Hgs & _).
    eexists _, _. split; [exact Hgs|]. split; [done|]. split; [apply sq_js_set_eq|].
    intros j Hj. by apply sq_js_set_ne. }
  assert (HR : ∀ u g now ch (s s' : RockPaperScissors.State) upd,
       RockPaperScissors.makeChoice u g now ch s = Some (s', upd) →
       let local := game_state (RockPaperScissors.st_gameState s) in
       ∃ gs, u_game_state upd = Some gs
         ∧ board gs = board local ∧ currentTurn gs = currentTurn local
         ∧ if RockPaperScissors.isPlayer1 u g
           then player1Choice gs = Some ch ∧ player2Choice gs = player2Choice local
           else player2Choice gs = Some ch ∧ player1Choice gs = player1Choice local).
  { intros u g now ch s s' upd H local. unfold RockPaperScissors.makeChoice in H.
    destruct (negb _ || truthy _); [done|]. fold local in H.
    destruct (RockPaperScissors.isPlayer1 u g);
      match type of H with context [truthy ?o] => destruct (truthy o) end;
      injection H as <- <-; simpl; eexists; (split; [reflexivity|]); done. }
  split; [exact HT|]. split; [exact HR|]. split.
  - intros w p i g s row Hc Hrow Hb. unfold do_click. rewrite Hc.
    destruct (TicTacToe.grid_rendered s && _);
      [|exists row, (TicTacToe.st_board s); by rewrite Hrow].
    destruct (TicTacToe.handleClick _ g (clock w) i s) as [upd|] eqn:Hh;
      [|exists row, (TicTacToe.st_board s); by rewrite Hrow].
    apply HT in Hh as (nb & nt & Hgs & Hempty & _ & Hframe).
    exists (apply_update upd row), nb. rewrite write_lookup, Hrow. split; [done|].
    split; [by simpl; rewrite Hgs|].
    intros j Hj. apply Hframe. intros ->. congruence.
  - intros w p ch g s row Hc Hrow Hgs. unfold do_choose. rewrite Hc.
    assert (Hsame : ∃ row', Some row = Some row'
       ∧ if RockPaperScissors.isPlayer1 (user (client p w)) g
         then player2Choice (game_state row') = player2Choice (game_state row)
         else player1Choice (game_state row') = player1Choice (game_state row))
      by (exists row; by destruct (RockPaperScissors.isPlayer1 _ g)).
    destruct (RockPaperScissors.buttons_rendered s && _); [|by rewrite Hrow].
    destruct (RockPaperScissors.makeChoice _ g (clock w) ch s) as [[s' upd]|] eqn:Hm;
      [|by rewrite Hrow].
    apply HR in Hm as (gs & Hu & _ & _ & Hslots).
    exists (apply_update upd row). rewrite write_lookup, db_set_client, Hrow.
    split; [done|]. simpl. rewrite Hu. simpl. rewrite Hgs.
    destruct (RockPaperScissors.isPlayer1 _ g); by destruct Hslots.
Qed.

Lemma move_write_extends_writers_copy_witness :
  ∃ nb nt,
    u_game_state (mkRoomUpdate None
       (Some (mkGameState
          (Some [CStr "X"; CNull; CNull; CNull; CStr "O"; CNull; CNull; CNull; CNull])
          (Some "X") None None)) None None None)
    = Some (mkGameState (Some nb) (Some nt) None None)
    ∧ cell_truthy (sq (TicTacToe.st_board (TicTacToe.mount sample_room)) 4) = false
    ∧ sq nb 4 = CStr (TicTacToe.st_currentTurn (TicTacToe.mount sample_room))
    ∧ ∀ j, j ≠ 4%nat → sq nb j = sq (TicTacToe.st_board (TicTacToe.mount sample_room)) j.
Proof.
  apply (proj1 move_write_extends_writers_copy (Some "bob") sample_room 9 4%nat
           (TicTacToe.mount sample_room)).
  reflexivity.
Defined.

(** ** Settled runs *)

Lemma settle_quiet (w : World) :
  inbox (creator w) = [] → inbox (joiner w) = [] → settle w = w.
Proof.
  intros HA HB. unfold settle, deliver_all. simpl. rewrite HA. simpl. by rewrite HB.
Qed.

(** A write from a state with empty queues, both components mounted on
    the room, followed by delivery to both: the row is replaced, both
    callbacks run on the new row, both lobbies reload their list. *)
Lemma settle_write (w : World) (rid : string) (u : RoomUpdate) (r : GameRoom)
    (kA kB : component) :
  db w !! rid = Some r → room_id r = rid →
  inbox (creator w) = [] → inbox (joiner w) = [] →
  comp (creator w) = Some kA → room_id (props kA) = rid →
  comp (joiner w) = Some kB → room_id (props kB) = rid →
  settle (tick (write rid u w))
  = let r' := apply_update u r in
    let db' := <[rid := r']> (db w) in
    let ra := receive (user (creator w)) kA r' (tbl w) in
    let rb := receive (user (joiner w)) kB r' ra.2 in
    mkWorld db' rb.2
      (mkClient (user (creator w)) (Games.loadAvailableRooms db' (lobby (creator w)))
                (Some ra.1) [])
      (mkClient (user (joiner w)) (Games.loadAvailableRooms db' (lobby (joiner w)))
                (Some rb.1) [])
      (clock w + 5).
Proof.
  destruct w as [d t [uA lA cA iA] [uB lB cB iB] clk]. simpl.
  intros Hr Hid -> -> -> HkA -> HkB.
  unfold write, db_update. simpl. rewrite Hr. simpl.
  unfold announce, subscribed. simpl.
  rewrite !bool_decide_eq_true_2 by (by rewrite ?HkA, ?HkB, ?Hid).
  unfold settle, deliver_all, step, tick, do_deliver. simpl.
  destruct (receive uA kA (apply_update u r) t) as [kA' t1] eqn:HA. simpl.
  destruct (receive uB kB (apply_update u r) t1) as [kB' t2] eqn:HB. simpl.
  f_equal. lia.
Qed.

(** ** The lobby list *)

Lemma elem_of_db_open_rooms (d : rooms) (room : GameRoom) :
  room ∈ db_open_rooms d →
  (∃ k, d !! k = Some room) ∧ status room = "waiting" ∧ player2_id room = None.
Proof.
  unfold db_open_rooms. intros H.
  apply subseteq_take in H. rewrite merge_sort_Permutation in H.
  apply list_elem_of_filter in H as [[Hs Hp] H].
  apply list_elem_of_fmap in H as ([k x] & -> & H).
  apply elem_of_map_to_list in H. eauto.
Qed.

(** ** The invariant of settled runs *)

Section Settled.
Variables A B rid : string.
Hypothesis HAB : A ≠ B.

Lemma settled_inv_tick (w : World) : settled_inv A B rid w → settled_inv A B rid (tick w).
Proof. intros [r kA]. by econstructor. Qed.

Lemma mount_mirrors_ttt (r : GameRoom) (u : option string) :
  game_type r = "tic_tac_toe" → mirrors u (TTT r (TicTacToe.mount r)) r.
Proof.
  intros Hgt. unfold mirrors, TicTacToe.mount, ttt_board, ttt_turn.
  by destruct (board (game_state r)).
Qed.

Lemma mount_mirrors_rps (r : GameRoom) (u : option string) :
  game_type r = "rock_paper_scissors" → rps_row_ok r →
  mirrors u (RPS r (RockPaperScissors.mount u r)) r.
Proof.
  intros Hgt [H1 H2 _ _]. unfold mirrors, RockPaperScissors.mount. simpl.
  split; [done|]. split; [done|].
  destruct (player1Choice (game_state r)) as [c1|] eqn:E1;
    destruct (player2Choice (game_state r)) as [c2|] eqn:E2;
    rewrite ?(choice_truthy c1), ?(choice_truthy c2) by auto; simpl;
    destruct (RockPaperScissors.isPlayer1 u r); simpl; try done.
Qed.

Lemma empty_ttt_row_ok (r : GameRoom) :
  game_state r = empty_state → status r ≠ "completed" → winner_id r = None →
  ttt_row_ok r.
Proof.
  intros Hgs Hst Hw. split; unfold ttt_board, ttt_turn; rewrite ?Hgs; simpl; try done.
  - repeat constructor.
  - intros w. by rewrite Hw.
Qed.

Lemma empty_rps_row_ok (r : GameRoom) :
  game_state r = empty_state → status r ≠ "completed" → winner_id r = None →
  rps_row_ok r.
Proof.
  intros Hgs Hst Hw. split; rewrite ?Hgs; simpl; try done.
  intros w. by rewrite Hw.
Qed.

(** The state after room creation satisfies the invariant. *)
Lemma opened_inv (db0 : rooms) (tbl0 : stats_table) (gameType : string) (now : Z) :
  gameType ∈ supported_game_types →
  db0 !! rid = None →
  (∀ k x, db0 !! k = Some x → room_id x = k) →
  settled_inv A B rid (opened db0 tbl0 A B gameType rid now).
Proof.
  intros Hgt Hfresh Hkeys. unfold opened, create_world, Games.createRoom, db_insert.
  rewrite decide_True by done. simpl.
  set (r := mkGameRoom rid gameType A None empty_state "waiting" None now None).
  unfold settle, deliver_all, step, tick, do_deliver; simpl.
  assert (Hcases : gameType = "tic_tac_toe" ∨ gameType = "rock_paper_scissors").
  { unfold supported_game_types in Hgt.
    apply elem_of_cons in Hgt as [->|Hgt]; [by left|].
    apply elem_of_cons in Hgt as [->|Hgt]; [by right|].
    by apply elem_of_nil in Hgt. }
  assert (Hrok : row_ok r).
  { destruct Hcases as [->| ->]; [left|right]; (split; [done|]).
    - by apply empty_ttt_row_ok.
    - by apply empty_rps_row_ok. }
  assert (Hkeys' : ∀ k x, <[rid:=r]> db0 !! k = Some x → room_id x = k).
  { intros k x. destruct (decide (k = rid)) as [->|Hne].
    - rewrite lookup_insert_eq. by intros [= <-].
    - rewrite lookup_insert_ne by done. apply Hkeys. }
  destruct Hcases as [->| ->]; unfold render; simpl.
  - eapply (SettledInv A B rid _ r (TTT r (TicTacToe.mount r))); simpl;
      first [ done | by rewrite lookup_insert_eq | by destruct (tbl0 !! A)
            | by destruct (tbl0 !! B) | by left ].
  - eapply (SettledInv A B rid _ r (RPS r (RockPaperScissors.mount (Some A) r)));
      simpl;
      first [ done | by rewrite lookup_insert_eq | by destruct (tbl0 !! A)
            | by destruct (tbl0 !! B) | by left | idtac ].
    split; [done|]. split; [done|].
    unfold RockPaperScissors.isPlayer1. simpl. by rewrite bool_decide_eq_true_2.
Qed.

End Settled.

(** ** The callbacks keep the components in step with the row *)

Lemma props_receive (u : option string) (k : component) (r : GameRoom) (t : stats_table) :
  props (receive u k r t).1 = props k.
Proof.
  destruct k as [g s|g s]; simpl.
  - by destruct (TicTacToe.on_update u r s t).
  - by destruct (RockPaperScissors.on_update u g r s t).
Qed.

Lemma receive_mirrors_ttt (u : option string) (g : GameRoom) (s : TicTacToe.State)
    (r : GameRoom) (t : stats_table) :
  game_type r = "tic_tac_toe" →
  (board (game_state r) = None →
   TicTacToe.st_board s = replicate 9 CNull ∧ TicTacToe.st_currentTurn s = "X") →
  mirrors u (receive u (TTT g s) r t).1 r.
Proof.
  intros Hgt Hnone. simpl. unfold TicTacToe.on_update.
  destruct (board (game_state r)) as [b|] eqn:Hb;
    destruct (truthy (winner_id r)); simpl; unfold ttt_board, ttt_turn;
    rewrite Hb; simpl; try done;
    destruct Hnone as [-> ->]; done.
Qed.

Lemma receive_mirrors_rps (u : option string) (g : GameRoom)
    (s : RockPaperScissors.State) (r : GameRoom) (t : stats_table) :
  game_type r = "rock_paper_scissors" →
  RockPaperScissors.st_myChoice s
  = (if RockPaperScissors.isPlayer1 u g then player1Choice (game_state r)
     else player2Choice (game_state r)) →
  mirrors u (receive u (RPS g s) r t).1 r.
Proof.
  intros Hgt Hm. simpl. unfold RockPaperScissors.on_update, RockPaperScissors.determineWinner.
  destruct (bool_decide (status r = "completed")); simpl; [|done].
  destruct (negb _ || negb _); simpl; [done|].
  destruct (bool_decide (player1Choice _ = player2Choice _)); simpl; done.
Qed.

(** A row whose [game_state] is that of the mirrored row is mirrored
    after its delivery. *)
Lemma receive_mirrors_same (u : option string) (k : component) (r r' : GameRoom)
    (t : stats_table) :
  mirrors u k r → game_type r' = game_type r → game_state r' = game_state r →
  mirrors u (receive u k r' t).1 r'.
Proof.
  intros Hm Hgt Hgs. destruct k as [g s|g s].
  - destruct Hm as (Hg & Hs & Hb & Ht). apply receive_mirrors_ttt; [congruence|].
    intros Hnone. rewrite Hb, Ht. unfold ttt_board, ttt_turn.
    rewrite <- Hgs, Hnone. done.
  - destruct Hm as (Hg & Hs & Hc). apply receive_mirrors_rps; [congruence|].
    by rewrite Hgs.
Qed.

(** Without a winner and short of completion the callbacks leave the
    statistics alone. *)
Lemma receive_tbl_open (u : option string) (k : component) (r : GameRoom) (t : stats_table) :
  winner_id r = None → status r ≠ "completed" → (receive u k r t).2 = t.
Proof.
  intros Hw Hst. destruct k as [g s|g s]; simpl.
  - unfold TicTacToe.on_update. rewrite Hw. simpl. by destruct (board (game_state r)).
  - unfold RockPaperScissors.on_update. by rewrite bool_decide_eq_false_2.
Qed.

(** ** Joining in a settled run *)

#[local] Arguments Games.joinRoom : simpl never.

Lemma row_ok_open (r r' : GameRoom) :
  row_ok r → game_type r' = game_type r → game_state r' = game_state r →
  status r ≠ "completed" → status r' ≠ "completed" → winner_id r' = None →
  row_ok r'.
Proof.
  intros Hok Hgt Hgs Hst Hst' Hw.
  destruct Hok as [[Hg [H1 H2 H3 H4 H5]]|[Hg [H1 H2 H3 H4]]]; [left|right];
    (split; [congruence|]); split; unfold ttt_board, ttt_turn in *;
    rewrite ?Hgs, ?Hw; try done; auto.
Qed.

Lemma settle_join (w : World) (B rid : string) (r mine : GameRoom) (kA : component) :
  Games.activeGame (lobby (creator w)) = Some mine → room_id mine = rid →
  find (λ x, bool_decide (room_id x = rid)) (Games.availableRooms (lobby (joiner w)))
  = Some r →
  Games.lobby_rendered (lobby (joiner w)) = true →
  user (joiner w) = Some B → player1_id r ≠ B →
  db w !! rid = Some r → room_id r = rid → player2_id r = None →
  inbox (creator w) = [] → inbox (joiner w) = [] →
  comp (creator w) = Some kA → room_id (props kA) = rid →
  comp (joiner w) = None →
  settle (step Join w)
  = let r' := apply_update (Games.join_update B) r in
    let db' := <[rid := r']> (db w) in
    let ra := receive (user (creator w)) kA r' (tbl w) in
    let g' := Games.setIsJoining None
                (Games.setActive (Some r') (Some (game_type r)) (lobby (joiner w))) in
    mkWorld db' ra.2
      (mkClient (user (creator w)) (Games.loadAvailableRooms db' (lobby (creator w)))
                (Some ra.1) [])
      (mkClient (Some B) (Games.loadAvailableRooms db' g') (render (Some B) g') [])
      (clock w + 4).
Proof.
  destruct w as [d t [uA lA cA iA] [uB lB cB iB] clk]. simpl.
  intros Hmine Hidm Hfind Hlobby -> Hne Hr Hid Hp2 -> -> -> HkA ->.
  unfold step, do_join. simpl. rewrite Hmine, Hidm, Hfind, Hlobby. simpl.
  rewrite (bool_decide_eq_false_2 (Some (player1_id r) = Some B)) by congruence. simpl.
  rewrite (joinRoom_free d lB B r r); [| done | by rewrite Hp2 | by rewrite Hid | done ].
  rewrite Hid. simpl. unfold announce, subscribed. simpl.
  rewrite bool_decide_eq_true_2 by (by rewrite HkA, Hid).
  unfold settle, deliver_all, step, tick, do_deliver. simpl.
  destruct (receive uA kA (apply_update (Games.join_update B) r) t) as [kA' t1]. simpl.
  f_equal. lia.
Qed.

Section SettledJoin.
Variables A B rid : string.
Hypothesis HAB : A ≠ B.

Lemma listed_room_is_stored (w : World) (room r : GameRoom) :
  (∀ k x, db w !! k = Some x → room_id x = k) →
  db w !! rid = Some r →
  find (λ x, bool_decide (room_id x = rid)) (db_open_rooms (db w)) = Some room →
  room = r ∧ player2_id r = None ∧ status r = "waiting".
Proof.
  intros Hkeys Hrow Hfind. apply find_some in Hfind as [Hin Hid].
  apply bool_decide_eq_true in Hid. apply list_elem_of_In in Hin.
  apply elem_of_db_open_rooms in Hin as ([k Hk] & Hst & Hp2).
  pose proof (Hkeys _ _ Hk) as Hk'. assert (k = rid) as -> by congruence.
  assert (room = r) as -> by congruence. done.
Qed.

Lemma join_noop (w : World) :
  (∀ mine, Games.activeGame (lobby (creator w)) = Some mine →
     find (λ x, bool_decide (room_id x = room_id mine))
          (Games.availableRooms (lobby (joiner w))) = None
     ∨ Games.lobby_rendered (lobby (joiner w)) = false) →
  step Join w = tick w.
Proof.
  intros H. unfold step, do_join.
  destruct (Games.activeGame (lobby (creator w))) as [mine|]; [|done].
  destruct (H mine eq_refl) as [-> | Hl]; [done|].
  destruct (find _ _); [|done]. by rewrite Hl.
Qed.

Lemma join_inv (w : World) :
  settled_inv A B rid w → settled_inv A B rid (settle (step Join w)).
Proof.
  intros Hinv.
  destruct Hinv as [r kA Hkeys Hrow Hp1 Hok HuA HiA HcA [HgA1 HgA2] HmA HaA HuB HiB HlB HB].
  assert (Hquiet : step Join w = tick w → settled_inv A B rid (settle (step Join w))).
  { intros ->. rewrite settle_quiet by done. apply settled_inv_tick. by econstructor. }
  assert (Hmine : ∀ mine, Games.activeGame (lobby (creator w)) = Some mine →
                          room_id mine = rid) by (intros mine; rewrite HaA; congruence).
  destruct (find (λ x, bool_decide (room_id x = rid))
              (Games.availableRooms (lobby (joiner w)))) as [room|] eqn:Hfind;
    [|apply Hquiet, join_noop; intros mine Hm; left; by rewrite (Hmine _ Hm)].
  destruct (Games.lobby_rendered (lobby (joiner w))) eqn:Hlr;
    [|apply Hquiet, join_noop; intros mine Hm; by right].
  rewrite HlB in Hfind.
  pose proof Hfind as Hlisted.
  apply listed_room_is_stored with (r := r) in Hlisted as (-> & Hp2 & Hst); [|done..].
  rewrite <- HlB in Hfind.
  destruct HB as [(HcB & _ & _ & Hw)|(kB & _ & _ & _ & _ & _ & Hp2' & _)]; [|congruence].
  assert (Hid : room_id r = rid) by (by apply Hkeys).
  rewrite (settle_join w B rid r (props kA) kA) by (done || congruence).
  set (r' := apply_update (Games.join_update B) r).
  assert (Hok' : row_ok r').
  { apply (row_ok_open r); try done. by rewrite Hst. }
  assert (Hrender : ∃ kB,
    render (Some B)
      (Games.setIsJoining None
         (Games.setActive (Some r') (Some (game_type r)) (lobby (joiner w)))) = Some kB
    ∧ props kB = r' ∧ mirrors (Some B) kB r').
  { unfold render. simpl.
    destruct Hok' as [[Hg Hr']|[Hg Hr']]; change (game_type r') with (game_type r) in Hg;
      rewrite Hg; simpl.
    - eexists. split; [done|]. split; [done|]. by apply mount_mirrors_ttt.
    - eexists. split; [done|]. split; [done|]. by apply mount_mirrors_rps. }
  destruct Hrender as (kB & HkB & HpB & HmB).
  simpl. rewrite HkB.
  eapply (SettledInv A B rid _ r' (receive (user (creator w)) kA r' (tbl w)).1); simpl.
  - intros k x. destruct (decide (k = rid)) as [->|Hne].
    + rewrite lookup_insert_eq. by intros [= <-].
    + rewrite lookup_insert_ne by done. apply Hkeys.
  - by rewrite lookup_insert_eq.
  - done.
  - done.
  - done.
  - done.
  - done.
  - by rewrite props_receive.
  - rewrite HuA. by apply (receive_mirrors_same _ _ r).
  - by rewrite props_receive.
  - done.
  - done.
  - done.
  - right. exists kB. rewrite HpB. simpl. repeat split; try done.
Qed.

End SettledJoin.

Section SettledMoves.
Variables A B rid : string.
Hypothesis HAB : A ≠ B.

(** A move write from a state with empty queues and both components
    mounted re-establishes the invariant, provided the new row is well
    formed and both callbacks leave their component showing it. *)
Lemma write_inv (w : World) (u : RoomUpdate) (r : GameRoom) (kA kB : component) :
  (∀ k x, db w !! k = Some x → room_id x = k) →
  db w !! rid = Some r → player1_id r = A → player2_id r = Some B →
  user (creator w) = Some A → inbox (creator w) = [] →
  comp (creator w) = Some kA → room_id (props kA) = rid → player1_id (props kA) = A →
  Games.activeGame (lobby (creator w)) = Some (props kA) →
  user (joiner w) = Some B → inbox (joiner w) = [] →
  comp (joiner w) = Some kB → room_id (props kB) = rid → player1_id (props kB) = A →
  player2_id (props kB) = Some B →
  u_player2_id u = None →
  row_ok (apply_update u r) → status (apply_update u r) ≠ "waiting" →
  (∀ t, mirrors (Some A) (receive (Some A) kA (apply_update u r) t).1 (apply_update u r)) →
  (∀ t, mirrors (Some B) (receive (Some B) kB (apply_update u r) t).1 (apply_update u r)) →
  settled_inv A B rid (settle (tick (write rid u w))).
Proof.
  intros Hkeys Hrow Hp1 Hp2 HuA HiA HcA HgA1 HgA2 HaA HuB HiB HcB HgB1 HgB2 HgB3
         Hu2 Hok Hst HmA HmB.
  assert (Hid : room_id r = rid) by (by apply Hkeys).
  rewrite (settle_write w rid u r kA kB) by done.
  set (r' := apply_update u r) in *. simpl. rewrite HuA, HuB.
  eapply (SettledInv A B rid _ r' (receive (Some A) kA r' (tbl w)).1); simpl.
  - intros k x. destruct (decide (k = rid)) as [->|Hne].
    + rewrite lookup_insert_eq. by intros [= <-].
    + rewrite lookup_insert_ne by done. apply Hkeys.
  - by rewrite lookup_insert_eq.
  - done.
  - done.
  - done.
  - done.
  - done.
  - by rewrite props_receive.
  - apply HmA.
  - by rewrite props_receive.
  - done.
  - done.
  - done.
  - right. eexists. split; [done|]. rewrite props_receive.
    repeat split; try done. by rewrite Hu2.
Qed.

End SettledMoves.

(** ** Boards *)

Lemma count_marks_cons (c : cell) (b : list cell) :
  count_marks (c :: b) = if decide (c ≠ CNull) then S (count_marks b) else count_marks b.
Proof. unfold count_marks. rewrite filter_cons. by destruct (decide (c ≠ CNull)). Qed.

Lemma count_marks_insert (b : list cell) (i : nat) (c : cell) :
  b !! i = Some CNull → c ≠ CNull →
  count_marks (<[i:=c]> b) = S (count_marks b).
Proof.
  revert i. induction b as [|c0 b IH]; intros i Hi Hc; [done|].
  destruct i as [|i]; simpl in *.
  - injection Hi as ->. rewrite !count_marks_cons.
    rewrite decide_True by done. by rewrite decide_False by (intros H; by apply H).
  - rewrite !count_marks_cons. rewrite (IH i) by done. by destruct (decide (c0 ≠ CNull)).
Qed.

Lemma empty_cell (b : list cell) (i : nat) :
  Forall (λ c, c = CNull ∨ c = CStr "X" ∨ c = CStr "O") b →
  (i < length b)%nat → cell_truthy (sq b i) = false → b !! i = Some CNull.
Proof.
  intros Hcells Hi Hc. destruct (lookup_lt_is_Some_2 b i Hi) as [c Hl].
  unfold sq in Hc. rewrite Hl in Hc. simpl in Hc.
  rewrite Forall_lookup in Hcells. destruct (Hcells i c Hl) as [->|[->| ->]]; done.
Qed.

Lemma cells_below_nine (i : nat) : i ∈ TicTacToe.cells → (i < 9)%nat.
Proof.
  unfold TicTacToe.cells. intros H.
  repeat (apply elem_of_cons in H as [->|H]; [lia|]). by apply elem_of_nil in H.
Qed.

Lemma line_of_checkWinner (b : list cell) (sym : string) :
  TicTacToe.checkWinner b = Some sym → line_of b sym.
Proof. intros H. by apply checkWinner_Some in H. Qed.




(** ** A Tic-Tac-Toe move on the stored board *)

Lemma turn_is_symbol (r : GameRoom) : ttt_row_ok r → ttt_turn r = "X" ∨ ttt_turn r = "O".
Proof. intros [_ _ H _ _]. rewrite H. destruct (Nat.even _); auto. Qed.

Lemma ttt_move_facts (r g : GameRoom) (usr : option string) (s : TicTacToe.State)
    (now : Z) (i : nat) (u : RoomUpdate) :
  ttt_row_ok r →
  TicTacToe.st_gameState s = r →
  TicTacToe.st_board s = ttt_board r →
  TicTacToe.st_currentTurn s = ttt_turn r →
  i ∈ TicTacToe.cells →
  TicTacToe.handleClick usr g now i s = Some u →
  let m := ttt_turn r in
  let nb := <[i := CStr m]> (ttt_board r) in
  let nt := if bool_decide (m = "X") then "O" else "X" in
  status r = "in_progress"
  ∧ (m = "X" → TicTacToe.isPlayer1 usr g = true)
  ∧ (m = "O" → TicTacToe.isPlayer1 usr g = false)
  ∧ ttt_board r !! i = Some CNull
  ∧ u_player2_id u = None
  ∧ u_game_state u = Some (mkGameState (Some nb) (Some nt) None None)
  ∧ count_marks nb = S (count_marks (ttt_board r))
  ∧ match TicTacToe.checkWinner nb with
    | Some sym =>
        sym = m ∧ u_status u = Some "completed"
        ∧ u_winner_id u
          = Some (if bool_decide (sym = "X") then Some (player1_id g) else player2_id g)
        ∧ u_completed_at u = Some (Some now)
    | None =>
        if forallb (λ c, bool_decide (c ≠ CNull)) nb then
          u_status u = Some "completed" ∧ u_winner_id u = None
          ∧ u_completed_at u = Some (Some now)
        else u_status u = None ∧ u_winner_id u = None ∧ u_completed_at u = None
    end.
Proof.
  intros Hok Hs Hb Ht Hi Hclick m nb nt.
  pose proof (turn_is_symbol r Hok) as Hm.
  destruct Hok as [Hlen Hcells Hpar Hopen Hwon].
  apply handleClick_Some in Hclick as (Hc & _ & Hst & HX & HO & Hu2 & Hgs & Hout).
  rewrite Hs in Hst. rewrite Hb, Ht in *.
  apply cells_below_nine in Hi.
  rewrite js_set_in_range in * by lia.
  fold m in Hgs, Hout, HX, HO, Hm. fold nb in Hgs, Hout. fold nt in Hgs.
  assert (Hempty : ttt_board r !! i = Some CNull) by (apply empty_cell; [done|lia|done]).
  assert (Hnoline : TicTacToe.checkWinner (ttt_board r) = None)
    by (apply Hopen; by rewrite Hst).
  do 6 (split; [done|]). split.
  { apply count_marks_insert; [done|]. done. }
  destruct (TicTacToe.checkWinner nb) as [sym|] eqn:Hcw; [|done].
  split; [|done].
  apply (checkWinner_after_move (ttt_board r) i m sym Hnoline).
  by rewrite js_set_in_range by lia.
Qed.

Lemma ttt_move_row_ok (r g : GameRoom) (usr : option string) (s : TicTacToe.State)
    (now : Z) (i : nat) (u : RoomUpdate) :
  ttt_row_ok r →
  TicTacToe.st_gameState s = r →
  TicTacToe.st_board s = ttt_board r →
  TicTacToe.st_currentTurn s = ttt_turn r →
  i ∈ TicTacToe.cells →
  TicTacToe.handleClick usr g now i s = Some u →
  player1_id g = player1_id r →
  (TicTacToe.isPlayer1 usr g = false → player2_id g = player2_id r) →
  ttt_row_ok (apply_update u r) ∧ status (apply_update u r) ≠ "waiting".
Proof.
  intros Hok Hs Hb Ht Hi Hclick Hp1 Hp2.
  pose proof (turn_is_symbol r Hok) as Hm.
  pose proof (ttt_move_facts r g usr s now i u Hok Hs Hb Ht Hi Hclick)
    as (Hst & HX & HO & Hempty & Hu2 & Hgs & Hcount & Hout).
  destruct Hok as [Hlen Hcells Hpar Hopen Hwon].
  set (m := ttt_turn r) in *.
  set (nb := <[i := CStr m]> (ttt_board r)) in *.
  assert (Hnb : ttt_board (apply_update u r) = nb)
    by (unfold ttt_board; simpl; by rewrite Hgs).
  assert (Hnt : ttt_turn (apply_update u r) = if bool_decide (m = "X") then "O" else "X").
  { unfold ttt_turn. simpl. rewrite Hgs. simpl. by destruct (bool_decide (m = "X")). }
  assert (Hwin0 : winner_id r = None).
  { destruct (winner_id r) as [x|] eqn:Hw; [|done].
    destruct (Hwon x eq_refl) as [Hc _]. congruence. }
  split; [split|].
  - rewrite Hnb. unfold nb. by rewrite length_insert.
  - rewrite Hnb. unfold nb. apply Forall_insert; [done|]. destruct Hm as [-> | ->]; auto.
  - rewrite Hnb, Hnt, Hcount. rewrite Nat.even_succ, <- Nat.negb_even.
    fold m in Hpar. rewrite Hpar.
    by destruct (Nat.even (count_marks (ttt_board r))).
  - rewrite Hnb. intros Hnc.
    destruct (TicTacToe.checkWinner nb) as [sym|]; [|done].
    destruct Hout as (_ & Hstu & _). exfalso. apply Hnc. simpl. by rewrite Hstu.
  - rewrite Hnb. intros x Hx. simpl in Hx.
    destruct (TicTacToe.checkWinner nb) as [sym|].
    + destruct Hout as (-> & Hstu & Hwu & _). simpl. rewrite Hstu. split; [done|].
      exists m. split; [done|]. rewrite Hwu in Hx. simpl in Hx. rewrite <- Hx.
      unfold owner. simpl. rewrite Hu2. simpl.
      destruct (bool_decide (m = "X")) eqn:Hmx; [by rewrite Hp1|].
      symmetry. apply Hp2, HO. destruct Hm as [Hm|Hm]; [|done].
      by apply bool_decide_eq_false in Hmx.
    + assert (u_winner_id u = None) as Hwu
        by (destruct (forallb _ nb); by destruct Hout as (_ & ? & _)).
      rewrite Hwu in Hx. simpl in Hx. congruence.
  - simpl. destruct (TicTacToe.checkWinner nb) as [sym|].
    + destruct Hout as (_ & -> & _). done.
    + destruct (forallb _ nb); destruct Hout as (-> & _); simpl; [done|].
      by rewrite Hst.
Qed.

Section SettledClick.
Variables A B rid : string.
Hypothesis HAB : A ≠ B.

Lemma receive_mirrors_board (u : option string) (k : component) (r r' : GameRoom)
    (t : stats_table) :
  mirrors u k r → game_type r = "tic_tac_toe" → game_type r' = "tic_tac_toe" →
  is_Some (board (game_state r')) →
  mirrors u (receive u k r' t).1 r'.
Proof.
  intros Hm Hg Hg' [nb Hnb]. destruct k as [g s|g s].
  - apply receive_mirrors_ttt; [done|]. by rewrite Hnb.
  - destruct Hm as [Hrps _]. congruence.
Qed.

Lemma row_ok_ttt (r : GameRoom) : row_ok r → game_type r = "tic_tac_toe" → ttt_row_ok r.
Proof. intros [[_ H]|[Hg _]] Hg'; [done|congruence]. Qed.

Lemma row_ok_rps (r : GameRoom) :
  row_ok r → game_type r = "rock_paper_scissors" → rps_row_ok r.
Proof. intros [[Hg _]|[_ H]] Hg'; [congruence|done]. Qed.

(** An accepted click in a settled state: the component shows the stored
    row, the row is replaced by the update applied to it, and the
    invariant holds again once both clients are notified. *)
Lemma click_accepted (w : World) (p : side) (i : nat) (g : GameRoom)
    (s : TicTacToe.State) (u : RoomUpdate) :
  settled_inv A B rid w →
  comp (client p w) = Some (TTT g s) →
  TicTacToe.grid_rendered s = true → i ∈ TicTacToe.cells →
  TicTacToe.handleClick (user (client p w)) g (clock w) i s = Some u →
  ∃ r, db w !! rid = Some r
    ∧ ttt_row_ok r ∧ player1_id r = A ∧ player2_id r = Some B
    ∧ TicTacToe.st_gameState s = r
    ∧ TicTacToe.st_board s = ttt_board r
    ∧ TicTacToe.st_currentTurn s = ttt_turn r
    ∧ player1_id g = A
    ∧ (TicTacToe.isPlayer1 (user (client p w)) g = false → player2_id g = Some B)
    ∧ db (settle (step (Click p i) w)) !! rid = Some (apply_update u r)
    ∧ settled_inv A B rid (settle (step (Click p i) w)).
Proof.
  intros Hinv Hcomp Hgrid Hi Hclick.
  destruct Hinv as [r kA Hkeys Hrow Hp1 Hok HuA HiA HcA [HgA1 HgA2] HmA HaA HuB HiB HlB HB].
  assert (Hid : room_id r = rid) by (by apply Hkeys).
  assert (Hshown : game_type r = "tic_tac_toe" ∧ TicTacToe.st_gameState s = r
                   ∧ TicTacToe.st_board s = ttt_board r
                   ∧ TicTacToe.st_currentTurn s = ttt_turn r
                   ∧ room_id g = rid ∧ player1_id g = A
                   ∧ (TicTacToe.isPlayer1 (user (client p w)) g = false
                      → player2_id g = Some B)
                   ∧ player2_id r = Some B
                   ∧ ∃ kB, comp (joiner w) = Some kB ∧ room_id (props kB) = rid
                       ∧ player1_id (props kB) = A ∧ player2_id (props kB) = Some B
                       ∧ mirrors (Some B) kB r).
  { destruct p; simpl in Hcomp, Hclick |- *.
    - rewrite HcA in Hcomp. injection Hcomp as ->. simpl in *.
      destruct HmA as (Hg & Hs & Hb & Ht).
      assert (Hp2 : player2_id r = Some B ∧ ∃ kB, comp (joiner w) = Some kB
                ∧ room_id (props kB) = rid ∧ player1_id (props kB) = A
                ∧ player2_id (props kB) = Some B ∧ mirrors (Some B) kB r).
      { destruct HB as [(_ & Hn & _)|(kB & ? & ? & ? & ? & ? & ? & _)]; [|eauto 10].
        unfold TicTacToe.grid_rendered in Hgrid. rewrite Hs, Hn in Hgrid. done. }
      destruct Hp2 as [Hp2 HkB]. split_and!; try done.
      rewrite HuA. unfold TicTacToe.isPlayer1. rewrite HgA2.
      by rewrite bool_decide_eq_true_2.
    - destruct HB as [(Hn & _)|(kB & HcB & HgB1 & HgB2 & HgB3 & HmB & Hp2 & _)];
        [congruence|].
      rewrite HcB in Hcomp. injection Hcomp as ->. simpl in *.
      destruct HmB as (Hg & Hs & Hb & Ht).
      split_and!; try done.
      exists (TTT g s). by split_and!. }
  destruct Hshown as (Hg & Hs & Hb & Ht & Hgid & Hg1 & Hg2 & Hp2 & kB & HcB & HgB1 & HgB2
                      & HgB3 & HmB).
  pose proof (row_ok_ttt r Hok Hg) as Hrok.
  destruct (ttt_move_row_ok r g _ s _ i u Hrok Hs Hb Ht Hi Hclick) as [Hrok' Hst'];
    [congruence | intros Hn; rewrite Hp2; by apply Hg2 |].
  pose proof (ttt_move_facts r g _ s _ i u Hrok Hs Hb Ht Hi Hclick)
    as (_ & _ & _ & _ & Hu2 & Hgs & _).
  assert (Hstep : step (Click p i) w = tick (write rid u w)).
  { unfold step, do_click. rewrite Hcomp, Hgrid, Hclick, Hgid.
    by rewrite bool_decide_eq_true_2. }
  exists r. repeat (split; [done|]). rewrite Hstep.
  assert (Hboard : is_Some (board (game_state (apply_update u r))))
    by (simpl; rewrite Hgs; simpl; eauto).
  split.
  - rewrite (settle_write w rid u r kA kB) by done. simpl. by rewrite lookup_insert_eq.
  - apply (write_inv A B rid w u r kA kB); try done.
    + left. by split.
    + intros t. by apply (receive_mirrors_board _ _ r).
    + intros t. by apply (receive_mirrors_board _ _ r).
Qed.

Lemma click_inv (w : World) (p : side) (i : nat) :
  settled_inv A B rid w → settled_inv A B rid (settle (step (Click p i) w)).
Proof.
  intros Hinv.
  assert (Hquiet : step (Click p i) w = tick w →
                   settled_inv A B rid (settle (step (Click p i) w))).
  { intros ->. destruct Hinv. rewrite settle_quiet by done.
    apply settled_inv_tick. by econstructor. }
  destruct (comp (client p w)) as [[g s|g s]|] eqn:Hcomp;
    [| apply Hquiet; unfold step, do_click; by rewrite Hcomp.. ].
  destruct (TicTacToe.grid_rendered s) eqn:Hgrid;
    [| apply Hquiet; unfold step, do_click; by rewrite Hcomp, Hgrid ].
  destruct (decide (i ∈ TicTacToe.cells)) as [Hi|Hi];
    [| apply Hquiet; unfold step, do_click; rewrite Hcomp, Hgrid;
       by rewrite bool_decide_eq_false_2 ].
  destruct (TicTacToe.handleClick (user (client p w)) g (clock w) i s) as [u|] eqn:Hclick;
    [| apply Hquiet; unfold step, do_click; rewrite Hcomp, Hgrid, Hclick;
       by rewrite bool_decide_eq_true_2 ].
  by destruct (click_accepted w p i g s u Hinv Hcomp Hgrid Hi Hclick)
    as (r & _ & _ & _ & _ & _ & _ & _ & _ & _ & _ & H).
Qed.

End SettledClick.

(** ** A Rock-Paper-Scissors choice on the stored row *)

Lemma slot_empty (o : option string) :
  (∀ c, o = Some c → c ∈ RockPaperScissors.choices) → truthy o = false → o = None.
Proof.
  intros Hin Ht. destruct o as [c|]; [|done].
  by rewrite (choice_truthy c) in Ht by auto.
Qed.

Lemma rps_winner_open (r : GameRoom) :
  rps_row_ok r → status r ≠ "completed" → winner_id r = None.
Proof.
  intros [_ _ _ Hwon] Hst. destruct (winner_id r) as [x|] eqn:Hw; [|done].
  by destruct (Hwon x eq_refl).
Qed.

Lemma rps_move_row_ok (r g : GameRoom) (uid : string) (s s' : RockPaperScissors.State)
    (now : Z) (ch : string) (u : RoomUpdate) :
  rps_row_ok r →
  RockPaperScissors.st_gameState s = r →
  RockPaperScissors.st_myChoice s
  = (if RockPaperScissors.isPlayer1 (Some uid) g then player1Choice (game_state r)
     else player2Choice (game_state r)) →
  ch ∈ RockPaperScissors.choices →
  RockPaperScissors.makeChoice (Some uid) g now ch s = Some (s', u) →
  let r' := apply_update u r in
  RockPaperScissors.st_myChoice s' = Some ch
  ∧ RockPaperScissors.st_gameState s' = r
  ∧ u_player2_id u = None
  ∧ (if RockPaperScissors.isPlayer1 (Some uid) g
     then player1Choice (game_state r) = None
          ∧ player1Choice (game_state r') = Some ch
          ∧ player2Choice (game_state r') = player2Choice (game_state r)
     else player2Choice (game_state r) = None
          ∧ player2Choice (game_state r') = Some ch
          ∧ player1Choice (game_state r') = player1Choice (game_state r))
  ∧ rps_row_ok r'
  ∧ status r ≠ "completed"
  ∧ (status r' = status r ∨ status r' = "completed")
  ∧ (winner_id r' ≠ winner_id r →
     winner_id r = None ∧ status r' = "completed").
Proof.
  intros Hok Hs Hm Hch Hmk r'.
  pose proof Hok as [H1 H2 Hcomp Hwon].
  unfold RockPaperScissors.makeChoice in Hmk.
  destruct (negb _ || truthy (RockPaperScissors.st_myChoice s)) eqn:Hguard; [done|].
  apply orb_false_iff in Hguard as [_ Hmine].
  rewrite Hs in Hmk. rewrite Hm in Hmine.
  assert (Hopen : status r ≠ "completed").
  { intros Hc. destruct (Hcomp Hc) as [[c1 Hc1] [c2 Hc2]].
    destruct (RockPaperScissors.isPlayer1 (Some uid) g).
    - rewrite Hc1, (choice_truthy c1) in Hmine by auto. done.
    - rewrite Hc2, (choice_truthy c2) in Hmine by auto. done. }
  pose proof (rps_winner_open r Hok Hopen) as Hw0.
  destruct (RockPaperScissors.isPlayer1 (Some uid) g) eqn:Hfirst;
    (apply slot_empty in Hmine; [|done]);
    [ destruct (player2Choice (game_state r)) as [c|] eqn:E
    | destruct (player1Choice (game_state r)) as [c|] eqn:E ];
    rewrite ?(choice_truthy c) in Hmk by auto; simpl in Hmk;
    injection Hmk as <- <-; subst r'; simpl;
    (split_and!; try done; try (by left); try (by right); [idtac]);
    split; simpl; rewrite ?E, ?Hmine;
    first [ done
          | by intros ? [= <-]
          | by eauto
          | by (intros Hc; exfalso; apply Hopen)
          | by (intros x; rewrite Hw0)
          | intros x Hx; split; [done|]; intros Heq;
            rewrite bool_decide_eq_false_2 in Hx by (intros Hn; by apply Hn);
            simpl in Hx; congruence ].
Qed.

Section SettledChoose.
Variables A B rid : string.
Hypothesis HAB : A ≠ B.

Lemma creator_is_first (g : GameRoom) :
  player1_id g = A → RockPaperScissors.isPlayer1 (Some A) g = true.
Proof. intros <-. unfold RockPaperScissors.isPlayer1. by rewrite bool_decide_eq_true_2. Qed.

Lemma joiner_is_second (g : GameRoom) :
  player1_id g = A → RockPaperScissors.isPlayer1 (Some B) g = false.
Proof.
  intros <-. unfold RockPaperScissors.isPlayer1. rewrite bool_decide_eq_false_2; [done|].
  intros [= H]. by apply HAB.
Qed.

(** An accepted choice in a settled state. *)
Lemma choose_accepted (w : World) (p : side) (ch : string) (g : GameRoom)
    (s s' : RockPaperScissors.State) (u : RoomUpdate) :
  settled_inv A B rid w →
  comp (client p w) = Some (RPS g s) →
  RockPaperScissors.buttons_rendered s = true → ch ∈ RockPaperScissors.choices →
  RockPaperScissors.makeChoice (user (client p w)) g (clock w) ch s = Some (s', u) →
  ∃ r, db w !! rid = Some r
    ∧ rps_row_ok r ∧ RockPaperScissors.st_gameState s = r
    ∧ status r ≠ "completed"
    ∧ (winner_id (apply_update u r) ≠ winner_id r →
       winner_id r = None ∧ status (apply_update u r) = "completed")
    ∧ db (settle (step (Choose p ch) w)) !! rid = Some (apply_update u r)
    ∧ settled_inv A B rid (settle (step (Choose p ch) w)).
Proof.
  intros Hinv Hcomp Hbtn Hch Hmk.
  destruct Hinv as [r kA Hkeys Hrow Hp1 Hok HuA HiA HcA [HgA1 HgA2] HmA HaA HuB HiB HlB HB].
  assert (Hid : room_id r = rid) by (by apply Hkeys).
  assert (Hjoined : player2_id r = Some B ∧ ∃ kB, comp (joiner w) = Some kB
            ∧ room_id (props kB) = rid ∧ player1_id (props kB) = A
            ∧ player2_id (props kB) = Some B ∧ mirrors (Some B) kB r
            ∧ status r ≠ "waiting").
  { destruct HB as [(HcB & Hn & _)|(kB & ? & ? & ? & ? & ? & ? & ?)]; [|eauto 10].
    destruct p; simpl in Hcomp; [|congruence].
    rewrite HcA in Hcomp. injection Hcomp as ->. destruct HmA as (_ & Hs & _).
    unfold RockPaperScissors.buttons_rendered in Hbtn. rewrite Hs, Hn in Hbtn. done. }
  destruct Hjoined as (Hp2 & kB & HcB & HgB1 & HgB2 & HgB3 & HmB & Hnw).
  set (w1 := set_client p
               (mkClient (user (client p w)) (lobby (client p w)) (Some (RPS g s'))
                         (inbox (client p w))) w).
  assert (Hstep : step (Choose p ch) w = tick (write (room_id g) u w1)).
  { unfold step, do_choose. rewrite Hcomp, Hbtn, Hmk.
    by rewrite bool_decide_eq_true_2. }
  destruct p; simpl in Hcomp, Hmk, w1.
  - rewrite HcA in Hcomp. injection Hcomp as ->. simpl in *.
    destruct HmA as (Hg & Hs & Hm). rewrite HuA in Hmk.
    pose proof (row_ok_rps r Hok Hg) as Hrok.
    pose proof (creator_is_first g HgA2) as Hfirst.
    destruct (rps_move_row_ok r g A s s' _ ch u Hrok Hs Hm Hch Hmk)
      as (Hm' & Hs' & Hu2 & Hslots & Hrok' & Hopen & Hst' & Hwin).
    rewrite Hfirst in Hslots. destruct Hslots as (Hmine & Hmine' & Hother).
    exists r. split_and!; try done.
    + rewrite Hstep, HgA1.
      rewrite (settle_write w1 rid u r (RPS g s') kB) by done.
      simpl. by rewrite lookup_insert_eq.
    + rewrite Hstep, HgA1.
      apply (write_inv A B rid w1 u r (RPS g s') kB); try done.
      * right. by split.
      * destruct Hst' as [-> | ->]; done.
      * intros t. apply receive_mirrors_rps; [done|]. by rewrite Hfirst, Hm', Hmine'.
      * intros t. destruct kB as [gB sB|gB sB]; destruct HmB as (HgtB & HsB & HmB);
          [congruence|].
        apply receive_mirrors_rps; [done|]. simpl in HgB2.
        rewrite (joiner_is_second gB HgB2) in *. by rewrite HmB, Hother.
  - rewrite HcB in Hcomp. injection Hcomp as ->. simpl in *.
    destruct HmB as (Hg & Hs & Hm). rewrite HuB in Hmk.
    pose proof (row_ok_rps r Hok Hg) as Hrok.
    pose proof (joiner_is_second g HgB2) as Hsecond.
    destruct (rps_move_row_ok r g B s s' _ ch u Hrok Hs Hm Hch Hmk)
      as (Hm' & Hs' & Hu2 & Hslots & Hrok' & Hopen & Hst' & Hwin).
    rewrite Hsecond in Hslots. destruct Hslots as (Hmine & Hmine' & Hother).
    exists r. split_and!; try done.
    + rewrite Hstep, HgB1.
      rewrite (settle_write w1 rid u r kA (RPS g s')) by done.
      simpl. by rewrite lookup_insert_eq.
    + rewrite Hstep, HgB1.
      apply (write_inv A B rid w1 u r kA (RPS g s')); try done.
      * right. by split.
      * destruct Hst' as [-> | ->]; done.
      * intros t. destruct kA as [gA sA|gA sA]; destruct HmA as (HgtA & HsA & HmA);
          [congruence|].
        apply receive_mirrors_rps; [done|]. simpl in HgA2.
        rewrite (creator_is_first gA HgA2) in *. by rewrite HmA, Hother.
      * intros t. apply receive_mirrors_rps; [done|]. by rewrite Hsecond, Hm', Hmine'.
Qed.

Lemma choose_inv (w : World) (p : side) (ch : string) :
  settled_inv A B rid w → settled_inv A B rid (settle (step (Choose p ch) w)).
Proof.
  intros Hinv.
  assert (Hquiet : step (Choose p ch) w = tick w →
                   settled_inv A B rid (settle (step (Choose p ch) w))).
  { intros ->. destruct Hinv. rewrite settle_quiet by done.
    apply settled_inv_tick. by econstructor. }
  destruct (comp (client p w)) as [[g s|g s]|] eqn:Hcomp;
    [ apply Hquiet; unfold step, do_choose; by rewrite Hcomp | |
      apply Hquiet; unfold step, do_choose; by rewrite Hcomp ].
  destruct (RockPaperScissors.buttons_rendered s) eqn:Hbtn;
    [| apply Hquiet; unfold step, do_choose; by rewrite Hcomp, Hbtn ].
  destruct (decide (ch ∈ RockPaperScissors.choices)) as [Hch|Hch];
    [| apply Hquiet; unfold step, do_choose; rewrite Hcomp, Hbtn;
       by rewrite bool_decide_eq_false_2 ].
  destruct (RockPaperScissors.makeChoice (user (client p w)) g (clock w) ch s)
    as [[s' u]|] eqn:Hmk;
    [| apply Hquiet; unfold step, do_choose; rewrite Hcomp, Hbtn, Hmk;
       by rewrite bool_decide_eq_true_2 ].
  by destruct (choose_accepted w p ch g s s' u Hinv Hcomp Hbtn Hch Hmk)
    as (r & _ & _ & _ & _ & _ & _ & H).
Qed.

End SettledChoose.

(** ** Every settled run keeps the invariant *)

Section SettledRuns.
Variables A B rid : string.
Hypothesis HAB : A ≠ B.

Lemma deliver_quiet (w : World) (p : side) :
  settled_inv A B rid w → step (Deliver p) w = tick w.
Proof.
  intros [r kA ? ? ? ? ? HiA ? ? ? ? ? HiB ? ?]. unfold step, do_deliver.
  destruct p; simpl; by rewrite ?HiA, ?HiB.
Qed.

Lemma play_inv (w : World) (a : action) :
  settled_inv A B rid w → settled_inv A B rid (settle (step a w)).
Proof.
  intros Hinv. destruct a as [|p i|p ch|p].
  - by apply join_inv.
  - by apply click_inv.
  - by apply choose_inv.
  - rewrite (deliver_quiet w p Hinv). destruct Hinv.
    rewrite settle_quiet by done. apply settled_inv_tick. by econstructor.
Qed.

Lemma run_settled_inv (l : list action) (w : World) :
  settled_inv A B rid w → settled_inv A B rid (run_settled l w).
Proof.
  revert w. induction l as [|a l IH]; intros w Hinv; [done|].
  simpl. apply IH. by apply play_inv.
Qed.

Lemma reachable_inv (db0 : rooms) (tbl0 : stats_table) (gameType : string) (now : Z)
    (w : World) :
  gameType ∈ supported_game_types → db0 !! rid = None → keyed db0 →
  reachable db0 tbl0 A B gameType rid now w → settled_inv A B rid w.
Proof.
  intros Hgt Hfresh Hkeys [l ->]. apply run_settled_inv. by apply opened_inv.
Qed.

Lemma reachable_step (db0 : rooms) (tbl0 : stats_table) (gameType : string) (now : Z)
    (w : World) (a : action) :
  reachable db0 tbl0 A B gameType rid now w →
  reachable db0 tbl0 A B gameType rid now (settle (step a w)).
Proof.
  intros [l ->]. exists (l ++ [a])%list. unfold run_settled. by rewrite foldl_app.
Qed.

Lemma inv_user (w : World) (p : side) :
  settled_inv A B rid w → user (client p w) = Some (player A B p).
Proof. intros [r kA ? ? ? ? HuA ? ? ? ? ? HuB ? ? ?]. by destruct p. Qed.

Lemma ttt_isPlayer1 (g : GameRoom) (p : side) :
  player1_id g = A →
  TicTacToe.isPlayer1 (Some (player A B p)) g
  = match p with Creator => true | Joiner => false end.
Proof.
  intros <-. unfold TicTacToe.isPlayer1. destruct p; simpl.
  - by rewrite bool_decide_eq_true_2.
  - rewrite bool_decide_eq_false_2; [done|]. intros [= H]. by apply HAB.
Qed.

End SettledRuns.

(** ** Tic-Tac-Toe in settled runs *)

Lemma keyed_empty : keyed ∅.
Proof. intros k x H. by rewrite lookup_empty in H. Qed.

(** C4 (amended): in a settled run, where every move is made after the
    previous write has been delivered to both clients, the game starts
    from the empty board with "X" to move, and every accepted move is
    made on the stored board, writes the mover's mark into a cell that
    was empty and leaves every other cell as it was.  The mark of the
    move made on a board with [n] marks is "X" for even [n] (placed by
    the creator) and "O" for odd [n] (placed by the joiner); the board
    then has [n + 1] marks and the turn marker is the other symbol. *)
Theorem moves_alternate_on_empty_cells (db0 : rooms) (tbl0 : stats_table)
    (A B rid : string) (now : Z) :
  A ≠ B → db0 !! rid = None → keyed db0 →
  (∃ r0, db (opened db0 tbl0 A B "tic_tac_toe" rid now) !! rid = Some r0
     ∧ ttt_board r0 = replicate 9 CNull ∧ ttt_turn r0 = "X")
  ∧ ∀ (w : World) (p : side) (i : nat) (g : GameRoom) (s : TicTacToe.State)
      (u : RoomUpdate),
      reachable db0 tbl0 A B "tic_tac_toe" rid now w →
      comp (client p w) = Some (TTT g s) →
      TicTacToe.grid_rendered s = true → i ∈ TicTacToe.cells →
      TicTacToe.handleClick (user (client p w)) g (clock w) i s = Some u →
      ∃ r r',
        db w !! rid = Some r ∧ db (settle (step (Click p i) w)) !! rid = Some r'
        ∧ TicTacToe.st_board s = ttt_board r
        ∧ ttt_board r !! i = Some CNull
        ∧ (let n := count_marks (ttt_board r) in
           let m := if Nat.even n then "X" else "O" in
           ttt_turn r = m
           ∧ p = (if Nat.even n then Creator else Joiner)
           ∧ ttt_board r' = <[i := CStr m]> (ttt_board r)
           ∧ count_marks (ttt_board r') = S n
           ∧ ttt_turn r' = if Nat.even n then "O" else "X").
Proof.
  intros HAB Hfresh Hkeys.
  assert (Hgt : "tic_tac_toe" ∈ supported_game_types)
    by (unfold supported_game_types; apply elem_of_cons; by left).
  split.
  - unfold opened, create_world, Games.createRoom, db_insert.
    rewrite decide_True by done. simpl.
    unfold settle, deliver_all, step, tick, do_deliver; simpl.
    eexists. rewrite lookup_insert_eq. done.
  - intros w p i g s u Hreach Hcomp Hgrid Hi Hclick.
    pose proof (reachable_inv A B rid HAB db0 tbl0 _ now w Hgt Hfresh Hkeys Hreach) as Hinv.
    destruct (click_accepted A B rid w p i g s u Hinv Hcomp Hgrid Hi Hclick)
      as (r & Hrow & Hrok & Hp1 & Hp2 & Hs & Hb & Ht & Hg1 & Hg2 & Hrow' & _).
    pose proof (ttt_move_facts r g _ s _ i u Hrok Hs Hb Ht Hi Hclick)
      as (Hst & HX & HO & Hempty & Hu2 & Hgs & Hcount & Hout).
    rewrite (inv_user A B rid w p Hinv), (ttt_isPlayer1 A B HAB g p Hg1) in HX, HO.
    pose proof (turn_parity r Hrok) as Hpar.
    assert (Hnb : ttt_board (apply_update u r)
                  = <[i := CStr (ttt_turn r)]> (ttt_board r))
      by (unfold ttt_board at 1; simpl; by rewrite Hgs).
    exists r, (apply_update u r). split_and!; try done.
    cbv zeta. rewrite Hnb. split_and!; try done.
    + destruct (Nat.even (count_marks (ttt_board r))), p; try done.
      * by specialize (HX Hpar).
      * by specialize (HO Hpar).
    + by rewrite Hpar.
    + unfold ttt_turn. simpl. rewrite Hgs. simpl. rewrite Hpar.
      by destruct (Nat.even (count_marks (ttt_board r))).
Qed.

(** ** The winner column in settled runs *)

Section Winner.
Variables A B rid : string.
Hypothesis HAB : A ≠ B.

Lemma join_effect (w : World) :
  settled_inv A B rid w →
  ∃ r, db w !! rid = Some r
    ∧ (db (settle (step Join w)) !! rid = Some r
       ∨ db (settle (step Join w)) !! rid = Some (apply_update (Games.join_update B) r)).
Proof.
  intros Hinv.
  destruct Hinv as [r kA Hkeys Hrow Hp1 Hok HuA HiA HcA [HgA1 HgA2] HmA HaA HuB HiB HlB HB].
  exists r. split; [done|].
  assert (Hquiet : step Join w = tick w → db (settle (step Join w)) !! rid = Some r).
  { intros ->. by rewrite settle_quiet. }
  assert (Hmine : ∀ mine, Games.activeGame (lobby (creator w)) = Some mine →
                          room_id mine = rid) by (intros mine; rewrite HaA; congruence).
  destruct (find (λ x, bool_decide (room_id x = rid))
              (Games.availableRooms (lobby (joiner w)))) as [room|] eqn:Hfind;
    [|left; apply Hquiet, join_noop; intros mine Hm; left; by rewrite (Hmine _ Hm)].
  destruct (Games.lobby_rendered (lobby (joiner w))) eqn:Hlr;
    [|left; apply Hquiet, join_noop; intros mine Hm; by right].
  rewrite HlB in Hfind.
  pose proof Hfind as Hlisted.
  apply (listed_room_is_stored rid) with (r := r) in Hlisted as (-> & Hp2 & Hst); [|done..].
  rewrite <- HlB in Hfind.
  destruct HB as [(HcB & _ & _ & Hw)|(kB & _ & _ & _ & _ & _ & Hp2' & _)]; [|congruence].
  assert (Hid : room_id r = rid) by (by apply Hkeys).
  right. rewrite (settle_join w B rid r (props kA) kA) by (done || congruence).
  simpl. by rewrite lookup_insert_eq.
Qed.

(** What one action of a settled run does to the winner column. *)
Lemma step_winner (w : World) (a : action) :
  settled_inv A B rid w →
  ∃ r r', db w !! rid = Some r ∧ db (settle (step a w)) !! rid = Some r'
    ∧ (winner_id r' ≠ winner_id r →
       winner_id r = None ∧ status r ≠ "completed" ∧ status r' = "completed").
Proof.
  intros Hinv.
  assert (Hquiet : step a w = tick w →
    ∃ r r', db w !! rid = Some r ∧ db (settle (step a w)) !! rid = Some r'
      ∧ (winner_id r' ≠ winner_id r →
         winner_id r = None ∧ status r ≠ "completed" ∧ status r' = "completed")).
  { intros ->. destruct Hinv as [r kA ? Hrow ? ? ? HiA ? ? ? ? ? HiB ? ?].
    rewrite settle_quiet by done. exists r, r. by split_and!. }
  destruct a as [|p i|p ch|p].
  - destruct (join_effect w Hinv) as (r & Hrow & [Hr'|Hr']).
    + exists r, r. by split_and!.
    + exists r, (apply_update (Games.join_update B) r). by split_and!.
  - destruct (comp (client p w)) as [[g s|g s]|] eqn:Hcomp;
      [| apply Hquiet; unfold step, do_click; by rewrite Hcomp.. ].
    destruct (TicTacToe.grid_rendered s) eqn:Hgrid;
      [| apply Hquiet; unfold step, do_click; by rewrite Hcomp, Hgrid ].
    destruct (decide (i ∈ TicTacToe.cells)) as [Hi|Hi];
      [| apply Hquiet; unfold step, do_click; rewrite Hcomp, Hgrid;
         by rewrite bool_decide_eq_false_2 ].
    destruct (TicTacToe.handleClick (user (client p w)) g (clock w) i s)
      as [u|] eqn:Hclick;
      [| apply Hquiet; unfold step, do_click; rewrite Hcomp, Hgrid, Hclick;
         by rewrite bool_decide_eq_true_2 ].
    destruct (click_accepted A B rid w p i g s u Hinv Hcomp Hgrid Hi Hclick)
      as (r & Hrow & Hrok & Hp1 & Hp2 & Hs & Hb & Ht & Hg1 & Hg2 & Hrow' & _).
    pose proof (ttt_move_facts r g _ s _ i u Hrok Hs Hb Ht Hi Hclick)
      as (Hst & _ & _ & _ & _ & _ & _ & Hout).
    assert (Hw0 : winner_id r = None).
    { destruct (winner_id r) as [x|] eqn:Hw; [|done].
      destruct (won_board r Hrok x Hw) as [Hc _]. congruence. }
    exists r, (apply_update u r). split_and!; try done.
    intros Hne. split; [done|]. split; [by rewrite Hst|].
    destruct (TicTacToe.checkWinner _) as [sym|].
    + destruct Hout as (_ & Hstu & _). simpl. by rewrite Hstu.
    + exfalso. apply Hne. simpl.
      destruct (forallb _ _); destruct Hout as (_ & -> & _); done.
  - destruct (comp (client p w)) as [[g s|g s]|] eqn:Hcomp;
      [ apply Hquiet; unfold step, do_choose; by rewrite Hcomp | |
        apply Hquiet; unfold step, do_choose; by rewrite Hcomp ].
    destruct (RockPaperScissors.buttons_rendered s) eqn:Hbtn;
      [| apply Hquiet; unfold step, do_choose; by rewrite Hcomp, Hbtn ].
    destruct (decide (ch ∈ RockPaperScissors.choices)) as [Hch|Hch];
      [| apply Hquiet; unfold step, do_choose; rewrite Hcomp, Hbtn;
         by rewrite bool_decide_eq_false_2 ].
    destruct (RockPaperScissors.makeChoice (user (client p w)) g (clock w) ch s)
      as [[s' u]|] eqn:Hmk;
      [| apply Hquiet; unfold step, do_choose; rewrite Hcomp, Hbtn, Hmk;
         by rewrite bool_decide_eq_true_2 ].
    destruct (choose_accepted A B rid HAB w p ch g s s' u Hinv Hcomp Hbtn Hch Hmk)
      as (r & Hrow & Hrok & Hs & Hopen & Hwin & Hrow' & _).
    exists r, (apply_update u r). split_and!; try done.
    intros Hne. destruct (Hwin Hne). done.
  - apply Hquiet. by apply (deliver_quiet A B rid).
Qed.

Lemma winner_decisive (w : World) (r : GameRoom) :
  settled_inv A B rid w → db w !! rid = Some r → winner_id r ≠ None →
  status r = "completed" ∧ decisive r.
Proof.
  intros Hinv Hr Hw. destruct Hinv as [r0 kA ? Hrow ? Hok ? ? ? ? ? ? ? ? ? ?].
  assert (r0 = r) as -> by congruence.
  destruct (winner_id r) as [x|] eqn:Hx; [|done].
  destruct Hok as [[Hg Hrok]|[Hg Hrok]].
  - destruct (won_board r Hrok x Hx) as (Hst & sym & Hcw & _).
    split; [done|]. left. split; [done|]. exists sym. by apply line_of_checkWinner.
  - destruct (rps_won r Hrok x Hx) as (Hst & Hne).
    destruct (rps_completed r Hrok Hst) as [H1 H2].
    split; [done|]. right. by split_and!.
Qed.

End Winner.

(** C6 (amended): in every state of a settled run, where every write
    is delivered to both clients before the next operation (join, move
    or choice, started from the state after room creation): the stored
    winner is non-null only if the row is completed and its payload
    shows a decisive outcome (a line of three equal symbols, or two
    different choices); and an operation changes the winner column only
    from null, on a row not yet completed that it completes. *)
Theorem winner_only_on_decisive_completion (db0 : rooms) (tbl0 : stats_table)
    (A B gameType rid : string) (now : Z) (w : World) (a : action) :
  A ≠ B → gameType ∈ supported_game_types → db0 !! rid = None → keyed db0 →
  reachable db0 tbl0 A B gameType rid now w →
  ∃ r r',
    db w !! rid = Some r ∧ db (settle (step a w)) !! rid = Some r'
    ∧ (winner_id r ≠ None → status r = "completed" ∧ decisive r)
    ∧ (winner_id r' ≠ winner_id r →
       winner_id r = None ∧ status r ≠ "completed"
       ∧ status r' = "completed" ∧ decisive r').
Proof.
  intros HAB Hgt Hfresh Hkeys Hreach.
  pose proof (reachable_inv A B rid HAB db0 tbl0 _ now w Hgt Hfresh Hkeys Hreach) as Hinv.
  pose proof (reachable_step A B rid db0 tbl0 _ now w a Hreach) as Hreach'.
  pose proof (reachable_inv A B rid HAB db0 tbl0 _ now _ Hgt Hfresh Hkeys Hreach') as Hinv'.
  destruct (step_winner A B rid HAB w a Hinv) as (r & r' & Hr & Hr' & Hstep).
  exists r, r'. split_and!; try done.
  - intros Hw. by apply (winner_decisive A B rid w).
  - intros Hne. destruct (Hstep Hne) as (Hw0 & Hst & Hst'). split_and!; try done.
    apply (winner_decisive A B rid _ r' Hinv' Hr'). congruence.
Qed.

(** ** The theorems of settled runs at ann's winning move *)

Lemma before_win_reachable :
  reachable ∅ ∅ "ann" "bob" "tic_tac_toe" "r1" 100 (run_settled before_win ttt_opened).
Proof. by exists before_win. Qed.

Lemma moves_alternate_on_empty_cells_witness :
  let w := run_settled before_win ttt_opened in
  "ann" ≠ "bob" ∧ (∅ : rooms) !! "r1" = None
  ∧ ∃ g s u,
      comp (client Creator w) = Some (TTT g s)
      ∧ TicTacToe.grid_rendered s = true ∧ 2%nat ∈ TicTacToe.cells
      ∧ TicTacToe.handleClick (user (client Creator w)) g (clock w) 2 s = Some u
      ∧ ∃ r r',
          db w !! "r1" = Some r
          ∧ db (settle (step (Click Creator 2) w)) !! "r1" = Some r'
          ∧ TicTacToe.st_board s = ttt_board r
          ∧ ttt_board r !! 2%nat = Some CNull
          ∧ (let n := count_marks (ttt_board r) in
             let m := if Nat.even n then "X" else "O" in
             ttt_turn r = m
             ∧ Creator = (if Nat.even n then Creator else Joiner)
             ∧ ttt_board r' = <[2%nat := CStr m]> (ttt_board r)
             ∧ count_marks (ttt_board r') = S n
             ∧ ttt_turn r' = if Nat.even n then "O" else "X").
Proof.
  intros w. split; [done|]. split; [done|].
  eexists _, _, _.
  split; [vm_compute; reflexivity|].
  split; [vm_compute; reflexivity|].
  split; [unfold TicTacToe.cells; set_solver|].
  split; [vm_compute; reflexivity|].
  assert (H1 : "ann" ≠ "bob") by done.
  eapply (proj2 (moves_alternate_on_empty_cells ∅ ∅ "ann" "bob" "r1" 100 H1
                   (lookup_empty "r1") keyed_empty) w Creator 2%nat);
    [ apply before_win_reachable
    | vm_compute; reflexivity | vm_compute; reflexivity
    | unfold TicTacToe.cells; set_solver | vm_compute; reflexivity ].
Defined.

Lemma winner_only_on_decisive_completion_witness :
  let w := run_settled before_win ttt_opened in
  "ann" ≠ "bob" ∧ "tic_tac_toe" ∈ supported_game_types ∧ (∅ : rooms) !! "r1" = None
  ∧ ∃ r r',
      db w !! "r1" = Some r ∧ db (settle (step (Click Creator 2) w)) !! "r1" = Some r'
      ∧ (winner_id r ≠ None → status r = "completed" ∧ decisive r)
      ∧ (winner_id r' ≠ winner_id r →
         winner_id r = None ∧ status r ≠ "completed"
         ∧ status r' = "completed" ∧ decisive r').
Proof.
  intros w.
  assert (H1 : "ann" ≠ "bob") by done.
  assert (H2 : "tic_tac_toe" ∈ supported_game_types)
    by (unfold supported_game_types; set_solver).
  split; [done|]. split; [done|]. split; [done|].
  exact (winner_only_on_decisive_completion ∅ ∅ "ann" "bob" "tic_tac_toe" "r1" 100 w
           (Click Creator 2) H1 H2 (lookup_empty "r1") keyed_empty before_win_reachable).
Defined.

(** ** Arbitrary schedules of a Tic-Tac-Toe room *)

Lemma payloads_app (l1 l2 : list notification) :
  payloads (l1 ++ l2) = (payloads l1 ++ payloads l2)%list.
Proof. apply omap_app. Qed.

Lemma mono_last (l : list GameRoom) (x r : GameRoom) :
  mono l → x ∈ l → last l = Some r → status x = "completed" → status r = "completed".
Proof.
  induction l as [|y l IH]; intros Hm Hx Hl Hc; [by apply elem_of_nil in Hx|].
  destruct Hm as [Hy Hm]. destruct l as [|z l].
  - simpl in Hl. injection Hl as <-. apply list_elem_of_singleton in Hx. by subst.
  - rewrite last_cons_cons in Hl. apply elem_of_cons in Hx as [->|Hx].
    + specialize (Hy Hc). rewrite Forall_forall in Hy. apply Hy.
      by apply last_Some_elem_of.
    + by apply IH.
Qed.

Lemma mono_snoc (l : list GameRoom) (r r' : GameRoom) :
  mono l → last l = Some r → (status r = "completed" → status r' = "completed") →
  mono (l ++ [r']).
Proof.
  induction l as [|y l IH]; intros Hm Hl Hc; [done|].
  pose proof Hm as [Hy Hm']. simpl. split.
  - intros Hyc. apply Forall_app. split; [by apply Hy|].
    apply Forall_singleton, Hc.
    apply (mono_last (y :: l) y r); [done | by left | done | done].
  - destruct l as [|z l]; [simpl; split; [by constructor | done]|].
    apply IH; [done | by rewrite last_cons_cons in Hl | done].
Qed.

(** The copy, the board and the turn marker after the callback. *)
Lemma on_update_view (u : option string) (P : GameRoom) (s : TicTacToe.State)
    (t : stats_table) :
  let s' := (TicTacToe.on_update u P s t).1 in
  TicTacToe.st_gameState s' = P
  ∧ TicTacToe.st_board s'
    = match board (game_state P) with Some b => b | None => TicTacToe.st_board s end
  ∧ TicTacToe.st_currentTurn s'
    = match board (game_state P) with
      | Some _ => or_else (currentTurn (game_state P)) "X"
      | None => TicTacToe.st_currentTurn s
      end.
Proof.
  unfold TicTacToe.on_update.
  destruct (board (game_state P)); destruct (truthy (winner_id P)); done.
Qed.

(** Delivery of the first queued row. *)
Lemma behind_deliver (u : option string) (P : GameRoom) (s : TicTacToe.State)
    (t : stats_table) (queue : list notification) (r : GameRoom) :
  behind s (RoomChanged P :: queue) r →
  behind (TicTacToe.on_update u P s t).1 queue r.
Proof.
  intros [Hrows Hmono Hlast Hlen Hturn Hopen]. simpl in *.
  destruct (on_update_view u P s t) as (Hg & Hb & Ht).
  apply Forall_cons in Hrows as [Hc0 Hrows].
  pose proof Hrows as HP. apply Forall_cons in HP as [HP _].
  destruct Hmono as [Hc Hmono].
  split.
  - by rewrite Hg.
  - by rewrite Hg.
  - rewrite Hg. try rewrite last_cons_cons in Hlast. done.
  - rewrite Hb. destruct HP as [Hl _ _ _]. unfold ttt_board in Hl.
    by destruct (board (game_state P)).
  - rewrite Ht. destruct HP as [_ Htr _ _]. unfold ttt_turn in Htr.
    by destruct (board (game_state P)).
  - rewrite Hg, Hb. intros Hst. destruct HP as [_ _ Ho _]. specialize (Ho Hst).
    unfold ttt_board in Ho. destruct (board (game_state P)); [done|].
    apply Hopen. intros Hc0c. apply Hst. specialize (Hc Hc0c).
    by apply Forall_cons in Hc as [? _].
Qed.

Lemma behind_skip (s : TicTacToe.State) (queue : list notification) (r : GameRoom) :
  behind s (LobbyChange :: queue) r → behind s queue r.
Proof. intros [? ? ? ? ? ?]. by split. Qed.

(** A written row joins the queue. *)
Lemma behind_push (s : TicTacToe.State) (queue : list notification) (r r' : GameRoom) :
  behind s queue r → ttt_row_wf r' →
  (status r = "completed" → status r' = "completed") →
  behind s (queue ++ [LobbyChange; RoomChanged r']) r'.
Proof.
  intros [Hrows Hmono Hlast Hlen Hturn Hopen] Hwf Hc.
  split; try done; rewrite payloads_app;
    change (payloads [LobbyChange; RoomChanged r']) with [r']; rewrite app_comm_cons.
  - apply Forall_app. split; [done|]. by apply Forall_singleton.
  - by apply (mono_snoc _ r).
  - by rewrite last_snoc.
Qed.

(** A write to a room both components are mounted on. *)
Lemma write_both (w : World) (rid : string) (u : RoomUpdate) (r : GameRoom)
    (kA kB : component) :
  db w !! rid = Some r → room_id r = rid →
  comp (creator w) = Some kA → room_id (props kA) = rid →
  comp (joiner w) = Some kB → room_id (props kB) = rid →
  write rid u w
  = let r' := apply_update u r in
    mkWorld (<[rid := r']> (db w)) (tbl w)
      (push [LobbyChange; RoomChanged r'] (creator w))
      (push [LobbyChange; RoomChanged r'] (joiner w)) (clock w).
Proof.
  destruct w as [d t [uA lA cA iA] [uB lB cB iB] clk]. simpl.
  intros Hr Hid -> HkA -> HkB.
  unfold write, db_update. simpl. rewrite Hr. simpl.
  unfold announce, subscribed. simpl.
  by rewrite !bool_decide_eq_true_2 by (by rewrite ?HkA, ?HkB, ?Hid).
Qed.

(** The row a move writes, whatever row it replaces. *)
Lemma move_row_wf (r g : GameRoom) (usr : option string) (s : TicTacToe.State)
    (now : Z) (i : nat) (u : RoomUpdate) :
  ttt_row_wf r →
  length (TicTacToe.st_board s) = 9%nat →
  i ∈ TicTacToe.cells →
  TicTacToe.handleClick usr g now i s = Some u →
  ttt_row_wf (apply_update u r)
  ∧ (status r = "completed" → status (apply_update u r) = "completed")
  ∧ player2_id (apply_update u r) = player2_id r.
Proof.
  intros [Hl Ht Ho Hw] Hlen Hi Hclick.
  apply handleClick_Some in Hclick as (_ & _ & _ & _ & _ & Hu2 & Hgs & Hout).
  apply cells_below_nine in Hi.
  set (nb := js_set (TicTacToe.st_board s) i (CStr (TicTacToe.st_currentTurn s))) in *.
  assert (Hnb : ttt_board (apply_update u r) = nb)
    by (unfold ttt_board; simpl; by rewrite Hgs).
  split; [split|split].
  - rewrite Hnb. unfold nb. rewrite js_set_in_range by lia. by rewrite length_insert.
  - unfold ttt_turn. simpl. rewrite Hgs. simpl.
    destruct (bool_decide (TicTacToe.st_currentTurn s = "X")); simpl; auto.
  - rewrite Hnb. simpl. intros Hst.
    destruct (TicTacToe.checkWinner nb) as [sym|]; [|done].
    destruct Hout as (Hstu & _). by rewrite Hstu in Hst.
  - simpl. intros Hst.
    destruct (TicTacToe.checkWinner nb) as [sym|].
    + destruct Hout as (Hstu & _). by rewrite Hstu in Hst.
    + destruct (forallb _ nb).
      * destruct Hout as (Hstu & _). by rewrite Hstu in Hst.
      * destruct Hout as (Hstu & Hwu & _). rewrite Hstu in Hst. rewrite Hwu. simpl in *.
        by apply Hw.
  - simpl. intros Hst.
    destruct (TicTacToe.checkWinner nb) as [sym|].
    + by destruct Hout as (-> & _).
    + destruct (forallb _ nb); destruct Hout as (-> & _); done.
  - simpl. by rewrite Hu2.
Qed.

Lemma ttt_row_ok_wf (r : GameRoom) : ttt_row_ok r → ttt_row_wf r.
Proof.
  intros Hok. split.
  - apply (board_length r Hok).
  - by apply turn_is_symbol.
  - apply (open_board r Hok).
  - intros Hst. destruct (winner_id r) as [x|] eqn:Hw; [|done].
    by destruct (won_board r Hok x Hw) as [Hc _].
Qed.

(** The join of a listed room whose stored row is free, whatever is
    queued. *)
Lemma do_join_free (w : World) (B rid : string) (r mine : GameRoom) (kA : component) :
  Games.activeGame (lobby (creator w)) = Some mine → room_id mine = rid →
  find (λ x, bool_decide (room_id x = rid)) (Games.availableRooms (lobby (joiner w)))
  = Some r →
  Games.lobby_rendered (lobby (joiner w)) = true →
  user (joiner w) = Some B → player1_id r ≠ B →
  db w !! rid = Some r → room_id r = rid → player2_id r = None →
  comp (creator w) = Some kA → room_id (props kA) = rid →
  comp (joiner w) = None →
  do_join w
  = let r' := apply_update (Games.join_update B) r in
    let g' := Games.setIsJoining None
                (Games.setActive (Some r') (Some (game_type r)) (lobby (joiner w))) in
    mkWorld (<[rid := r']> (db w)) (tbl w)
      (push [LobbyChange; RoomChanged r'] (creator w))
      (mkClient (Some B) g' (render (Some B) g') (inbox (joiner w) ++ [LobbyChange]))
      (clock w).
Proof.
  destruct w as [d t [uA lA cA iA] [uB lB cB iB] clk]. simpl.
  intros Hmine Hidm Hfind Hlobby -> Hne Hr Hid Hp2 -> HkA ->.
  unfold do_join. simpl. rewrite Hmine, Hidm, Hfind, Hlobby. simpl.
  rewrite (bool_decide_eq_false_2 (Some (player1_id r) = Some B)) by congruence. simpl.
  rewrite (joinRoom_free d lB B r r); [| done | by rewrite Hp2 | by rewrite Hid | done ].
  rewrite Hid. simpl. unfold announce, subscribed. simpl.
  by rewrite bool_decide_eq_true_2 by (by rewrite HkA, Hid).
Qed.

Section Playing.
Variables A B rid : string.
Hypothesis HAB : A ≠ B.

Lemma ttt_inv_tick (w : World) : ttt_inv A B rid w → ttt_inv A B rid (tick w).
Proof. intros [r gA sA]. by econstructor. Qed.

(** The invariant of settled runs gives the one of arbitrary schedules
    while the room waits for its second player. *)
Lemma waiting_ttt_inv (w : World) (r : GameRoom) :
  settled_inv A B rid w → db w !! rid = Some r →
  game_type r = "tic_tac_toe" → status r = "waiting" →
  ttt_inv A B rid w.
Proof.
  intros [r0 kA Hkeys Hrow Hp1 Hok HuA HiA HcA [HgA1 HgA2] HmA HaA HuB HiB HlB HB] Hr Hgt Hst.
  assert (r0 = r) as -> by congruence.
  destruct Hok as [[_ Hok]|[Hg _]]; [|congruence].
  destruct kA as [gA sA|gA sA]; [|destruct HmA as (Hg & _); congruence].
  destruct HmA as (_ & Hs & Hb & Ht). simpl in *.
  pose proof (ttt_row_ok_wf r Hok) as Hwf.
  eapply (TttInv A B rid w r gA sA); try done.
  - rewrite HiA. split; simpl; rewrite ?Hs, ?Hb, ?Ht; try done.
    + by apply Forall_singleton.
    + apply (wf_length r Hwf).
    + apply (wf_turn r Hwf).
    + apply (wf_open r Hwf).
  - left. destruct HB as [(HcB & Hp2 & _ & _)|(kB & _ & _ & _ & _ & _ & _ & Hne)];
      [|congruence].
    rewrite HiA, HiB. done.
Qed.

(** An accepted click is made in the playing phase. *)
Lemma click_in_play (w : World) (p : side) (i : nat) (g : GameRoom)
    (s : TicTacToe.State) (u : RoomUpdate) :
  ttt_inv A B rid w →
  comp (client p w) = Some (TTT g s) →
  TicTacToe.handleClick (user (client p w)) g (clock w) i s = Some u →
  ∃ r gA sA gB sB,
    db w !! rid = Some r ∧ keyed (db w) ∧ player1_id r = A ∧ player2_id r = Some B
    ∧ comp (creator w) = Some (TTT gA sA) ∧ comp (joiner w) = Some (TTT gB sB)
    ∧ room_id gA = rid ∧ room_id gB = rid
    ∧ room_id g = rid ∧ player1_id g = A ∧ (p = Joiner → player2_id g = Some B)
    ∧ user (client p w) = Some (player A B p)
    ∧ behind s (inbox (client p w)) r
    ∧ behind sA (inbox (creator w)) r ∧ behind sB (inbox (joiner w)) r.
Proof.
  intros [r gA sA Hkeys Hrow Hp1 HuA HcA [HgA1 HgA2] HaA HvA HuB HB] Hcomp Hclick.
  apply handleClick_Some in Hclick as (_ & _ & Hst & _).
  destruct HB as [(HcB & Hp2 & Hw & _ & HqA & _)|(gB & sB & HcB & HgB1 & HgB2 & HgB3 & HvB & Hp2 & _)].
  - exfalso. destruct p; simpl in Hcomp; [|congruence].
    rewrite HcA in Hcomp. injection Hcomp as <- <-.
    destruct HvA as [_ _ Hlast _ _ _]. rewrite HqA in Hlast. simpl in Hlast.
    injection Hlast as Hlast. rewrite Hlast in Hst. congruence.
  - exists r, gA, sA, gB, sB.
    destruct p; simpl in *.
    + rewrite HcA in Hcomp. injection Hcomp as <- <-. by split_and!.
    + rewrite HcB in Hcomp. injection Hcomp as <- <-. by split_and!.
Qed.

Lemma click_ttt_inv (w : World) (p : side) (i : nat) :
  ttt_inv A B rid w → ttt_inv A B rid (do_click p i w).
Proof.
  intros Hinv. unfold do_click.
  destruct (comp (client p w)) as [[g s|g s]|] eqn:Hcomp; try done.
  destruct (TicTacToe.grid_rendered s && bool_decide (i ∈ TicTacToe.cells)) eqn:Hok;
    [|done].
  apply andb_true_iff in Hok as [_ Hi]. apply bool_decide_eq_true in Hi.
  destruct (TicTacToe.handleClick _ g (clock w) i s) as [u|] eqn:Hclick; [|done].
  destruct (click_in_play w p i g s u Hinv Hcomp Hclick)
    as (r & gA & sA & gB & sB & Hrow & Hkeys & Hp1 & Hp2 & HcA & HcB & HgA & HgB
        & Hg & _ & _ & _ & Hv & HvA & HvB).
  destruct Hinv as [r0 gA0 sA0 _ Hrow0 _ HuA HcA0 [_ HgA2] HaA _ HuB HB].
  assert (gA0 = gA) as -> by congruence.
  assert (Hwf : ttt_row_wf r).
  { destruct HvA as [Hrows _ Hlast _ _ _]. rewrite Forall_forall in Hrows.
    by apply Hrows, last_Some_elem_of. }
  destruct (move_row_wf r g _ s _ i u Hwf (bh_length _ _ _ Hv) Hi Hclick)
    as (Hwf' & Hc' & Hp2').
  assert (Hid : room_id r = rid) by (by apply Hkeys).
  rewrite Hg. rewrite (write_both w rid u r (TTT gA sA) (TTT gB sB)) by done.
  set (r' := apply_update u r) in *. simpl.
  eapply (TttInv A B rid _ r' gA sA); simpl; try done.
  - intros k x. destruct (decide (k = rid)) as [->|Hne].
    + rewrite lookup_insert_eq. by intros [= <-].
    + rewrite lookup_insert_ne by done. apply Hkeys.
  - by rewrite lookup_insert_eq.
  - by apply (behind_push _ _ r).
  - right. exists gB, sB.
    destruct HB as [(HcB0 & _)|(gB0 & sB0 & HcB0 & HgB1 & HgB2 & HgB3 & _ & _ & Hlr)];
      [congruence|].
    assert (gB0 = gB) as -> by congruence.
    split_and!; try done.
    + by apply (behind_push _ _ r).
    + change (player2_id r' = Some B). congruence.
Qed.

Lemma choose_ttt_inv (w : World) (p : side) (ch : string) :
  ttt_inv A B rid w → do_choose p ch w = w.
Proof.
  intros [r gA sA Hkeys Hrow Hp1 HuA HcA HgA HaA HvA HuB HB]. unfold do_choose.
  destruct p; simpl.
  - by rewrite HcA.
  - destruct HB as [(-> & _)|(gB & sB & -> & _)]; done.
Qed.

Lemma deliver_ttt_inv (w : World) (p : side) :
  ttt_inv A B rid w → ttt_inv A B rid (do_deliver p w).
Proof.
  intros [r gA sA Hkeys Hrow Hp1 HuA HcA HgA HaA HvA HuB HB]. unfold do_deliver.
  destruct p; simpl.
  - destruct (inbox (creator w)) as [|[|P] rest] eqn:Hq.
    + econstructor; rewrite ?Hq; done.
    + eapply (TttInv A B rid _ r gA sA); simpl; try done.
      by apply behind_skip.
    + rewrite HcA. simpl.
      destruct (TicTacToe.on_update (user (creator w)) P sA (tbl w)) as [s' t'] eqn:Hup.
      simpl.
      assert (Hs' : s' = (TicTacToe.on_update (user (creator w)) P sA (tbl w)).1)
        by (by rewrite Hup).
      eapply (TttInv A B rid _ r gA s'); simpl; try done.
      * rewrite Hs'. by apply behind_deliver.
      * destruct HB as [(? & ? & ? & ? & HqA & ? & ?)|HB]; [done|by right].
  - destruct (inbox (joiner w)) as [|[|P] rest] eqn:Hq.
    + econstructor; rewrite ?Hq; done.
    + eapply (TttInv A B rid _ r gA sA); simpl; try done.
      destruct HB as [(? & ? & ? & ? & ? & ? & ?)|(gB & sB & ? & ? & ? & ? & HvB & ? & Hlr)];
        [left; by split_and!|right].
      exists gB, sB. split_and!; try done. by apply behind_skip.
    + destruct HB as [(? & ? & ? & ? & ? & HqB & ?)|(gB & sB & HcB & ? & ? & ? & HvB & ? & Hlr)];
        [done|].
      rewrite HcB. simpl.
      destruct (TicTacToe.on_update (user (joiner w)) P sB (tbl w)) as [s' t'] eqn:Hup.
      simpl.
      assert (Hs' : s' = (TicTacToe.on_update (user (joiner w)) P sB (tbl w)).1)
        by (by rewrite Hup).
      eapply (TttInv A B rid _ r gA sA); simpl; try done.
      right. exists gB, s'. split_and!; try done.
      rewrite Hs'. by apply behind_deliver.
Qed.

Lemma join_ttt_inv (w : World) : ttt_inv A B rid w → ttt_inv A B rid (do_join w).
Proof.
  intros Hinv. pose proof Hinv as Hinv0.
  destruct Hinv as [r gA sA Hkeys Hrow Hp1 HuA HcA [HgA1 HgA2] HaA HvA HuB HB].
  assert (Hsame : do_join w = w → ttt_inv A B rid (do_join w)) by (by intros ->).
  destruct HB as [(HcB & Hp2 & Hst & Hgt & HqA & HqB & Hlist)
                 |(gB & sB & HcB & HgB1 & HgB2 & HgB3 & HvB & Hp2 & Hlr)].
  - destruct (find (λ x, bool_decide (room_id x = rid))
                (Games.availableRooms (lobby (joiner w)))) as [room|] eqn:Hfind;
      [|apply Hsame; unfold do_join; by rewrite HaA, HgA1, Hfind].
    destruct (Games.lobby_rendered (lobby (joiner w))) eqn:Hlr;
      [|apply Hsame; unfold do_join; by rewrite HaA, HgA1, Hfind, Hlr].
    rewrite Hlist in Hfind. pose proof Hfind as Hlisted.
    apply listed_room_is_stored with (r := r) in Hlisted as (-> & _ & _); [|done..].
    rewrite <- Hlist in Hfind.
    assert (Hid : room_id r = rid) by (by apply Hkeys).
    rewrite (do_join_free w B rid r gA (TTT gA sA)) by (done || congruence).
    set (r' := apply_update (Games.join_update B) r).
    assert (Hwf : ttt_row_wf r).
    { destruct HvA as [Hrows _ Hlast _ _ _]. rewrite Forall_forall in Hrows.
      by apply Hrows, last_Some_elem_of. }
    assert (Hwf' : ttt_row_wf r').
    { destruct Hwf as [Hl Ht Ho Hw]. split; try done.
      - intros _. apply Ho. by rewrite Hst.
      - intros _. apply Hw. by rewrite Hst. }
    simpl. unfold render. simpl. rewrite Hgt. simpl.
    eapply (TttInv A B rid _ r' gA sA); simpl; try done.
    + intros k x. destruct (decide (k = rid)) as [->|Hne].
      * rewrite lookup_insert_eq. by intros [= <-].
      * rewrite lookup_insert_ne by done. apply Hkeys.
    + by rewrite lookup_insert_eq.
    + apply (behind_push _ _ r); try done. by rewrite Hst.
    + right. exists r', (TicTacToe.mount r'). split_and!; try done.
      assert (Hm : TicTacToe.st_gameState (TicTacToe.mount r') = r')
        by (unfold TicTacToe.mount; by destruct (board (game_state r'))).
      split; rewrite ?payloads_app, ?HqB, ?Hm; simpl.
      * by apply Forall_singleton.
      * split; [by constructor|done].
      * done.
      * unfold TicTacToe.mount. destruct Hwf' as [Hl _ _ _]. unfold ttt_board in Hl.
        by destruct (board (game_state r')).
      * unfold TicTacToe.mount. destruct Hwf' as [_ Ht _ _]. unfold ttt_turn in Ht.
        by destruct (board (game_state r')).
      * unfold TicTacToe.mount. destruct Hwf' as [_ _ Ho _]. unfold ttt_board in Ho.
        intros Hnc. specialize (Ho Hnc). by destruct (board (game_state r')).
  - apply Hsame. unfold do_join. rewrite HaA.
    destruct (find _ _); [|done]. by rewrite Hlr.
Qed.

Lemma step_ttt_inv (w : World) (a : action) :
  ttt_inv A B rid w → ttt_inv A B rid (step a w).
Proof.
  intros Hinv. unfold step. apply ttt_inv_tick. destruct a as [|p i|p ch|p].
  - by apply join_ttt_inv.
  - by apply click_ttt_inv.
  - by rewrite choose_ttt_inv.
  - by apply deliver_ttt_inv.
Qed.

Lemma run_ttt_inv (l : list action) (w : World) :
  ttt_inv A B rid w → ttt_inv A B rid (run l w).
Proof.
  revert w. induction l as [|a l IH]; intros w Hinv; [done|].
  simpl. apply IH. by apply step_ttt_inv.
Qed.

Lemma playing_inv (db0 : rooms) (tbl0 : stats_table) (now : Z) (w : World) :
  db0 !! rid = None → keyed db0 →
  playing db0 tbl0 A B rid now w → ttt_inv A B rid w.
Proof.
  intros Hfresh Hkeys [l ->]. apply run_ttt_inv.
  assert (Hgt : "tic_tac_toe" ∈ supported_game_types)
    by (unfold supported_game_types; apply elem_of_cons; by left).
  pose proof (opened_inv A B rid db0 tbl0 _ now Hgt Hfresh Hkeys) as Hinv.
  eapply (waiting_ttt_inv _ (mkGameRoom rid "tic_tac_toe" A None empty_state "waiting"
                               None now None)); try done.
  unfold opened, create_world, Games.createRoom, db_insert.
  rewrite decide_True by done. simpl.
  unfold settle, deliver_all, step, tick, do_deliver; simpl.
  by rewrite lookup_insert_eq.
Qed.

End Playing.

(** A settled run is one of the schedules. *)
Lemma deliver_all_run (p : side) (w : World) :
  deliver_all p w = run (replicate (length (inbox (client p w))) (Deliver p)) w.
Proof.
  unfold deliver_all. generalize (length (inbox (client p w))) as n.
  intros n. revert w. induction n as [|n IH]; intros w; [done|].
  rewrite Nat.iter_succ_r. simpl. apply IH.
Qed.

Lemma run_cons (a : action) (l : list action) (w : World) :
  run (a :: l) w = run l (step a w).
Proof. reflexivity. Qed.

Lemma run_app (l1 l2 : list action) (w : World) :
  run (l1 ++ l2) w = run l2 (run l1 w).
Proof. apply foldl_app. Qed.

Lemma run_settled_run (l : list action) (w : World) : ∃ l', run_settled l w = run l' w.
Proof.
  revert w. induction l as [|a l IH]; intros w; [by exists []|].
  change (run_settled (a :: l) w) with (run_settled l (settle (step a w))).
  destruct (IH (settle (step a w))) as [l' ->].
  unfold settle. set (w1 := step a w). set (w2 := deliver_all Creator w1).
  exists (a :: replicate (length (inbox (client Creator w1))) (Deliver Creator)
            ++ replicate (length (inbox (client Joiner w2))) (Deliver Joiner)
            ++ l')%list.
  rewrite run_cons, !run_app. fold w1.
  rewrite <- (deliver_all_run Creator w1). fold w2.
  by rewrite <- (deliver_all_run Joiner w2).
Qed.

Lemma reachable_playing (db0 : rooms) (tbl0 : stats_table) (A B rid : string) (now : Z)
    (w : World) :
  reachable db0 tbl0 A B "tic_tac_toe" rid now w → playing db0 tbl0 A B rid now w.
Proof. intros [l ->]. apply run_settled_run. Qed.



(** ** Clicks made on a copy that is behind the store *)

(** C4, the claim as stated fails when a click is made before the
    notification of the previous write is delivered.  ann clicks cell 0
    and, before her own write comes back, cell 1: both moves are
    accepted, both place "X", and the second write stores a board
    without the first mark.  bob, whose client has received neither his
    own move at cell 4 nor ann's reply at cell 8, clicks cell 8: his
    write replaces ann's "X" there by "O". *)
Lemma stale_click_breaks_alternation :
  (let w1 := run (joined_and_seen ++ [Click Creator 0%nat]) ttt_opened in
   let w2 := step (Click Creator 1%nat) w1 in
   game_state <$> stored w1
   = Some (mkGameState
             (Some [CStr "X"; CNull; CNull; CNull; CNull; CNull; CNull; CNull; CNull])
             (Some "O") None None)
   ∧ game_state <$> stored w2
     = Some (mkGameState
               (Some [CNull; CStr "X"; CNull; CNull; CNull; CNull; CNull; CNull; CNull])
               (Some "O") None None))
  ∧ (let w3 := run [Click Joiner 4; Deliver Creator; Deliver Creator; Click Creator 8]%nat
                 (run_settled [Join; Click Creator 0%nat] ttt_opened) in
     let w4 := step (Click Joiner 8%nat) w3 in
     board ∘ game_state <$> stored w3
     = Some (Some [CStr "X"; CNull; CNull; CNull; CStr "O"; CNull; CNull; CNull; CStr "X"])
     ∧ board ∘ game_state <$> stored w4
       = Some (Some [CStr "X"; CNull; CNull; CNull; CNull; CNull; CNull; CNull; CStr "O"])).
Proof. split; split; by vm_compute. Qed.

(** C6, the claim as stated fails when a click is made on a copy that
    is behind the store.  With the board X X O / O X O / X . . and bob to
    move, bob clicks cell 7; ann's client is told and ann completes the
    diagonal at cell 8, which stores her as the winner.  bob's client
    has processed neither write: on his copy cell 8 is empty and it is
    his turn, his click there completes the right column, and the write
    stores bob as the winner of the room already completed. *)
Lemma stale_win_replaces_winner :
  let w := run [Click Joiner 7; Deliver Creator; Deliver Creator; Click Creator 8]%nat
             (run_settled [Join; Click Creator 0; Click Joiner 3; Click Creator 1;
                           Click Joiner 2; Click Creator 4; Click Joiner 5;
                           Click Creator 6]%nat ttt_opened) in
  (status <$> stored w = Some "completed" ∧ winner_id <$> stored w = Some (Some "ann"))
  ∧ status <$> stored (step (Click Joiner 8%nat) w) = Some "completed"
  ∧ winner_id <$> stored (step (Click Joiner 8%nat) w) = Some (Some "bob").
Proof. split; [split|split]; by vm_compute. Qed.

(** * Further properties of the code *)

(** ** The list of open rooms *)

Lemma newer_first_total : Total newer_first.
Proof. intros a b. unfold newer_first. lia. Qed.

Lemma newer_first_trans : Transitive newer_first.
Proof. intros a b c. unfold newer_first. lia. Qed.

(** X1: what [loadAvailableRooms] puts in the lobby: at most ten rooms,
    each a stored row that is waiting and has no second player, ordered
    from the newest to the oldest.  A stored room that is waiting
    without second player is in the list, unless the list is full with
    ten rooms none of which is older. *)
Theorem lobby_lists_newest_open_rooms (db : rooms) (s : Games.State) :
  let l := Games.availableRooms (Games.loadAvailableRooms db s) in
  (length l ≤ 10)%nat
  ∧ (∀ r, r ∈ l → (∃ k, db !! k = Some r) ∧ status r = "waiting" ∧ player2_id r = None)
  ∧ StronglySorted newer_first l
  ∧ (∀ k r, db !! k = Some r → status r = "waiting" → player2_id r = None →
       r ∈ l ∨ (length l = 10%nat ∧ ∀ x, x ∈ l → created_at r ≤ created_at x)).
Proof.
  simpl. unfold db_open_rooms.
  set (open := filter (λ r, status r = "waiting" ∧ player2_id r = None)
                 ((map_to_list db).*2)).
  set (sorted := merge_sort newer_first open).
  assert (Hsorted : StronglySorted newer_first sorted)
    by (apply StronglySorted_merge_sort;
        [apply newer_first_trans | apply newer_first_total]).
  assert (Hin : ∀ r, r ∈ sorted ↔ r ∈ open)
    by (intros r; unfold sorted; by rewrite merge_sort_Permutation).
  assert (Hopen : ∀ r, r ∈ open ↔
            (∃ k, db !! k = Some r) ∧ status r = "waiting" ∧ player2_id r = None).
  { intros r. unfold open. rewrite list_elem_of_filter, list_elem_of_fmap. split.
    - intros [[? ?] ([k x] & -> & Hk)]. apply elem_of_map_to_list in Hk. eauto.
    - intros ([k Hk] & ? & ?). split; [done|]. exists (k, r). split; [done|].
      by apply elem_of_map_to_list. }
  split_and!.
  - rewrite length_take. lia.
  - intros r Hr. apply subseteq_take in Hr. by apply Hin, Hopen in Hr.
  - rewrite <- (take_drop 10 sorted) in Hsorted. by apply StronglySorted_app_1_l in Hsorted.
  - intros k r Hk Hst Hp2.
    assert (Hr : r ∈ sorted) by (apply Hin, Hopen; eauto).
    rewrite <- (take_drop 10 sorted) in Hr, Hsorted.
    apply elem_of_app in Hr as [Hr|Hr]; [by left|right].
    split.
    + rewrite length_take. apply list_elem_of_lookup in Hr as [i Hi].
      apply lookup_lt_Some in Hi. rewrite length_drop in Hi. lia.
    + intros x Hx. by apply (StronglySorted_app_1_elem_of _ _ _ _ _ Hsorted Hx Hr).
Qed.

(** ** Creating and joining a room *)



(** X4: nobody enters a room twice.  For a user who is the creator or
    the second player of the stored row, [joinRoom] on a listing of that
    row writes nothing and leaves the active game as it was. *)
Theorem joinRoom_never_readmits (uid : string) (room r : GameRoom) (db : rooms)
    (s : Games.State) :
  db !! room_id room = Some r → player1_id room = player1_id r →
  uid = player1_id r ∨ player2_id r = Some uid →
  let '(db', rows, s', evs) := Games.joinRoom (Some uid) room db s in
  db' = db ∧ rows = [] ∧ Games.activeGame s' = Games.activeGame s
  ∧ ∃ msg, Alert msg ∈ evs.
Proof.
  intros Hr Hp1 Hpart. unfold Games.joinRoom.
  destruct (bool_decide_reflect (player1_id room = uid)) as [Hown|Hother].
  { split_and!; try done. eexists. by left. }
  destruct (truthy (player2_id room)) eqn:Hfull.
  { split_and!; try done. eexists. by left. }
  unfold db_update. rewrite Hr.
  destruct (bool_decide_reflect (player2_id r = None)) as [Hfree|Htaken]; simpl.
  - exfalso. destruct Hpart as [->|Hp2]; congruence.
  - split_and!; try done. eexists. right. by left.
Qed.

Lemma joinRoom_never_readmits_witness :
  let db : rooms := {["r1" := sample_room]} in
  db !! room_id sample_room = Some sample_room
  ∧ player1_id sample_room = player1_id sample_room
  ∧ ("bob" = player1_id sample_room ∨ player2_id sample_room = Some "bob")
  ∧ let '(db', rows, s', evs) := Games.joinRoom (Some "bob") sample_room db Games.initial in
    db' = db ∧ rows = [] ∧ Games.activeGame s' = Games.activeGame Games.initial
    ∧ ∃ msg, Alert msg ∈ evs.
Proof.
  intros db.
  assert (H1 : db !! room_id sample_room = Some sample_room) by done.
  assert (H3 : "bob" = player1_id sample_room ∨ player2_id sample_room = Some "bob")
    by (by right).
  split; [done|]. split; [done|]. split; [done|].
  exact (joinRoom_never_readmits "bob" sample_room sample_room db Games.initial
           H1 eq_refl H3).
Defined.

(** ** What no schedule does to the tables *)

Lemma same_room_refl (r : GameRoom) : same_room r r.
Proof. by repeat split. Qed.

Lemma same_room_trans (r1 r2 r3 : GameRoom) :
  same_room r1 r2 → same_room r2 r3 → same_room r1 r3.
Proof. unfold same_room. intros (? & ? & ? & ?) (? & ? & ? & ?). split_and!; congruence. Qed.

Lemma same_room_update (u : RoomUpdate) (r : GameRoom) : same_room r (apply_update u r).
Proof. by repeat split. Qed.

Lemma rows_kept_refl (d : rooms) : rows_kept d d.
Proof. intros k. destruct (d !! k) eqn:E; [|done]. eexists. split; [done|]. apply same_room_refl. Qed.

Lemma rows_kept_trans (d1 d2 d3 : rooms) :
  rows_kept d1 d2 → rows_kept d2 d3 → rows_kept d1 d3.
Proof.
  intros H12 H23 k. specialize (H12 k). specialize (H23 k).
  destruct (d1 !! k) as [r1|].
  - destruct H12 as (r2 & E2 & S12). rewrite E2 in H23.
    destruct H23 as (r3 & E3 & S23). exists r3. split; [done|].
    by apply (same_room_trans r1 r2 r3).
  - by rewrite H12 in H23.
Qed.

Lemma rows_kept_db_update (d : rooms) (rid : string) (p : GameRoom → bool)
    (u : RoomUpdate) :
  rows_kept d (db_update d rid p u).1.
Proof.
  unfold db_update. destruct (d !! rid) as [r|] eqn:Hr; [|apply rows_kept_refl].
  destruct (p r); [|apply rows_kept_refl]. simpl. intros k.
  destruct (decide (k = rid)) as [->|Hne].
  - rewrite Hr, lookup_insert_eq. eexists. split; [done|]. apply same_room_update.
  - rewrite lookup_insert_ne by done. destruct (d !! k); [|done].
    eexists. split; [done|]. apply same_room_refl.
Qed.

Lemma rows_kept_write (rid : string) (u : RoomUpdate) (w : World) :
  rows_kept (db w) (db (write rid u w)).
Proof.
  unfold write. pose proof (rows_kept_db_update (db w) rid (λ _, true) u) as H.
  destruct (db_update (db w) rid (λ _, true) u) as [d' rows]. by rewrite db_publish.
Qed.

Lemma rows_kept_joinRoom (user : option string) (room : GameRoom) (d : rooms)
    (s : Games.State) :
  rows_kept d (Games.joinRoom user room d s).1.1.1.
Proof.
  unfold Games.joinRoom. destruct user as [uid|]; [|apply rows_kept_refl].
  destruct (bool_decide _); [apply rows_kept_refl|].
  destruct (truthy _); [apply rows_kept_refl|].
  pose proof (rows_kept_db_update d (room_id room)
                (λ r, bool_decide (player2_id r = None)) (Games.join_update uid)) as H.
  destruct (db_update d (room_id room) _ _) as [d' rows].
  by destruct (single rows).
Qed.

Lemma rows_kept_step (a : action) (w : World) : rows_kept (db w) (db (step a w)).
Proof.
  unfold step. simpl. destruct a as [|p i|p ch|p].
  - unfold do_join. destruct (Games.activeGame _) as [mine|]; [|apply rows_kept_refl].
    destruct (find _ _) as [room|]; [|apply rows_kept_refl].
    destruct (_ && _); [|apply rows_kept_refl].
    pose proof (rows_kept_joinRoom (user (joiner w)) room (db w) (lobby (joiner w))) as H.
    destruct (Games.joinRoom _ room (db w) _) as [[[d' rows] g'] evs].
    by rewrite db_set_client, db_publish.
  - unfold do_click. destruct (comp (client p w)) as [[g s|g s]|]; try apply rows_kept_refl.
    destruct (_ && _); [|apply rows_kept_refl].
    destruct (TicTacToe.handleClick _ _ _ _ _); [|apply rows_kept_refl].
    apply rows_kept_write.
  - unfold do_choose. destruct (comp (client p w)) as [[g s|g s]|]; try apply rows_kept_refl.
    destruct (_ && _); [|apply rows_kept_refl].
    destruct (RockPaperScissors.makeChoice _ _ _ _ _) as [[s' u]|]; [|apply rows_kept_refl].
    pose proof (rows_kept_write (room_id g) u
      (set_client p (mkClient (user (client p w)) (lobby (client p w))
                              (Some (RPS g s')) (inbox (client p w))) w)) as H.
    by rewrite db_set_client in H.
  - unfold do_deliver. destruct (inbox (client p w)) as [|[|r] rest];
      [apply rows_kept_refl | rewrite db_set_client; apply rows_kept_refl |].
    destruct (comp (client p w)) as [k|].
    + destruct (receive _ k r (tbl w)) as [k' t']. rewrite db_set_client.
      apply rows_kept_refl.
    + rewrite db_set_client. apply rows_kept_refl.
Qed.

Lemma rows_kept_run (l : list action) (w : World) : rows_kept (db w) (db (run l w)).
Proof.
  revert w. induction l as [|a l IH]; intros w; [apply rows_kept_refl|].
  simpl. eapply rows_kept_trans; [apply rows_kept_step|apply IH].
Qed.

(** X5: no schedule of joins, clicks, choices and deliveries adds or
    removes a room, and none changes a room's key, game type, creator
    or creation time. *)
Theorem play_never_adds_or_removes_rooms (l : list action) (w : World) (k : string) :
  (db (run l w) !! k = None ↔ db w !! k = None)
  ∧ ∀ r', db (run l w) !! k = Some r' →
      ∃ r, db w !! k = Some r
        ∧ room_id r' = room_id r ∧ game_type r' = game_type r
        ∧ player1_id r' = player1_id r ∧ created_at r' = created_at r.
Proof.
  pose proof (rows_kept_run l w k) as H. destruct (db w !! k) as [r|].
  - destruct H as (r' & E & S). rewrite E. split; [done|].
    intros ? [= <-]. exists r. destruct S as (? & ? & ? & ?). by split_and!.
  - rewrite H. split; [done|]. intros ? [=].
Qed.

(** ** Statistics *)

Lemma stats_grow_refl (t : stats_table) : stats_grow t t.
Proof. split; [|done]. intros uid d H. exists d. split; [done|lia]. Qed.

Lemma stats_grow_trans (t1 t2 t3 : stats_table) :
  stats_grow t1 t2 → stats_grow t2 t3 → stats_grow t1 t3.
Proof.
  intros [M12 I12] [M23 I23]. split; [|intros Hok; by apply I23, I12].
  intros uid d H. destruct (M12 uid d H) as (d2 & H2 & ? & ?).
  destruct (M23 uid d2 H2) as (d3 & H3 & ? & ?). exists d3. split; [done|lia].
Qed.

Lemma stats_grow_insert (t : stats_table) (uid : string) (won : bool) :
  stats_grow t
    (<[uid := mkStats (from_option games_played 0 (t !! uid) + 1)
                      (from_option games_won 0 (t !! uid) + (if won then 1 else 0))]> t).
Proof.
  split.
  - intros k d H. destruct (decide (k = uid)) as [->|Hne].
    + rewrite lookup_insert_eq, H. eexists. split; [done|]. simpl. destruct won; lia.
    + rewrite lookup_insert_ne by done. exists d. split; [done|lia].
  - intros Hok k d. destruct (decide (k = uid)) as [->|Hne].
    + rewrite lookup_insert_eq. intros [= <-]. unfold stats_ok. simpl.
      destruct (t !! uid) as [d0|] eqn:E; simpl.
      * specialize (Hok uid d0 E). unfold stats_ok in Hok. destruct won; lia.
      * destruct won; lia.
    + rewrite lookup_insert_ne by done. apply Hok.
Qed.

Lemma stats_grow_ttt (u : option string) (won : bool) (t : stats_table) :
  stats_grow t (TicTacToe.updateStats u won t).
Proof.
  unfold TicTacToe.updateStats. destruct u; [apply stats_grow_insert|apply stats_grow_refl].
Qed.

Lemma stats_grow_rps (u : option string) (won : bool) (t : stats_table) :
  stats_grow t (RockPaperScissors.updateStats u won t).
Proof.
  unfold RockPaperScissors.updateStats.
  destruct u; [apply stats_grow_insert|apply stats_grow_refl].
Qed.

Lemma stats_grow_receive (u : option string) (k : component) (r : GameRoom)
    (t : stats_table) :
  stats_grow t (receive u k r t).2.
Proof.
  destruct k as [g s|g s]; simpl.
  - unfold TicTacToe.on_update. destruct (truthy (winner_id r)); simpl;
      [apply stats_grow_ttt|apply stats_grow_refl].
  - unfold RockPaperScissors.on_update, RockPaperScissors.determineWinner.
    destruct (bool_decide (status r = "completed")); simpl; [|apply stats_grow_refl].
    destruct (negb _ || negb _); simpl; [apply stats_grow_refl|].
    destruct (bool_decide (player1Choice _ = player2Choice _)); simpl;
      apply stats_grow_rps.
Qed.

Lemma tbl_set_client (p : side) (c : Client) (w : World) : tbl (set_client p c w) = tbl w.
Proof. by destruct p. Qed.

Lemma tbl_write (rid : string) (u : RoomUpdate) (w : World) : tbl (write rid u w) = tbl w.
Proof.
  unfold write. destruct (db_update (db w) rid (λ _, true) u) as [d' rows].
  by rewrite tbl_publish.
Qed.

Lemma stats_grow_step (a : action) (w : World) : stats_grow (tbl w) (tbl (step a w)).
Proof.
  unfold step. simpl. destruct a as [|p i|p ch|p].
  - unfold do_join. destruct (Games.activeGame _) as [mine|]; [|apply stats_grow_refl].
    destruct (find _ _) as [room|]; [|apply stats_grow_refl].
    destruct (_ && _); [|apply stats_grow_refl].
    destruct (Games.joinRoom _ room (db w) _) as [[[d' rows] g'] evs].
    rewrite tbl_set_client, tbl_publish. apply stats_grow_refl.
  - unfold do_click. destruct (comp (client p w)) as [[g s|g s]|]; try apply stats_grow_refl.
    destruct (_ && _); [|apply stats_grow_refl].
    destruct (TicTacToe.handleClick _ _ _ _ _); [|apply stats_grow_refl].
    rewrite tbl_write. apply stats_grow_refl.
  - unfold do_choose. destruct (comp (client p w)) as [[g s|g s]|]; try apply stats_grow_refl.
    destruct (_ && _); [|apply stats_grow_refl].
    destruct (RockPaperScissors.makeChoice _ _ _ _ _) as [[s' u]|]; [|apply stats_grow_refl].
    rewrite tbl_write, tbl_set_client. apply stats_grow_refl.
  - unfold do_deliver. destruct (inbox (client p w)) as [|[|r] rest];
      [apply stats_grow_refl | rewrite tbl_set_client; apply stats_grow_refl |].
    destruct (comp (client p w)) as [k|].
    + pose proof (stats_grow_receive (user (client p w)) k r (tbl w)) as H.
      destruct (receive _ k r (tbl w)) as [k' t']. by rewrite tbl_set_client.
    + rewrite tbl_set_client. apply stats_grow_refl.
Qed.

(** X6: in every schedule the game counters only grow: a user's row is
    never removed and neither [games_played] nor [games_won] ever
    decreases; and if every row starts with 0 <= games_won <=
    games_played, every row has it at the end, the rows the callbacks
    create included. *)
Theorem counters_only_grow (l : list action) (w : World) :
  (∀ uid d, tbl w !! uid = Some d →
     ∃ d', tbl (run l w) !! uid = Some d'
       ∧ games_played d ≤ games_played d' ∧ games_won d ≤ games_won d')
  ∧ ((∀ uid d, tbl w !! uid = Some d → stats_ok d) →
     ∀ uid d, tbl (run l w) !! uid = Some d → stats_ok d).
Proof.
  change (stats_grow (tbl w) (tbl (run l w))).
  revert w. induction l as [|a l IH]; intros w; [apply stats_grow_refl|].
  simpl. eapply stats_grow_trans; [apply stats_grow_step|apply IH].
Qed.

(** ** A Tic-Tac-Toe room under any schedule *)

(** X7: whatever the order of clicks and deliveries, the stored row of
    a Tic-Tac-Toe room keeps its creator, has either no second player
    and is waiting or has the joiner as second player, carries a board
    of nine cells and a turn marker "X" or "O", and as long as it is not
    completed its board holds no completed line and it has no winner. *)
Theorem stored_board_is_well_formed (db0 : rooms) (tbl0 : stats_table)
    (A B rid : string) (now : Z) (w : World) :
  A ≠ B → db0 !! rid = None → keyed db0 →
  playing db0 tbl0 A B rid now w →
  ∃ r, db w !! rid = Some r
    ∧ room_id r = rid ∧ game_type r = "tic_tac_toe" ∧ player1_id r = A
    ∧ ((player2_id r = None ∧ status r = "waiting") ∨ player2_id r = Some B)
    ∧ length (ttt_board r) = 9%nat
    ∧ (ttt_turn r = "X" ∨ ttt_turn r = "O")
    ∧ (status r ≠ "completed" →
       TicTacToe.checkWinner (ttt_board r) = None ∧ winner_id r = None).
Proof.
  intros HAB Hfresh Hkeys Hplay.
  pose proof (playing_inv A B rid HAB db0 tbl0 now w Hfresh Hkeys Hplay) as Hinv.
  destruct Hinv as [r gA sA Hk Hrow Hp1 HuA HcA HgA HaA HvA HuB HB].
  assert (Hwf : ttt_row_wf r).
  { destruct HvA as [Hrows _ Hlast _ _ _]. rewrite Forall_forall in Hrows.
    by apply Hrows, last_Some_elem_of. }
  assert (Hgt : game_type r = "tic_tac_toe").
  { destruct Hplay as [l ->].
    pose proof (rows_kept_run l (opened db0 tbl0 A B "tic_tac_toe" rid now) rid) as H.
    assert (H0 : db (opened db0 tbl0 A B "tic_tac_toe" rid now) !! rid
                 = Some (mkGameRoom rid "tic_tac_toe" A None empty_state "waiting"
                           None now None)).
    { unfold opened, create_world, Games.createRoom, db_insert.
      rewrite decide_True
        by (split; [unfold supported_game_types; apply elem_of_cons; by left|done]).
      simpl. unfold settle, deliver_all, step, tick, do_deliver; simpl.
      by rewrite lookup_insert_eq. }
    rewrite H0, Hrow in H. by destruct H as (r' & [= <-] & _ & -> & _). }
  exists r. destruct Hwf as [Hl Ht Ho Hw]. split_and!; try done.
  - by apply Hk.
  - destruct HB as [(_ & ? & ? & _)|(gB & sB & _ & _ & _ & _ & _ & ? & _)]; auto.
  - auto.
Qed.

Lemma stored_board_is_well_formed_witness :
  let w := run_settled before_win ttt_opened in
  "ann" ≠ "bob" ∧ (∅ : rooms) !! "r1" = None
  ∧ ∃ r, db w !! "r1" = Some r
    ∧ room_id r = "r1" ∧ game_type r = "tic_tac_toe" ∧ player1_id r = "ann"
    ∧ ((player2_id r = None ∧ status r = "waiting") ∨ player2_id r = Some "bob")
    ∧ length (ttt_board r) = 9%nat
    ∧ (ttt_turn r = "X" ∨ ttt_turn r = "O")
    ∧ (status r ≠ "completed" →
       TicTacToe.checkWinner (ttt_board r) = None ∧ winner_id r = None).
Proof.
  intros w.
  assert (H1 : "ann" ≠ "bob") by done.
  split; [done|]. split; [done|].
  exact (stored_board_is_well_formed ∅ ∅ "ann" "bob" "r1" 100 w H1 (lookup_empty "r1")
           keyed_empty (reachable_playing _ _ _ _ _ _ _ before_win_reachable)).
Defined.

Section PlayingRows.
Variables A B rid : string.
Hypothesis HAB : A ≠ B.

Lemma db_do_deliver (p : side) (w : World) : db (do_deliver p w) = db w.
Proof.
  unfold do_deliver. destruct (inbox (client p w)) as [|[|r] rest];
    [done | by rewrite db_set_client |].
  destruct (comp (client p w)) as [k|].
  - destruct (receive _ k r (tbl w)) as [k' t']. by rewrite db_set_client.
  - by rewrite db_set_client.
Qed.

(** What one action does to the stored row of the room. *)
Lemma ttt_step_row (w : World) (a : action) (r : GameRoom) :
  ttt_inv A B rid w → db w !! rid = Some r →
  ∃ r', db (step a w) !! rid = Some r'
    ∧ (status r = "completed" → status r' = "completed")
    ∧ (player2_id r ≠ None → player2_id r' = player2_id r)
    ∧ (status r ≠ "waiting" → status r' ≠ "waiting").
Proof.
  intros Hinv Hrow. pose proof Hinv as Hinv0.
  destruct Hinv as [r0 gA sA Hkeys Hrow0 Hp1 HuA HcA [HgA1 HgA2] HaA HvA HuB HB].
  assert (r0 = r) as -> by congruence.
  assert (Hsame : ∀ w', db w' !! rid = Some r →
            ∃ r', db w' !! rid = Some r'
              ∧ (status r = "completed" → status r' = "completed")
              ∧ (player2_id r ≠ None → player2_id r' = player2_id r)
              ∧ (status r ≠ "waiting" → status r' ≠ "waiting")) by eauto.
  unfold step. simpl. destruct a as [|p i|p ch|p].
  - destruct HB as [(HcB & Hp2 & Hst & Hgt & HqA & HqB & Hlist)
                   |(gB & sB & HcB & HgB1 & HgB2 & HgB3 & HvB & Hp2 & Hlr)].
    + destruct (find (λ x, bool_decide (room_id x = rid))
                  (Games.availableRooms (lobby (joiner w)))) as [room|] eqn:Hfind;
        [|apply Hsame; unfold do_join; by rewrite HaA, HgA1, Hfind].
      destruct (Games.lobby_rendered (lobby (joiner w))) eqn:Hlr;
        [|apply Hsame; unfold do_join; by rewrite HaA, HgA1, Hfind, Hlr].
      rewrite Hlist in Hfind. pose proof Hfind as Hlisted.
      apply listed_room_is_stored with (r := r) in Hlisted as (-> & _ & _); [|done..].
      rewrite <- Hlist in Hfind.
      assert (Hid : room_id r = rid) by (by apply Hkeys).
      rewrite (do_join_free w B rid r gA (TTT gA sA)) by (done || congruence).
      simpl. rewrite lookup_insert_eq. eexists. split; [done|].
      split_and!; simpl; [by rewrite Hst | by rewrite Hp2 | by rewrite Hst].
    + apply Hsame. unfold do_join. rewrite HaA.
      destruct (find _ _); [|done]. by rewrite Hlr.
  - unfold do_click.
    destruct (comp (client p w)) as [[g s|g s]|] eqn:Hcomp; try by apply Hsame.
    destruct (TicTacToe.grid_rendered s && bool_decide (i ∈ TicTacToe.cells)) eqn:Hok;
      [|by apply Hsame].
    apply andb_true_iff in Hok as [_ Hi]. apply bool_decide_eq_true in Hi.
    destruct (TicTacToe.handleClick _ g (clock w) i s) as [u|] eqn:Hclick;
      [|by apply Hsame].
    destruct (click_in_play A B rid w p i g s u Hinv0 Hcomp Hclick)
      as (r1 & gA1 & sA1 & gB1 & sB1 & _ & _ & _ & Hp2 & _ & _ & _ & _ & Hg & _ & _ & _
          & Hv & _ & _).
    pose proof Hclick as Hfacts.
    apply handleClick_Some in Hfacts as (_ & _ & _ & _ & _ & Hu2 & _ & Hout).
    rewrite Hg, write_lookup, Hrow. simpl. eexists. split; [done|].
    assert (Hstu : u_status u = None ∨ u_status u = Some "completed").
    { destruct (TicTacToe.checkWinner _); [by destruct Hout as (-> & _); right|].
      destruct (forallb _ _); destruct Hout as (-> & _); auto. }
    simpl. rewrite Hu2. simpl. split_and!; try done.
    + destruct Hstu as [-> | ->]; done.
    + destruct Hstu as [-> | ->]; done.
  - rewrite (choose_ttt_inv A B rid w p ch Hinv0). by apply Hsame.
  - rewrite db_do_deliver. by apply Hsame.
Qed.

End PlayingRows.

(** X8: in every schedule a Tic-Tac-Toe room only moves forward: once
    completed it stays completed, once out of waiting it never waits
    again, and its second player, once set, is never replaced. *)
Theorem room_only_moves_forward (db0 : rooms) (tbl0 : stats_table)
    (A B rid : string) (now : Z) (w : World) (l : list action) (r : GameRoom) :
  A ≠ B → db0 !! rid = None → keyed db0 →
  playing db0 tbl0 A B rid now w → db w !! rid = Some r →
  ∃ r', db (run l w) !! rid = Some r'
    ∧ (status r = "completed" → status r' = "completed")
    ∧ (player2_id r ≠ None → player2_id r' = player2_id r)
    ∧ (status r ≠ "waiting" → status r' ≠ "waiting").
Proof.
  intros HAB Hfresh Hkeys Hplay.
  pose proof (playing_inv A B rid HAB db0 tbl0 now w Hfresh Hkeys Hplay) as Hinv.
  clear Hplay. revert w r Hinv.
  induction l as [|a l IH]; intros w r Hinv Hrow; [by exists r|].
  destruct (ttt_step_row A B rid HAB w a r Hinv Hrow) as (r1 & Hr1 & Hc1 & Hp1 & Hw1).
  destruct (IH (step a w) r1 (step_ttt_inv A B rid HAB w a Hinv) Hr1)
    as (r' & Hr' & Hc & Hp & Hw).
  exists r'. split; [done|]. split_and!.
  - auto.
  - intros Hn. rewrite <- (Hp1 Hn). apply Hp. by rewrite (Hp1 Hn).
  - auto.
Qed.

Lemma room_only_moves_forward_witness :
  let w := run_settled before_win ttt_opened in
  "ann" ≠ "bob" ∧ (∅ : rooms) !! "r1" = None
  ∧ ∃ r, db w !! "r1" = Some r
    ∧ ∃ r', db (run [Click Creator 2%nat] w) !! "r1" = Some r'
      ∧ (status r = "completed" → status r' = "completed")
      ∧ (player2_id r ≠ None → player2_id r' = player2_id r)
      ∧ (status r ≠ "waiting" → status r' ≠ "waiting").
Proof.
  intros w.
  assert (H1 : "ann" ≠ "bob") by done.
  split; [done|]. split; [done|].
  eexists. split; [vm_compute; reflexivity|].
  eapply (room_only_moves_forward ∅ ∅ "ann" "bob" "r1" 100 w [Click Creator 2%nat] _ H1
            (lookup_empty "r1") keyed_empty
            (reachable_playing _ _ _ _ _ _ _ before_win_reachable)).
  vm_compute; reflexivity.
Defined.

(** ** The cells of the grid *)

(** X9: the button of a cell and [handleClick] agree (the winner banner
    is unset or a non-empty string, as the callback leaves it).  A click
    on a disabled cell writes nothing.  A click on a cell that is
    enabled and carries the hover and pointer classes is written.
    Whenever [handleClick] writes and the turn marker is "X" or "O", the
    cell is enabled and carries these classes.  The classes are given
    only when the turn marker is the user's symbol, and the icon shown
    is the cell's mark. *)
Theorem renderCell_agrees_with_handleClick (user : option string) (g : GameRoom)
    (now : Z) (i : nat) (s : TicTacToe.State) :
  TicTacToe.st_winner s ≠ Some "" →
  let v := renderCell user g i s in
  (cell_disabled v = true → TicTacToe.handleClick user g now i s = None)
  ∧ (cell_disabled v = false → cell_inviting v = true →
     is_Some (TicTacToe.handleClick user g now i s))
  ∧ (is_Some (TicTacToe.handleClick user g now i s) →
     TicTacToe.st_currentTurn s = "X" ∨ TicTacToe.st_currentTurn s = "O" →
     cell_disabled v = false ∧ cell_inviting v = true)
  ∧ (cell_inviting v = true →
     TicTacToe.st_currentTurn s = TicTacToe.mySymbol user g)
  ∧ (∀ m, cell_icon v = Some m ↔
          sq (TicTacToe.st_board s) i = CStr m ∧ (m = "X" ∨ m = "O")).
Proof.
  intros Hbanner v.
  assert (Hw : truthy (TicTacToe.st_winner s)
               = bool_decide (TicTacToe.st_winner s ≠ None)).
  { destruct (TicTacToe.st_winner s) as [x|]; simpl; [|done].
    apply bool_decide_eq_true_2. intros ->. by apply Hbanner. }
  assert (Hnone : TicTacToe.handleClick user g now i s = None ↔
            cell_disabled v = true
            ∨ (TicTacToe.st_currentTurn s = "X" ∧ TicTacToe.isPlayer1 user g = false)
            ∨ (TicTacToe.st_currentTurn s = "O" ∧ TicTacToe.isPlayer1 user g = true)).
  { rewrite handleClick_None_iff. unfold v, renderCell. simpl. rewrite <- Hw.
    rewrite !orb_true_iff, bool_decide_eq_true. tauto. }
  assert (Hinv : cell_inviting v = true ↔
            cell_truthy (sq (TicTacToe.st_board s) i) = false
            ∧ status (TicTacToe.st_gameState s) = "in_progress"
            ∧ ((TicTacToe.st_currentTurn s = "X" ∧ TicTacToe.isPlayer1 user g = true)
               ∨ (TicTacToe.st_currentTurn s = "O"
                  ∧ TicTacToe.isPlayer1 user g = false))).
  { unfold v, renderCell. simpl.
    rewrite !andb_true_iff, orb_true_iff, !andb_true_iff, !bool_decide_eq_true,
      !negb_true_iff. tauto. }
  split_and!.
  - intros Hd. apply Hnone. by left.
  - intros Hd Hi. apply Hinv in Hi as (_ & _ & Hturn).
    destruct (TicTacToe.handleClick user g now i s) eqn:E; [by eexists|].
    destruct (proj1 Hnone eq_refl) as [E0|[[E1 E2]|[E1 E2]]]; [congruence| |];
      destruct Hturn as [[? ?]|[? ?]]; congruence.
  - intros [u Hu] Hturn.
    assert (Hd : cell_disabled v = false).
    { destruct (cell_disabled v) eqn:E; [|done].
      assert (TicTacToe.handleClick user g now i s = None) by (apply Hnone; by left).
      congruence. }
    split; [done|]. apply Hinv.
    apply handleClick_Some in Hu as (Hc & _ & Hst & HX & HO & _).
    split; [done|]. split; [done|]. destruct Hturn as [Ht|Ht]; auto.
  - intros Hi. apply Hinv in Hi as (_ & _ & [[Ht Hp]|[Ht Hp]]);
      unfold TicTacToe.mySymbol; by rewrite Hp.
  - intros m. unfold v, renderCell. simpl.
    destruct (bool_decide_reflect (sq (TicTacToe.st_board s) i = CStr "X")) as [E|E].
    { rewrite E. split; [intros [= <-]; auto|]. by intros [[= <-] _]. }
    destruct (bool_decide_reflect (sq (TicTacToe.st_board s) i = CStr "O")) as [E'|E'].
    { rewrite E'. split; [intros [= <-]; auto|]. by intros [[= <-] _]. }
    split; [done|]. intros [Hm [-> | ->]]; congruence.
Qed.

Lemma renderCell_agrees_with_handleClick_witness :
  TicTacToe.st_winner (TicTacToe.mount sample_room) ≠ Some ""
  ∧ let v := renderCell (Some "bob") sample_room 4 (TicTacToe.mount sample_room) in
    (cell_disabled v = true →
     TicTacToe.handleClick (Some "bob") sample_room 9 4 (TicTacToe.mount sample_room) = None)
    ∧ (cell_disabled v = false → cell_inviting v = true →
       is_Some (TicTacToe.handleClick (Some "bob") sample_room 9 4
                  (TicTacToe.mount sample_room)))
    ∧ (is_Some (TicTacToe.handleClick (Some "bob") sample_room 9 4
                  (TicTacToe.mount sample_room)) →
       TicTacToe.st_currentTurn (TicTacToe.mount sample_room) = "X"
       ∨ TicTacToe.st_currentTurn (TicTacToe.mount sample_room) = "O" →
       cell_disabled v = false ∧ cell_inviting v = true)
    ∧ (cell_inviting v = true →
       TicTacToe.st_currentTurn (TicTacToe.mount sample_room)
       = TicTacToe.mySymbol (Some "bob") sample_room)
    ∧ (∀ m, cell_icon v = Some m ↔
            sq (TicTacToe.st_board (TicTacToe.mount sample_room)) 4 = CStr m
            ∧ (m = "X" ∨ m = "O")).
Proof.
  assert (H : TicTacToe.st_winner (TicTacToe.mount sample_room) ≠ Some "") by done.
  split; [done|].
  exact (renderCell_agrees_with_handleClick (Some "bob") sample_room 9 4
           (TicTacToe.mount sample_room) H).
Defined.

(** ** Rock-Paper-Scissors: verdicts and choices *)




(** X11: a choice survives a remount.  After [makeChoice] has written a
    non-empty choice, a component mounted on the written row starts with
    that choice recorded, and every further [makeChoice] in it returns
    at the guard. *)
Theorem choice_survives_remount (uid : string) (g r : GameRoom) (now : Z)
    (choice : string) (s s' : RockPaperScissors.State) (u : RoomUpdate) :
  RockPaperScissors.makeChoice (Some uid) g now choice s = Some (s', u) →
  choice ≠ "" → player1_id g = player1_id r →
  let r' := apply_update u r in
  RockPaperScissors.st_myChoice s' = Some choice
  ∧ RockPaperScissors.st_myChoice (RockPaperScissors.mount (Some uid) r') = Some choice
  ∧ ∀ now' c,
      RockPaperScissors.makeChoice (Some uid) r' now' c
        (RockPaperScissors.mount (Some uid) r') = None.
Proof.
  intros Hmk Hne Hp1 r'.
  assert (Hc : truthy (Some choice) = true) by (simpl; by apply bool_decide_eq_true_2).
  assert (Hsame : RockPaperScissors.isPlayer1 (Some uid) r'
                  = RockPaperScissors.isPlayer1 (Some uid) g)
    by (unfold RockPaperScissors.isPlayer1; simpl; by rewrite Hp1).
  unfold RockPaperScissors.makeChoice in Hmk.
  destruct (negb _ || truthy (RockPaperScissors.st_myChoice s)); [done|].
  assert (Hs' : RockPaperScissors.st_myChoice s' = Some choice)
    by (by injection Hmk as <- _).
  assert (Hown : (if RockPaperScissors.isPlayer1 (Some uid) g
                  then player1Choice (game_state r')
                  else player2Choice (game_state r')) = Some choice).
  { unfold r'. injection Hmk as _ <-.
    destruct (RockPaperScissors.isPlayer1 (Some uid) g);
      by destruct (truthy _). }
  assert (Hmount : RockPaperScissors.st_myChoice (RockPaperScissors.mount (Some uid) r')
                   = Some choice).
  { unfold RockPaperScissors.mount. rewrite Hsame. clearbody r'.
    destruct (RockPaperScissors.isPlayer1 (Some uid) g); rewrite Hown, Hc; simpl;
      by rewrite ?orb_true_r. }
  split; [done|]. split; [done|].
  intros now' c. unfold RockPaperScissors.makeChoice. rewrite Hmount, Hc.
  by rewrite orb_true_r.
Qed.

Lemma choice_survives_remount_witness :
  let r := mkGameRoom "r1" "rock_paper_scissors" "ann" (Some "bob") empty_state
             "in_progress" None 5 None in
  let s := RockPaperScissors.mount (Some "bob") r in
  ∃ s' u,
    RockPaperScissors.makeChoice (Some "bob") r 9 "paper" s = Some (s', u)
    ∧ "paper" ≠ "" ∧ player1_id r = player1_id r
    ∧ RockPaperScissors.st_myChoice s' = Some "paper"
    ∧ RockPaperScissors.st_myChoice
        (RockPaperScissors.mount (Some "bob") (apply_update u r)) = Some "paper"
    ∧ ∀ now' c,
        RockPaperScissors.makeChoice (Some "bob") (apply_update u r) now' c
          (RockPaperScissors.mount (Some "bob") (apply_update u r)) = None.
Proof.
  intros r s. eexists _, _.
  split; [vm_compute; reflexivity|]. split; [done|]. split; [done|].
  eapply (choice_survives_remount "bob" r r 9 "paper" s); [vm_compute; reflexivity|done|done].
Defined.

(** ** What a move writes besides the payload *)

(** X12: the columns a move names.  Neither [handleClick] nor
    [makeChoice] ever names [player2_id]; both always write the payload;
    the only status either writes is completed, always together with
    [completed_at] set to the instant of the move, and [completed_at] is
    never written otherwise; a winner is written only by a write that
    completes the room. *)
Theorem moves_complete_with_timestamp :
  (∀ user g now i s u,
     TicTacToe.handleClick user g now i s = Some u →
     u_player2_id u = None ∧ is_Some (u_game_state u)
     ∧ (u_status u = None ∨ u_status u = Some "completed")
     ∧ (u_status u = Some "completed" ↔ u_completed_at u = Some (Some now))
     ∧ (u_status u = None ↔ u_completed_at u = None)
     ∧ (u_winner_id u ≠ None → u_status u = Some "completed"))
  ∧ (∀ user g now c s s' u,
       RockPaperScissors.makeChoice user g now c s = Some (s', u) →
       u_player2_id u = None ∧ is_Some (u_game_state u)
       ∧ (u_status u = None ∨ u_status u = Some "completed")
       ∧ (u_status u = Some "completed" ↔ u_completed_at u = Some (Some now))
       ∧ (u_status u = None ↔ u_completed_at u = None)
       ∧ (u_winner_id u ≠ None → u_status u = Some "completed")).
Proof.
  split.
  - intros user g now i s u Hu.
    apply handleClick_Some in Hu as (_ & _ & _ & _ & _ & Hu2 & Hgs & Hout).
    split; [done|]. split; [by rewrite Hgs|].
    destruct (TicTacToe.checkWinner _) as [sym|].
    + destruct Hout as (-> & -> & ->). split_and!; try done; auto.
    + destruct (forallb _ _); destruct Hout as (-> & -> & ->);
        split_and!; try done; auto.
  - intros user g now c s s' u Hu. unfold RockPaperScissors.makeChoice in Hu.
    destruct (negb _ || truthy (RockPaperScissors.st_myChoice s)); [done|].
    injection Hu as _ <-.
    destruct (truthy (if RockPaperScissors.isPlayer1 user g then _ else _)); simpl;
      split_and!; try done; auto; by eexists.
Qed.

(** ** The terminal check by itself *)


(** ** The panel above the grid *)

(** X14: what the panel shows after a notification, once the row has a
    second player.  A row with a winner shows the winner banner to the
    user whose id it is and the loser banner to every other user.  A
    completed row without winner shows the draw banner, unless a banner
    was shown before: a banner is never cleared.  A component freshly
    mounted on a completed row shows the draw banner even if the row has
    a winner, since only the callback sets the banner. *)
Theorem panel_after_notification (u : option string) (g r : GameRoom)
    (s : TicTacToe.State) (t : stats_table) :
  truthy (player2_id r) = true →
  let s' := (TicTacToe.on_update u r s t).1 in
  (truthy (winner_id r) = true →
   ttt_render u g s' = if bool_decide (winner_id r = u) then YouWon else YouLost)
  ∧ (truthy (winner_id r) = false →
     TicTacToe.st_winner s' = TicTacToe.st_winner s
     ∧ (truthy (TicTacToe.st_winner s) = false → status r = "completed" →
        ttt_render u g s' = Drawn))
  ∧ (status r = "completed" → ttt_render u r (TicTacToe.mount r) = Drawn).
Proof.
  intros Hp2 s'.
  destruct (on_update_view u r s t) as (Hg & _ & _). fold s' in Hg.
  unfold ttt_render. rewrite Hg, Hp2. simpl. split_and!.
  - intros Hw. unfold s', TicTacToe.on_update. rewrite Hw. simpl.
    destruct (bool_decide (winner_id r = u)); simpl; done.
  - intros Hw.
    assert (Hkeep : TicTacToe.st_winner s' = TicTacToe.st_winner s).
    { unfold s', TicTacToe.on_update. rewrite Hw. by destruct (board (game_state r)). }
    split; [done|]. intros Hnone Hst. rewrite Hkeep, Hnone.
    by rewrite bool_decide_eq_true_2.
  - intros Hst. unfold TicTacToe.mount.
    destruct (board (game_state r)); simpl; rewrite Hp2; simpl;
      by rewrite bool_decide_eq_true_2.
Qed.

Lemma panel_after_notification_witness :
  let r := mkGameRoom "r1" "tic_tac_toe" "ann" (Some "bob")
             (mkGameState
                (Some [CStr "X"; CStr "X"; CStr "X"; CStr "O"; CStr "O"; CNull; CNull;
                       CNull; CNull]) (Some "O") None None)
             "completed" (Some "ann") 5 (Some 9) in
  truthy (player2_id r) = true
  ∧ ttt_render (Some "bob") sample_room
      (TicTacToe.on_update (Some "bob") r (TicTacToe.mount sample_room) ∅).1 = YouLost
  ∧ ttt_render (Some "ann") sample_room
      (TicTacToe.on_update (Some "ann") r (TicTacToe.mount sample_room) ∅).1 = YouWon.
Proof.
  intros r.
  assert (H : truthy (player2_id r) = true) by done.
  split; [done|]. split.
  - by rewrite (proj1 (panel_after_notification (Some "bob") sample_room r
                         (TicTacToe.mount sample_room) ∅ H) eq_refl).
  - by rewrite (proj1 (panel_after_notification (Some "ann") sample_room r
                         (TicTacToe.mount sample_room) ∅ H) eq_refl).
Defined.

(** ** Leaving a game *)


(** ** The tab bar *)


(** ** Statistics in settled runs *)










(** ** A completed room in a settled run *)

(** In a settled state whose room is completed every action is without
    effect. *)
Lemma completed_is_quiet (A B rid : string) (w : World) (a : action) (r : GameRoom) :
  settled_inv A B rid w → db w !! rid = Some r → status r = "completed" →
  settle (step a w) = tick w.
Proof.
  intros Hinv Hrow Hst. pose proof Hinv as Hinv0.
  destruct Hinv as [r0 kA Hkeys Hrow0 Hp1 Hok HuA HiA HcA [HgA1 HgA2] HmA HaA HuB HiB HlB HB].
  assert (r0 = r) as -> by congruence.
  assert (Hquiet : step a w = tick w → settle (step a w) = tick w)
    by (intros ->; by apply settle_quiet).
  apply Hquiet.
  destruct HB as [(_ & _ & Hw & _)|(kB & HcB & _ & _ & _ & HmB & _)]; [congruence|].
  assert (Hcomp : ∀ p, ∃ k, comp (client p w) = Some k
                    ∧ mirrors (user (client p w)) k r).
  { intros [|]; simpl; [exists kA|exists kB]; by rewrite ?HuA, ?HuB. }
  destruct a as [|p i|p ch|p].
  - apply join_noop. intros mine Hmine. left.
    assert (room_id mine = rid) as -> by congruence.
    destruct (find _ _) as [room|] eqn:Hfind; [|done].
    rewrite HlB in Hfind.
    apply (listed_room_is_stored rid) with (r := r) in Hfind as (_ & _ & ?); [|done..].
    congruence.
  - unfold step, do_click. destruct (Hcomp p) as (k & -> & Hm).
    destruct k as [g s|g s]; [|done]. destruct Hm as (_ & Hs & _).
    destruct (_ && _); [|done].
    rewrite (proj2 (handleClick_None_iff _ g (clock w) i s)); [done|].
    do 4 right. rewrite Hs, Hst. done.
  - unfold step, do_choose. destruct (Hcomp p) as (k & -> & Hm).
    destruct k as [g s|g s]; [done|]. destruct Hm as (Hg & Hs & Hmine).
    destruct (_ && _); [|done].
    assert (Hrok : rps_row_ok r) by (destruct Hok as [[? _]|[_ ?]]; [congruence|done]).
    destruct (rps_completed r Hrok Hst) as [[c1 H1] [c2 H2]].
    assert (Ht : truthy (RockPaperScissors.st_myChoice s) = true).
    { rewrite Hmine. destruct (RockPaperScissors.isPlayer1 _ g).
      - rewrite H1. apply choice_truthy. by apply (slot1 r Hrok).
      - rewrite H2. apply choice_truthy. by apply (slot2 r Hrok). }
    unfold RockPaperScissors.makeChoice. rewrite Ht. by rewrite orb_true_r.
  - by apply (deliver_quiet A B rid).
Qed.

(** X19: in a settled run a completed room is final, for both games:
    whatever is clicked, chosen or joined afterwards, the stored row
    stays as it is and the statistics are not touched again. *)
Theorem completed_room_is_final (db0 : rooms) (tbl0 : stats_table)
    (A B gameType rid : string) (now : Z) (w : World) (r : GameRoom)
    (l : list action) :
  A ≠ B → gameType ∈ supported_game_types → db0 !! rid = None → keyed db0 →
  reachable db0 tbl0 A B gameType rid now w →
  db w !! rid = Some r → status r = "completed" →
  db (run_settled l w) !! rid = Some r ∧ tbl (run_settled l w) = tbl w.
Proof.
  intros HAB Hgt Hfresh Hkeys Hreach Hrow Hst.
  pose proof (reachable_inv A B rid HAB db0 tbl0 _ now w Hgt Hfresh Hkeys Hreach) as Hinv.
  clear Hreach. revert w Hinv Hrow.
  induction l as [|a l IH]; intros w Hinv Hrow; [done|].
  simpl. rewrite (completed_is_quiet A B rid w a r Hinv Hrow Hst).
  destruct (IH (tick w)) as [H1 H2]; [by apply settled_inv_tick|done|].
  by rewrite H1, H2.
Qed.

Lemma completed_room_is_final_witness :
  let w := run_settled (before_win ++ [Click Creator 2%nat]) ttt_opened in
  "ann" ≠ "bob" ∧ "tic_tac_toe" ∈ supported_game_types ∧ (∅ : rooms) !! "r1" = None
  ∧ ∃ r, db w !! "r1" = Some r ∧ status r = "completed"
      ∧ db (run_settled [Click Joiner 5%nat; Click Creator 5%nat] w) !! "r1" = Some r
      ∧ tbl (run_settled [Click Joiner 5%nat; Click Creator 5%nat] w) = tbl w.
Proof.
  intros w.
  assert (H1 : "ann" ≠ "bob") by done.
  assert (H2 : "tic_tac_toe" ∈ supported_game_types)
    by (unfold supported_game_types; set_solver).
  assert (Hr : reachable ∅ ∅ "ann" "bob" "tic_tac_toe" "r1" 100 w)
    by (by exists (before_win ++ [Click Creator 2%nat])%list).
  split; [done|]. split; [done|]. split; [done|].
  eexists. split; [vm_compute; reflexivity|]. split; [vm_compute; reflexivity|].
  eapply (completed_room_is_final ∅ ∅ "ann" "bob" "tic_tac_toe" "r1" 100 w _
            [Click Joiner 5%nat; Click Creator 5%nat] H1 H2 (lookup_empty "r1")
            keyed_empty Hr); vm_compute; reflexivity.
Defined.

(** ** Joining from the list *)



(** ** The panels of Rock-Paper-Scissors *)

Lemma shown_choice_label (c : string) :
  c ∈ RockPaperScissors.choices → is_Some (shown_choice (Some c)).
Proof.
  unfold RockPaperScissors.choices. intros H.
  repeat (apply elem_of_cons in H as [->|H]; [by eexists|]).
  by apply elem_of_nil in H.
Qed.

(** The verdict the callback records for a completed row with both
    choices. *)
Lemma rps_receive_result (u : option string) (g : GameRoom) (s : RockPaperScissors.State)
    (r : GameRoom) (t : stats_table) (c1 c2 : string) :
  player1Choice (game_state r) = Some c1 → player2Choice (game_state r) = Some c2 →
  c1 ≠ "" → c2 ≠ "" → status r = "completed" →
  let s' := (RockPaperScissors.on_update u g r s t).1 in
  RockPaperScissors.st_myChoice s' = RockPaperScissors.st_myChoice s
  ∧ RockPaperScissors.st_gameState s' = r
  ∧ RockPaperScissors.st_result s'
    = Some (if bool_decide (c1 = c2) then "draw"
            else if bool_decide (RockPaperScissors.isPlayer1 u g
                                 = bool_decide (RockPaperScissors.winConditions c1 = Some c2))
                 then "win" else "lose").
Proof.
  intros H1 H2 Hc1 Hc2 Hst. simpl.
  unfold RockPaperScissors.on_update, RockPaperScissors.determineWinner.
  rewrite bool_decide_eq_true_2 by done.
  rewrite H1, H2. simpl. rewrite !bool_decide_eq_true_2 by done. simpl.
  destruct (bool_decide_reflect (Some c1 = Some c2)) as [Heq|Hne].
  - injection Heq as ->. simpl. by rewrite bool_decide_eq_true_2.
  - rewrite (bool_decide_eq_false_2 (c1 = c2)) by congruence. simpl.
    destruct (RockPaperScissors.isPlayer1 u g),
      (bool_decide (RockPaperScissors.winConditions c1 = Some c2)); done.
Qed.

Lemma rps_receive_pending (u : option string) (g : GameRoom) (s : RockPaperScissors.State)
    (r : GameRoom) (t : stats_table) :
  status r ≠ "completed" →
  (RockPaperScissors.on_update u g r s t).1
  = RockPaperScissors.mkState (RockPaperScissors.st_myChoice s) r
      (RockPaperScissors.st_result s).
Proof.
  intros Hst. unfold RockPaperScissors.on_update. by rewrite bool_decide_eq_false_2.
Qed.

Lemma rps_receive_comp (u : option string) (g : GameRoom) (s : RockPaperScissors.State)
    (r : GameRoom) (t : stats_table) :
  (receive u (RPS g s) r t).1 = RPS g (RockPaperScissors.on_update u g r s t).1.
Proof. simpl. by destruct (RockPaperScissors.on_update u g r s t). Qed.

(** The two components after an accepted choice and the delivery of its
    write: both callbacks have run on the written row. *)
Lemma choose_settles (A B rid : string) (w : World) (p : side) (ch : string)
    (g : GameRoom) (s s' : RockPaperScissors.State) (u : RoomUpdate) :
  A ≠ B →
  settled_inv A B rid w →
  comp (client p w) = Some (RPS g s) →
  RockPaperScissors.buttons_rendered s = true → ch ∈ RockPaperScissors.choices →
  RockPaperScissors.makeChoice (user (client p w)) g (clock w) ch s = Some (s', u) →
  ∃ r gA sA gB sB tA tB,
    db w !! rid = Some r ∧ player1_id gA = A ∧ player1_id gB = A
    ∧ match p with
      | Creator => gA = g ∧ sA = s'
      | Joiner => gB = g ∧ sB = s'
      end
    ∧ comp (creator (settle (step (Choose p ch) w)))
      = Some (RPS gA (RockPaperScissors.on_update (Some A) gA (apply_update u r) sA tA).1)
    ∧ comp (joiner (settle (step (Choose p ch) w)))
      = Some (RPS gB (RockPaperScissors.on_update (Some B) gB (apply_update u r) sB tB).1).
Proof.
  intros HAB Hinv Hcomp Hbtn Hch Hmk.
  destruct (choose_accepted A B rid HAB w p ch g s s' u Hinv Hcomp Hbtn Hch Hmk)
    as (r & Hrow & Hrok & _).
  destruct Hinv as [r0 kA Hkeys Hrow0 Hp1 Hok HuA HiA HcA [HgA1 HgA2] HmA HaA HuB HiB HlB HB].
  assert (r0 = r) as -> by congruence.
  assert (Hid : room_id r = rid) by (by apply Hkeys).
  assert (Hjoined : ∃ kB, comp (joiner w) = Some kB
            ∧ room_id (props kB) = rid ∧ player1_id (props kB) = A
            ∧ mirrors (Some B) kB r).
  { destruct HB as [(HcB & Hn & _)|(kB & ? & ? & ? & ? & ? & ? & ?)]; [|eauto 10].
    destruct p; simpl in Hcomp; [|congruence].
    rewrite HcA in Hcomp. injection Hcomp as ->. destruct HmA as (_ & Hs & _).
    unfold RockPaperScissors.buttons_rendered in Hbtn. rewrite Hs, Hn in Hbtn. done. }
  destruct Hjoined as (kB & HcB & HgB1 & HgB2 & HmB).
  assert (Hgt : game_type r = "rock_paper_scissors").
  { destruct p; simpl in Hcomp.
    - rewrite HcA in Hcomp. injection Hcomp as ->. by destruct HmA as (? & _).
    - rewrite HcB in Hcomp. injection Hcomp as ->. by destruct HmB as (? & _). }
  destruct kA as [gA sA|gA sA]; [destruct HmA as (? & _); congruence|].
  destruct kB as [gB sB|gB sB]; [destruct HmB as (? & _); congruence|].
  simpl in HgA1, HgA2, HgB1, HgB2.
  set (w1 := set_client p
               (mkClient (user (client p w)) (lobby (client p w)) (Some (RPS g s'))
                         (inbox (client p w))) w).
  assert (Hstep : step (Choose p ch) w = tick (write (room_id g) u w1)).
  { unfold step, do_choose. rewrite Hcomp, Hbtn, Hmk.
    by rewrite bool_decide_eq_true_2. }
  destruct p; simpl in Hcomp, w1.
  - rewrite HcA in Hcomp. injection Hcomp as <- <-.
    exists r, gA, s', gB, sB. eexists _, _. split_and!; try done.
    + rewrite Hstep, HgA1.
      rewrite (settle_write w1 rid u r (RPS gA s') (RPS gB sB)) by done.
      cbv zeta. cbn [creator comp]. unfold w1. cbn [creator user tbl].
      by rewrite HuA, rps_receive_comp.
    + rewrite Hstep, HgA1.
      rewrite (settle_write w1 rid u r (RPS gA s') (RPS gB sB)) by done.
      cbv zeta. cbn [joiner comp]. unfold w1. cbn [joiner user tbl].
      by rewrite HuB, rps_receive_comp.
  - rewrite HcB in Hcomp. injection Hcomp as <- <-.
    exists r, gA, sA, gB, s'. eexists _, _. split_and!; try done.
    + rewrite Hstep, HgB1.
      rewrite (settle_write w1 rid u r (RPS gA sA) (RPS gB s')) by done.
      cbv zeta. cbn [creator comp]. unfold w1. cbn [creator user tbl].
      by rewrite HuA, rps_receive_comp.
    + rewrite Hstep, HgB1.
      rewrite (settle_write w1 rid u r (RPS gA sA) (RPS gB s')) by done.
      cbv zeta. cbn [joiner comp]. unfold w1. cbn [joiner user tbl].
      by rewrite HuB, rps_receive_comp.
Qed.

(** X21: the panels of Rock-Paper-Scissors after a choice, in a settled
    run.  After the first choice of a game the chooser is shown the
    chosen entry and the wait for the opponent, and no buttons.  After
    the choice that meets the opponent's both players are shown a
    result, each with the own choice and the opponent's, no buttons, and
    the banners are complementary: a draw for both on equal choices,
    otherwise won for the player whose choice defeats the other's and
    lost for the other. *)
Theorem panels_after_a_choice (db0 : rooms) (tbl0 : stats_table)
    (A B rid : string) (now : Z) (w : World) (p : side) (ch : string)
    (g : GameRoom) (s s' : RockPaperScissors.State) (u : RoomUpdate) :
  A ≠ B → db0 !! rid = None → keyed db0 →
  reachable db0 tbl0 A B "rock_paper_scissors" rid now w →
  comp (client p w) = Some (RPS g s) →
  RockPaperScissors.buttons_rendered s = true → ch ∈ RockPaperScissors.choices →
  RockPaperScissors.makeChoice (user (client p w)) g (clock w) ch s = Some (s', u) →
  let w' := settle (step (Choose p ch) w) in
  ∃ r' gA sA gB sB,
    db w' !! rid = Some r'
    ∧ comp (creator w') = Some (RPS gA sA) ∧ comp (joiner w') = Some (RPS gB sB)
    ∧ ((status r' ≠ "completed"
        ∧ ∃ gp sp, comp (client p w') = Some (RPS gp sp)
            ∧ rps_render (Some (player A B p)) gp sp
              = RpsWaitingForChoice (shown_choice (Some ch))
            ∧ is_Some (shown_choice (Some ch))
            ∧ RockPaperScissors.buttons_rendered sp = false)
       ∨ (∃ c1 c2,
            status r' = "completed"
            ∧ player1Choice (game_state r') = Some c1
            ∧ player2Choice (game_state r') = Some c2
            ∧ is_Some (shown_choice (Some c1)) ∧ is_Some (shown_choice (Some c2))
            ∧ RockPaperScissors.buttons_rendered sA = false
            ∧ RockPaperScissors.buttons_rendered sB = false
            ∧ rps_render (Some A) gA sA
              = RpsResult
                  (if bool_decide (c1 = c2) then Draw
                   else if bool_decide (RockPaperScissors.winConditions c1 = Some c2)
                        then Won else Lost)
                  (shown_choice (Some c1)) (shown_choice (Some c2))
            ∧ rps_render (Some B) gB sB
              = RpsResult
                  (if bool_decide (c1 = c2) then Draw
                   else if bool_decide (RockPaperScissors.winConditions c1 = Some c2)
                        then Lost else Won)
                  (shown_choice (Some c2)) (shown_choice (Some c1)))).
Proof.
  intros HAB Hfresh Hkeys Hreach Hcomp Hbtn Hch Hmk w'.
  assert (Hgt : "rock_paper_scissors" ∈ supported_game_types)
    by (unfold supported_game_types; apply elem_of_cons; right; apply elem_of_cons; by left).
  pose proof (reachable_inv A B rid HAB db0 tbl0 _ now w Hgt Hfresh Hkeys Hreach) as Hinv.
  destruct (choose_accepted A B rid HAB w p ch g s s' u Hinv Hcomp Hbtn Hch Hmk)
    as (r & Hrow & Hrok & Hs & Hopen & _ & Hrow' & Hinv').
  destruct (choose_settles A B rid w p ch g s s' u HAB Hinv Hcomp Hbtn Hch Hmk)
    as (r0 & gA & sA & gB & sB & tA & tB & Hrow0 & HgA & HgB & Hp & HcA' & HcB').
  assert (r0 = r) as -> by congruence. fold w' in Hrow', Hinv', HcA', HcB'.
  pose proof (inv_user A B rid w p Hinv) as Hu. rewrite Hu in Hmk.
  (* the update does not name the second player *)
  assert (Hmk' : RockPaperScissors.st_myChoice s' = Some ch
                 ∧ RockPaperScissors.st_result s' = RockPaperScissors.st_result s
                 ∧ u_player2_id u = None).
  { unfold RockPaperScissors.makeChoice in Hmk.
    destruct (_ || _); [done|]. injection Hmk as <- <-.
    split; [done|]. split; [done|]. by destruct (truthy _). }
  destruct Hmk' as (Hmine & Hres & Hu2).
  set (r' := apply_update u r) in *.
  assert (Hp2 : truthy (player2_id r') = true).
  { unfold RockPaperScissors.buttons_rendered in Hbtn. rewrite Hs in Hbtn.
    unfold r'. simpl. rewrite Hu2. simpl.
    by destruct (truthy (player2_id r)). }
  assert (Hquiet : truthy (RockPaperScissors.st_result s) = false).
  { unfold RockPaperScissors.buttons_rendered in Hbtn.
    destruct (truthy (RockPaperScissors.st_result s)); [|done].
    by rewrite andb_false_r in Hbtn. }
  exists r', gA. eexists. exists gB. eexists.
  split; [done|]. split; [exact HcA'|]. split; [exact HcB'|].
  destruct (decide (status r' = "completed")) as [Hst|Hst].
  - right.
    assert (Hrok' : rps_row_ok r').
    { destruct Hinv' as [r1 ? ? Hr1 ? Hok1 ? ? ? ? ? ? ? ? ? ?].
      assert (r1 = r') as -> by congruence.
      destruct Hok1 as [[Hg1 _]|[_ H]]; [|done].
      exfalso. destruct Hinv as [r2 kA2 ? Hr2 ? Hok2 ? ? HcA2 ? HmA2 ? ? ? ? HB2].
      assert (r2 = r) as -> by congruence.
      assert (game_type r = "rock_paper_scissors");
        [|by (change (game_type r') with (game_type r) in Hg1; congruence)].
      destruct p; simpl in Hcomp.
      - rewrite HcA2 in Hcomp. injection Hcomp as ->. by destruct HmA2 as (? & _).
      - destruct HB2 as [(Hn & _)|(kB & HcB & _ & _ & _ & HmB & _)]; [congruence|].
        rewrite HcB in Hcomp. injection Hcomp as ->. by destruct HmB as (? & _). }
    destruct (rps_completed r' Hrok' Hst) as [[c1 H1] [c2 H2]].
    pose proof (slot1 r' Hrok' c1 H1) as Hin1.
    pose proof (slot2 r' Hrok' c2 H2) as Hin2.
    pose proof (choice_truthy c1 Hin1) as Ht1.
    pose proof (choice_truthy c2 Hin2) as Ht2.
    assert (Hc1 : c1 ≠ "") by (by apply bool_decide_eq_true in Ht1).
    assert (Hc2 : c2 ≠ "") by (by apply bool_decide_eq_true in Ht2).
    exists c1, c2. split; [done|]. split; [done|]. split; [done|].
    split; [by apply shown_choice_label|]. split; [by apply shown_choice_label|].
    destruct (rps_receive_result (Some A) gA sA r' tA c1 c2 H1 H2 Hc1 Hc2 Hst)
      as (_ & HsA & HrA).
    destruct (rps_receive_result (Some B) gB sB r' tB c1 c2 H1 H2 Hc1 Hc2 Hst)
      as (_ & HsB & HrB).
    rewrite (creator_is_first A B HAB gA HgA) in HrA.
    rewrite (joiner_is_second A B HAB gB HgB) in HrB.
    (* each component records its own choice *)
    destruct Hinv' as [r1 kA' _ Hr1 _ _ _ _ HcA1 _ HmA _ _ _ _ HB'].
    assert (r1 = r') as -> by congruence.
    rewrite HcA' in HcA1. injection HcA1 as <-.
    destruct HmA as (_ & _ & HmyA).
    rewrite (creator_is_first A B HAB gA HgA), H1 in HmyA.
    destruct HB' as [(Hn & _)|(kB' & HcB1 & _ & _ & _ & HmB & _)]; [congruence|].
    rewrite HcB' in HcB1. injection HcB1 as <-.
    destruct HmB as (_ & _ & HmyB).
    rewrite (joiner_is_second A B HAB gB HgB), H2 in HmyB.
    unfold RockPaperScissors.buttons_rendered, rps_render.
    rewrite HsA, HsB, HmyA, HmyB, HrA, HrB, Hp2, Ht1, Ht2, H1, H2.
    rewrite (creator_is_first A B HAB gA HgA), (joiner_is_second A B HAB gB HgB).
    simpl. split; [done|]. split; [done|].
    destruct (bool_decide (c1 = c2)); [done|].
    destruct (bool_decide (RockPaperScissors.winConditions c1 = Some c2)); done.
  - left. split; [done|]. clearbody r'.
    assert (Hch' : truthy (Some ch) = true) by (by apply choice_truthy).
    destruct p; simpl in Hp; destruct Hp as [-> ->]; simpl.
    + eexists _, _. split; [exact HcA'|].
      rewrite rps_receive_pending by done.
      unfold rps_render, RockPaperScissors.buttons_rendered. simpl.
      rewrite Hp2, Hres, Hquiet, Hmine, Hch'. simpl.
      split; [done|]. split; [by apply shown_choice_label|done].
    + eexists _, _. split; [exact HcB'|].
      rewrite rps_receive_pending by done.
      unfold rps_render, RockPaperScissors.buttons_rendered. simpl.
      rewrite Hp2, Hres, Hquiet, Hmine, Hch'. simpl.
      split; [done|]. split; [by apply shown_choice_label|done].
Qed.

Lemma panels_after_a_choice_witness :
  let w := run_settled [Join; Choose Joiner "paper"] rps_opened in
  let w' := settle (step (Choose Creator "rock") w) in
  "ann" ≠ "bob" ∧ (∅ : rooms) !! "r1" = None
  ∧ ∃ g s s' u,
      comp (client Creator w) = Some (RPS g s)
      ∧ RockPaperScissors.buttons_rendered s = true
      ∧ "rock" ∈ RockPaperScissors.choices
      ∧ RockPaperScissors.makeChoice (user (client Creator w)) g (clock w) "rock" s
        = Some (s', u)
      ∧ ∃ r' gA sA gB sB,
          db w' !! "r1" = Some r'
          ∧ comp (creator w') = Some (RPS gA sA) ∧ comp (joiner w') = Some (RPS gB sB)
          ∧ ((status r' ≠ "completed"
              ∧ ∃ gp sp, comp (client Creator w') = Some (RPS gp sp)
                  ∧ rps_render (Some "ann") gp sp
                    = RpsWaitingForChoice (shown_choice (Some "rock"))
                  ∧ is_Some (shown_choice (Some "rock"))
                  ∧ RockPaperScissors.buttons_rendered sp = false)
             ∨ (∃ c1 c2,
                  status r' = "completed"
                  ∧ player1Choice (game_state r') = Some c1
                  ∧ player2Choice (game_state r') = Some c2
                  ∧ is_Some (shown_choice (Some c1)) ∧ is_Some (shown_choice (Some c2))
                  ∧ RockPaperScissors.buttons_rendered sA = false
                  ∧ RockPaperScissors.buttons_rendered sB = false
                  ∧ rps_render (Some "ann") gA sA
                    = RpsResult
                        (if bool_decide (c1 = c2) then Draw
                         else if bool_decide
                                   (RockPaperScissors.winConditions c1 = Some c2)
                              then Won else Lost)
                        (shown_choice (Some c1)) (shown_choice (Some c2))
                  ∧ rps_render (Some "bob") gB sB
                    = RpsResult
                        (if bool_decide (c1 = c2) then Draw
                         else if bool_decide
                                   (RockPaperScissors.winConditions c1 = Some c2)
                              then Lost else Won)
                        (shown_choice (Some c2)) (shown_choice (Some c1)))).
Proof.
  intros w w'.
  assert (H1 : "ann" ≠ "bob") by done.
  assert (Hr : reachable ∅ ∅ "ann" "bob" "rock_paper_scissors" "r1" 100 w)
    by (by exists [Join; Choose Joiner "paper"]).
  split; [done|]. split; [done|].
  eexists _, _, _, _.
  split; [vm_compute; reflexivity|].
  split; [vm_compute; reflexivity|].
  split; [unfold RockPaperScissors.choices; set_solver|].
  split; [vm_compute; reflexivity|].
  eapply (panels_after_a_choice ∅ ∅ "ann" "bob" "r1" 100 w Creator "rock"
            _ _ _ _ H1 (lookup_empty "r1") keyed_empty Hr);
    [ vm_compute; reflexivity | vm_compute; reflexivity
    | unfold RockPaperScissors.choices; set_solver | vm_compute; reflexivity ].
Defined.

(** ** Rock-Paper-Scissors in arbitrary schedules *)

Lemma slots_owned_mono (a b a' b' : bool) (x : GameRoom) :
  (a = true → a' = true) → (b = true → b' = true) →
  slots_owned a b x → slots_owned a' b' x.
Proof.
  intros Ha Hb [H1 H2 H3]. split.
  - intros H. by apply Ha, H1.
  - intros H. by apply Hb, H2.
  - intros H. destruct (H3 H). split; [by apply Ha|by apply Hb].
Qed.

Lemma completed_rows_skip (l : list notification) :
  completed_rows (LobbyChange :: l) = completed_rows l.
Proof. done. Qed.

Lemma completed_rows_cons (x : GameRoom) (l : list notification) :
  completed_rows (RoomChanged x :: l)
  = (if decide (status x = "completed") then 1 else 0) + completed_rows l.
Proof.
  unfold completed_rows. simpl. rewrite filter_cons.
  destruct (decide (status x = "completed")); simpl; lia.
Qed.

Lemma completed_rows_app (l1 l2 : list notification) :
  completed_rows (l1 ++ l2) = completed_rows l1 + completed_rows l2.
Proof.
  unfold completed_rows. rewrite payloads_app, filter_app, length_app. lia.
Qed.

Lemma completed_rows_nonneg (l : list notification) : 0 ≤ completed_rows l.
Proof. unfold completed_rows. lia. Qed.

Lemma completed_rows_first (a b : bool) (l : list notification) :
  Forall (slots_owned a b) (payloads l) → a && b = false → completed_rows l = 0.
Proof.
  intros Hown Hab. unfold completed_rows.
  induction Hown as [|x l' [_ _ H3] _ IH]; [done|].
  rewrite filter_cons. destruct (decide (status x = "completed")) as [Hst|_]; [|done].
  destruct (H3 Hst) as [-> ->]. done.
Qed.

Lemma counted_updateStats (t0 t : stats_table) (u : string) (won : bool) :
  counted t0 (RockPaperScissors.updateStats (Some u) won t) u = counted t0 t u + 1.
Proof.
  unfold counted, RockPaperScissors.updateStats. rewrite lookup_insert_eq. simpl. lia.
Qed.

Lemma counted_updateStats_ne (t0 t : stats_table) (u v : string) (won : bool) :
  u ≠ v → counted t0 (RockPaperScissors.updateStats (Some u) won t) v = counted t0 t v.
Proof.
  intros Hne. unfold counted, RockPaperScissors.updateStats.
  by rewrite lookup_insert_ne.
Qed.

Lemma won_updateStats (t0 t : stats_table) (u : string) (won : bool) :
  won_counted t0 (RockPaperScissors.updateStats (Some u) won t) u
  = won_counted t0 t u + (if won then 1 else 0).
Proof.
  unfold won_counted, RockPaperScissors.updateStats. rewrite lookup_insert_eq. simpl. lia.
Qed.

Lemma won_updateStats_ne (t0 t : stats_table) (u v : string) (won : bool) :
  u ≠ v → won_counted t0 (RockPaperScissors.updateStats (Some u) won t) v
          = won_counted t0 t v.
Proof.
  intros Hne. unfold won_counted, RockPaperScissors.updateStats.
  by rewrite lookup_insert_ne.
Qed.

(** The callback: the choice made is kept, the copy is the delivered
    row, and the table changes only by one count for the user, on a
    completed row. *)
Lemma rps_on_update_cases (u : string) (g x : GameRoom) (s : RockPaperScissors.State)
    (t : stats_table) :
  RockPaperScissors.st_myChoice (RockPaperScissors.on_update (Some u) g x s t).1
  = RockPaperScissors.st_myChoice s
  ∧ RockPaperScissors.st_gameState (RockPaperScissors.on_update (Some u) g x s t).1 = x
  ∧ ((RockPaperScissors.on_update (Some u) g x s t).2 = t
     ∨ (status x = "completed"
        ∧ ∃ won, (RockPaperScissors.on_update (Some u) g x s t).2
                 = RockPaperScissors.updateStats (Some u) won t)).
Proof.
  unfold RockPaperScissors.on_update, RockPaperScissors.determineWinner.
  destruct (bool_decide_reflect (status x = "completed")) as [Hst|Hst];
    [|simpl; by auto].
  destruct (negb _ || negb _); [simpl; by auto|].
  destruct (bool_decide (player1Choice (game_state x) = player2Choice (game_state x)));
    (split; [done|]); (split; [done|]); right; (split; [done|]); eexists; reflexivity.
Qed.

Section Choosing.
Variables A B rid : string.
Variable t0 : stats_table.
Hypothesis HAB : A ≠ B.

Lemma chosen_mounted (u : option string) (l : Games.State) (g : GameRoom)
    (s : RockPaperScissors.State) (q : list notification) :
  chosen (mkClient u l (Some (RPS g s)) q) = truthy (RockPaperScissors.st_myChoice s).
Proof. done. Qed.

Lemma chosen_push (l : list notification) (c : Client) : chosen (push l c) = chosen c.
Proof. done. Qed.

Lemma rps_inv_tick (w : World) : rps_inv A B rid t0 w → rps_inv A B rid t0 (tick w).
Proof. intros [r gA sA]. by econstructor. Qed.

Lemma click_rps_inv (w : World) (p : side) (i : nat) :
  rps_inv A B rid t0 w → do_click p i w = w.
Proof.
  intros [r gA sA Hkeys Hrow Hgt Hp1 HuA HcA HgA HaA HuB Hown HnA HnB Hfirst Hwon HB].
  unfold do_click. destruct p; simpl.
  - by rewrite HcA.
  - destruct HB as [(-> & _)|(gB & sB & -> & _)]; done.
Qed.

Lemma deliver_rps_inv (w : World) (p : side) :
  rps_inv A B rid t0 w → rps_inv A B rid t0 (do_deliver p w).
Proof.
  intros [r gA sA Hkeys Hrow Hgt Hp1 HuA HcA HgA HaA HuB Hown HnA HnB Hfirst Hwon HB].
  assert (HchA : chosen (creator w) = truthy (RockPaperScissors.st_myChoice sA))
    by (unfold chosen; by rewrite HcA).
  unfold do_deliver. destruct p; simpl.
  - destruct (inbox (creator w)) as [|[|x] rest] eqn:Hq.
    + econstructor; rewrite ?Hq; done.
    + eapply (RpsInv A B rid t0 _ r gA sA); simpl; try done.
    + rewrite HcA. simpl. rewrite HuA.
      destruct (rps_on_update_cases A gA x sA (tbl w)) as (Hmy & Hgs & Htbl).
      destruct (RockPaperScissors.on_update (Some A) gA x sA (tbl w)) as [s' t'].
      cbn [fst snd] in Hmy, Hgs, Htbl. cbn [fst snd].
      rewrite completed_rows_cons in HnA.
      pose proof (completed_rows_nonneg rest) as Hnn.
      simpl in Hown.
      assert (Hx : slots_owned (chosen (creator w)) (chosen (joiner w)) x).
      { apply Forall_cons in Hown as [_ Hown]. apply Forall_cons in Hown as [_ Hown].
        by apply Forall_cons in Hown as [? _]. }
      eapply (RpsInv A B rid t0 _ r gA s'); simpl;
        rewrite ?chosen_mounted, ?Hmy, <- ?HchA; try done.
      * rewrite Hgs. apply Forall_cons in Hown as [? Hown].
        apply Forall_cons in Hown as [_ Hown]. by apply Forall_cons.
      * destruct Htbl as [->|(Hst & won & ->)].
        -- destruct (decide (status x = "completed")); lia.
        -- rewrite counted_updateStats. rewrite decide_True in HnA by done. lia.
      * destruct Htbl as [->|(Hst & won & ->)]; [done|].
        by rewrite counted_updateStats_ne.
      * destruct Htbl as [->|(Hst & won & ->)]; [done|].
        intros Hab. destruct (own_completed _ _ _ Hx Hst) as [Ha Hb].
        rewrite Ha, Hb in Hab. done.
      * destruct Htbl as [->|(Hst & won & ->)]; [done|].
        rewrite counted_updateStats, won_updateStats.
        rewrite counted_updateStats_ne, won_updateStats_ne by done.
        destruct won; lia.
      * destruct HB as [(HcB & Hp2 & Hch & Hfree & HqB & Hlist)|(gB & sB & HcB & HB)].
        -- left. split_and!; try done. rewrite Hgs.
           apply Forall_cons in Hfree as [_ Hfree]. done.
        -- right. exists gB, sB. done.
  - destruct (inbox (joiner w)) as [|[|x] rest] eqn:Hq.
    + econstructor; rewrite ?Hq; done.
    + eapply (RpsInv A B rid t0 _ r gA sA); simpl; try done.
      destruct HB as [(HcB & Hp2 & Hch & Hfree & HqB & Hlist)
                     |(gB & sB & HcB & HgB1 & HgB2 & HownB & Hlr)].
      * left. by split_and!.
      * right. exists gB, sB. by split_and!.
    + destruct HB as [(HcB & Hp2 & Hch & Hfree & HqB & Hlist)
                     |(gB & sB & HcB & HgB1 & HgB2 & HownB & Hlr)]; [done|].
      rewrite HcB. simpl. rewrite HuB.
      destruct (rps_on_update_cases B gB x sB (tbl w)) as (Hmy & Hgs & Htbl).
      destruct (RockPaperScissors.on_update (Some B) gB x sB (tbl w)) as [s' t'].
      cbn [fst snd] in Hmy, Hgs, Htbl. cbn [fst snd].
      assert (HchB : chosen (joiner w) = truthy (RockPaperScissors.st_myChoice sB))
        by (unfold chosen; by rewrite HcB).
      rewrite completed_rows_cons in HnB.
      pose proof (completed_rows_nonneg rest) as Hnn.
      simpl in HownB.
      assert (Hx : slots_owned (chosen (creator w)) (chosen (joiner w)) x).
      { apply Forall_cons in HownB as [_ HownB]. by apply Forall_cons in HownB as [? _]. }
      eapply (RpsInv A B rid t0 _ r gA sA); simpl;
        rewrite ?chosen_mounted, ?Hmy, <- ?HchB; try done.
      * destruct Htbl as [->|(Hst & won & ->)]; [done|].
        rewrite counted_updateStats_ne; [done|]. by intros ->.
      * destruct Htbl as [->|(Hst & won & ->)].
        -- destruct (decide (status x = "completed")); lia.
        -- rewrite counted_updateStats. rewrite decide_True in HnB by done. lia.
      * destruct Htbl as [->|(Hst & won & ->)]; [done|].
        intros Hab. destruct (own_completed _ _ _ Hx Hst) as [Ha Hb].
        rewrite Ha, Hb in Hab. done.
      * destruct Htbl as [->|(Hst & won & ->)]; [done|].
        rewrite counted_updateStats, won_updateStats.
        rewrite counted_updateStats_ne, won_updateStats_ne by (by intros ->).
        destruct won; lia.
      * right. exists gB, s'. split_and!; try done. rewrite Hgs.
        apply Forall_cons in HownB as [_ HownB]. done.
Qed.

(** The row an accepted choice writes: the writer's slot holds the
    choice, the other slot is the one of the writer's copy, and the
    status changes only to completed, when the copy shows the other
    player's choice. *)
Lemma makeChoice_row (uid : string) (g : GameRoom) (now : Z) (ch : string)
    (s s' : RockPaperScissors.State) (u : RoomUpdate) (r : GameRoom) :
  RockPaperScissors.makeChoice (Some uid) g now ch s = Some (s', u) →
  let local := game_state (RockPaperScissors.st_gameState s) in
  let r' := apply_update u r in
  truthy (RockPaperScissors.st_myChoice s) = false
  ∧ RockPaperScissors.st_myChoice s' = Some ch
  ∧ RockPaperScissors.st_gameState s' = RockPaperScissors.st_gameState s
  ∧ player2_id r' = player2_id r
  ∧ (if RockPaperScissors.isPlayer1 (Some uid) g
     then player1Choice (game_state r') = Some ch
          ∧ player2Choice (game_state r') = player2Choice local
          ∧ (status r' = status r
             ∨ (status r' = "completed" ∧ truthy (player2Choice local) = true))
     else player2Choice (game_state r') = Some ch
          ∧ player1Choice (game_state r') = player1Choice local
          ∧ (status r' = status r
             ∨ (status r' = "completed" ∧ truthy (player1Choice local) = true))).
Proof.
  unfold RockPaperScissors.makeChoice. simpl.
  destruct (truthy (RockPaperScissors.st_myChoice s)); [done|].
  intros [= <- <-]. split; [done|]. split; [done|]. split; [done|].
  destruct (RockPaperScissors.isPlayer1 (Some uid) g).
  - destruct (truthy (player2Choice _)) eqn:Hother; simpl; split_and!; auto.
  - destruct (truthy (player1Choice _)) eqn:Hother; simpl; split_and!; auto.
Qed.

Lemma choose_rps_inv (w : World) (p : side) (ch : string) :
  rps_inv A B rid t0 w → rps_inv A B rid t0 (do_choose p ch w).
Proof.
  intros Hinv. pose proof Hinv as Hinv0.
  destruct Hinv as [r gA sA Hkeys Hrow Hgt Hp1 HuA HcA [HgA1 HgA2] HaA HuB Hown HnA HnB
                      Hfirst Hwon HB].
  assert (Hsame : do_choose p ch w = w → rps_inv A B rid t0 (do_choose p ch w))
    by (by intros ->).
  assert (HchA : chosen (creator w) = truthy (RockPaperScissors.st_myChoice sA))
    by (unfold chosen; by rewrite HcA).
  assert (Hid : room_id r = rid) by (by apply Hkeys).
  destruct HB as [(HcB & Hp2 & Hch & Hfree & HqB & Hlist)
                 |(gB & sB & HcB & HgB1 & HgB2 & HownB & Hlr)].
  { (* nobody can choose before the second player has joined *)
    apply Hsame. unfold do_choose. destruct p; simpl.
    - rewrite HcA. apply Forall_cons in Hfree as [Hfree _].
      unfold RockPaperScissors.buttons_rendered. by rewrite Hfree.
    - by rewrite HcB. }
  assert (HchB : chosen (joiner w) = truthy (RockPaperScissors.st_myChoice sB))
    by (unfold chosen; by rewrite HcB).
  pose proof (creator_is_first A B HAB gA HgA2) as Hfst.
  pose proof (joiner_is_second A B HAB gB HgB2) as Hsnd.
  destruct p.
  - (* the creator chooses *)
    destruct (RockPaperScissors.buttons_rendered sA
              && bool_decide (ch ∈ RockPaperScissors.choices)) eqn:Hbtn;
      [|apply Hsame; unfold do_choose; simpl; by rewrite HcA, Hbtn].
    apply andb_true_iff in Hbtn as [Hbtn Hin]. apply bool_decide_eq_true in Hin.
    destruct (RockPaperScissors.makeChoice (Some A) gA (clock w) ch sA)
      as [[s' u]|] eqn:Hmk;
      [|apply Hsame; unfold do_choose; simpl; rewrite HcA, Hbtn, HuA, Hmk;
        by rewrite bool_decide_eq_true_2].
    destruct (makeChoice_row A gA (clock w) ch sA s' u r Hmk)
      as (Hnot & Hmy & Hgs & Hp2 & Hslots).
    rewrite Hfst in Hslots. destruct Hslots as (Hs1 & Hs2 & Hst).
    assert (Hstep : do_choose Creator ch w
            = write rid u (set_client Creator
                (mkClient (user (creator w)) (lobby (creator w)) (Some (RPS gA s'))
                          (inbox (creator w))) w)).
    { unfold do_choose. simpl. rewrite HcA, Hbtn, HuA, Hmk, HgA1.
      by rewrite bool_decide_eq_true_2. }
    rewrite Hstep.
    rewrite (write_both _ rid u r (RPS gA s') (RPS gB sB)) by done.
    set (r' := apply_update u r) in *.
    assert (Htr : truthy (Some ch) = true) by (by apply choice_truthy).
    rewrite <- HchA in Hnot.
    destruct (Hfirst ltac:(by rewrite Hnot)) as [HzA HzB].
    assert (Hab : chosen (creator w) && chosen (joiner w) = false) by (by rewrite Hnot).
    assert (HqA : completed_rows (inbox (creator w)) = 0).
    { apply (completed_rows_first _ _ _ (Forall_inv_tail (Forall_inv_tail Hown)) Hab). }
    assert (HqB : completed_rows (inbox (joiner w)) = 0).
    { apply (completed_rows_first _ _ _ (Forall_inv_tail HownB) Hab). }
    assert (Hgrow : ∀ x, slots_owned (chosen (creator w)) (chosen (joiner w)) x →
                         slots_owned true (chosen (joiner w)) x)
      by (intros x; by apply slots_owned_mono).
    assert (Hr' : slots_owned true (chosen (joiner w)) r').
    { pose proof (Forall_inv (Forall_inv_tail Hown)) as Hcopy.
      split; [done| |].
      - rewrite Hs2. apply (own_slot2 _ _ _ Hcopy).
      - intros Hc. split; [done|]. destruct Hst as [Heq|[_ Hother]].
        + rewrite Heq in Hc. destruct (own_completed _ _ _ (Forall_inv Hown) Hc) as [Ha _].
          congruence.
        + by apply (own_slot2 _ _ _ Hcopy). }
    assert (Hone : completed_rows [LobbyChange; RoomChanged r'] ≤ 1).
    { rewrite completed_rows_skip, completed_rows_cons.
      destruct (decide (status r' = "completed")); done. }
    pose proof (completed_rows_nonneg [LobbyChange; RoomChanged r']) as Hnn.
    cbv zeta. fold r'.
    eapply (RpsInv A B rid t0 _ r' gA s'); simpl;
      rewrite ?chosen_push, ?chosen_mounted, ?Hmy, ?Htr, ?completed_rows_app, ?payloads_app; try done.
    + intros k x. destruct (decide (k = rid)) as [->|Hne].
      * rewrite lookup_insert_eq. by intros [= <-].
      * rewrite lookup_insert_ne by done. apply Hkeys.
    + by rewrite lookup_insert_eq.
    + rewrite Hgs. apply Forall_cons. split; [done|].
      apply Forall_cons. split; [apply Hgrow, (Forall_inv (Forall_inv_tail Hown))|].
      apply Forall_app. split.
      * eapply Forall_impl; [exact (Forall_inv_tail (Forall_inv_tail Hown))|done].
      * simpl. by apply Forall_singleton.
    + lia.
    + lia.
    + right. exists gB, sB. split_and!; try done.
      apply Forall_cons. split; [apply Hgrow, (Forall_inv HownB)|].
      apply Forall_app. split.
      * eapply Forall_impl; [exact (Forall_inv_tail HownB)|done].
      * simpl. by apply Forall_singleton.
  - (* the joiner chooses *)
    destruct (RockPaperScissors.buttons_rendered sB
              && bool_decide (ch ∈ RockPaperScissors.choices)) eqn:Hbtn;
      [|apply Hsame; unfold do_choose; simpl; by rewrite HcB, Hbtn].
    apply andb_true_iff in Hbtn as [Hbtn Hin]. apply bool_decide_eq_true in Hin.
    destruct (RockPaperScissors.makeChoice (Some B) gB (clock w) ch sB)
      as [[s' u]|] eqn:Hmk;
      [|apply Hsame; unfold do_choose; simpl; rewrite HcB, Hbtn, HuB, Hmk;
        by rewrite bool_decide_eq_true_2].
    destruct (makeChoice_row B gB (clock w) ch sB s' u r Hmk)
      as (Hnot & Hmy & Hgs & Hp2 & Hslots).
    rewrite Hsnd in Hslots. destruct Hslots as (Hs2 & Hs1 & Hst).
    assert (Hstep : do_choose Joiner ch w
            = write rid u (set_client Joiner
                (mkClient (user (joiner w)) (lobby (joiner w)) (Some (RPS gB s'))
                          (inbox (joiner w))) w)).
    { unfold do_choose. simpl. rewrite HcB, Hbtn, HuB, Hmk, HgB1.
      by rewrite bool_decide_eq_true_2. }
    rewrite Hstep.
    rewrite (write_both _ rid u r (RPS gA sA) (RPS gB s')) by done.
    set (r' := apply_update u r) in *.
    assert (Htr : truthy (Some ch) = true) by (by apply choice_truthy).
    rewrite <- HchB in Hnot.
    destruct (Hfirst ltac:(by rewrite Hnot, andb_false_r)) as [HzA HzB].
    assert (Hab : chosen (creator w) && chosen (joiner w) = false)
      by (by rewrite Hnot, andb_false_r).
    assert (HqA : completed_rows (inbox (creator w)) = 0).
    { apply (completed_rows_first _ _ _ (Forall_inv_tail (Forall_inv_tail Hown)) Hab). }
    assert (HqB : completed_rows (inbox (joiner w)) = 0).
    { apply (completed_rows_first _ _ _ (Forall_inv_tail HownB) Hab). }
    assert (Hgrow : ∀ x, slots_owned (chosen (creator w)) (chosen (joiner w)) x →
                         slots_owned (chosen (creator w)) true x)
      by (intros x; by apply slots_owned_mono).
    assert (Hr' : slots_owned (chosen (creator w)) true r').
    { pose proof (Forall_inv HownB) as Hcopy.
      split; [|done|].
      - rewrite Hs1. apply (own_slot1 _ _ _ Hcopy).
      - intros Hc. split; [|done]. destruct Hst as [Heq|[_ Hother]].
        + rewrite Heq in Hc. destruct (own_completed _ _ _ (Forall_inv Hown) Hc) as [_ Hb].
          congruence.
        + by apply (own_slot1 _ _ _ Hcopy). }
    assert (Hone : completed_rows [LobbyChange; RoomChanged r'] ≤ 1).
    { rewrite completed_rows_skip, completed_rows_cons.
      destruct (decide (status r' = "completed")); done. }
    pose proof (completed_rows_nonneg [LobbyChange; RoomChanged r']) as Hnn.
    cbv zeta. fold r'.
    eapply (RpsInv A B rid t0 _ r' gA sA); simpl;
      rewrite ?chosen_push, ?chosen_mounted, ?Hmy, ?Htr, ?completed_rows_app, ?payloads_app,
        <- ?HchA; try done.
    + intros k x. destruct (decide (k = rid)) as [->|Hne].
      * rewrite lookup_insert_eq. by intros [= <-].
      * rewrite lookup_insert_ne by done. apply Hkeys.
    + by rewrite lookup_insert_eq.
    + apply Forall_cons. split; [done|].
      apply Forall_cons. split; [apply Hgrow, (Forall_inv (Forall_inv_tail Hown))|].
      apply Forall_app. split.
      * eapply Forall_impl; [exact (Forall_inv_tail (Forall_inv_tail Hown))|done].
      * simpl. by apply Forall_singleton.
    + lia.
    + lia.
    + right. exists gB, s'. rewrite Hgs. split_and!; try done.
      apply Forall_cons. split; [apply Hgrow, (Forall_inv HownB)|].
      apply Forall_app. split.
      * eapply Forall_impl; [exact (Forall_inv_tail HownB)|done].
      * simpl. by apply Forall_singleton.
Qed.

Lemma join_rps_inv (w : World) : rps_inv A B rid t0 w → rps_inv A B rid t0 (do_join w).
Proof.
  intros Hinv. pose proof Hinv as Hinv0.
  destruct Hinv as [r gA sA Hkeys Hrow Hgt Hp1 HuA HcA [HgA1 HgA2] HaA HuB Hown HnA HnB
                      Hfirst Hwon HB].
  assert (Hsame : do_join w = w → rps_inv A B rid t0 (do_join w)) by (by intros ->).
  destruct HB as [(HcB & Hp2 & Hch & Hfree & HqB & Hlist)
                 |(gB & sB & HcB & HgB1 & HgB2 & HownB & Hlr)].
  - destruct (find (λ x, bool_decide (room_id x = rid))
                (Games.availableRooms (lobby (joiner w)))) as [room|] eqn:Hfind;
      [|apply Hsame; unfold do_join; by rewrite HaA, HgA1, Hfind].
    destruct (Games.lobby_rendered (lobby (joiner w))) eqn:Hlr;
      [|apply Hsame; unfold do_join; by rewrite HaA, HgA1, Hfind, Hlr].
    rewrite Hlist in Hfind. pose proof Hfind as Hlisted.
    apply (listed_room_is_stored rid) with (r := r) in Hlisted as (-> & _ & _); [|done..].
    rewrite <- Hlist in Hfind.
    assert (Hid : room_id r = rid) by (by apply Hkeys).
    rewrite (do_join_free w B rid r gA (RPS gA sA)) by (done || congruence).
    set (r' := apply_update (Games.join_update B) r).
    assert (HchB : chosen (joiner w) = false) by (unfold chosen; by rewrite HcB).
    rewrite Hch, HchB in Hown.
    assert (Hr : slots_owned false false r) by apply (Forall_inv Hown).
    assert (Hs1 : truthy (player1Choice (game_state r')) = false).
    { destruct (truthy (player1Choice (game_state r'))) eqn:E; [|done].
      symmetry. by apply (own_slot1 _ _ _ Hr). }
    assert (Hs2 : truthy (player2Choice (game_state r')) = false).
    { destruct (truthy (player2Choice (game_state r'))) eqn:E; [|done].
      symmetry. by apply (own_slot2 _ _ _ Hr). }
    assert (Hr' : slots_owned false false r').
    { split; [by rewrite Hs1|by rewrite Hs2|done]. }
    assert (Hmount : RockPaperScissors.mount (Some B) r'
                     = RockPaperScissors.mkState None r' None).
    { unfold RockPaperScissors.mount. cbv zeta. by rewrite Hs1, Hs2. }
    destruct (Hfirst ltac:(by rewrite Hch)) as [HzA HzB].
    assert (HqA : completed_rows (inbox (creator w)) = 0).
    { by apply (completed_rows_first false false _
                  (Forall_inv_tail (Forall_inv_tail Hown))). }
    assert (HqB' : completed_rows (inbox (joiner w)) = 0)
      by (unfold completed_rows; by rewrite HqB).
    simpl. unfold render. simpl. rewrite Hgt. simpl. rewrite Hmount.
    eapply (RpsInv A B rid t0 _ r' gA sA); simpl;
      rewrite ?chosen_push, ?chosen_mounted, ?Hch, ?completed_rows_app, ?payloads_app;
      simpl; try done.
    + intros k x. destruct (decide (k = rid)) as [->|Hne].
      * rewrite lookup_insert_eq. by intros [= <-].
      * rewrite lookup_insert_ne by done. apply Hkeys.
    + by rewrite lookup_insert_eq.
    + apply Forall_cons. split; [done|].
      apply Forall_cons. split; [apply (Forall_inv (Forall_inv_tail Hown))|].
      apply Forall_app. split; [exact (Forall_inv_tail (Forall_inv_tail Hown))|].
      by apply Forall_singleton.
    + rewrite completed_rows_skip, completed_rows_cons.
      rewrite decide_False by done. change (completed_rows []) with 0. lia.
    + change (completed_rows [LobbyChange]) with 0. lia.
    + right. exists r', (RockPaperScissors.mkState None r' None). simpl.
      rewrite HqB. simpl. split_and!; first [done | by apply Forall_singleton].
  - apply Hsame. unfold do_join. rewrite HaA.
    destruct (find _ _); [|done]. by rewrite Hlr.
Qed.

Lemma step_rps_inv (w : World) (a : action) :
  rps_inv A B rid t0 w → rps_inv A B rid t0 (step a w).
Proof.
  intros Hinv. unfold step. apply rps_inv_tick. destruct a as [|p i|p ch|p].
  - by apply join_rps_inv.
  - by rewrite click_rps_inv.
  - by apply choose_rps_inv.
  - by apply deliver_rps_inv.
Qed.

Lemma run_rps_inv (l : list action) (w : World) :
  rps_inv A B rid t0 w → rps_inv A B rid t0 (run l w).
Proof.
  revert w. induction l as [|a l IH]; intros w Hinv; [done|].
  simpl. apply IH. by apply step_rps_inv.
Qed.

End Choosing.

(** The state after room creation satisfies the invariant. *)
Lemma opened_rps_inv (A B rid : string) (db0 : rooms) (tbl0 : stats_table) (now : Z) :
  A ≠ B → db0 !! rid = None → keyed db0 →
  rps_inv A B rid tbl0 (opened db0 tbl0 A B "rock_paper_scissors" rid now).
Proof.
  intros HAB Hfresh Hkeys. unfold opened, create_world, Games.createRoom, db_insert.
  assert (Hgt : "rock_paper_scissors" ∈ supported_game_types)
    by (unfold supported_game_types; apply elem_of_cons; right; apply elem_of_cons; by left).
  rewrite decide_True by done. simpl.
  set (r := mkGameRoom rid "rock_paper_scissors" A None empty_state "waiting" None now None).
  unfold settle, deliver_all, step, tick, do_deliver; simpl.
  unfold render; simpl.
  assert (Hown : slots_owned false false r) by (by split).
  assert (Hz : ∀ u, counted tbl0 tbl0 u = 0) by (intros u; unfold counted; lia).
  assert (Hz' : ∀ u, won_counted tbl0 tbl0 u = 0) by (intros u; unfold won_counted; lia).
  eapply (RpsInv A B rid tbl0 _ r r (RockPaperScissors.mount (Some A) r)); simpl;
    rewrite ?Hz, ?Hz'; first [ done | by rewrite lookup_insert_eq | by destruct (tbl0 !! A)
                       | by destruct (tbl0 !! B) | idtac ].
  - intros k x. destruct (decide (k = rid)) as [->|Hne].
    + rewrite lookup_insert_eq. by intros [= <-].
    + rewrite lookup_insert_ne by done. apply Hkeys.
  - repeat constructor; done.
  - left. split_and!; first [done | by repeat constructor | by destruct (tbl0 !! B)].
Qed.

Lemma choosing_inv (A B rid : string) (db0 : rooms) (tbl0 : stats_table) (now : Z)
    (w : World) :
  A ≠ B → db0 !! rid = None → keyed db0 →
  choosing db0 tbl0 A B rid now w → rps_inv A B rid tbl0 w.
Proof.
  intros HAB Hfresh Hkeys [l ->]. apply run_rps_inv; [done|].
  by apply opened_rps_inv.
Qed.

(** X22: in every schedule of choices and deliveries a round of
    Rock-Paper-Scissors is counted at most once for each player: the
    game counter of a player grows by at most one, the win counter by
    no more than the game counter, and nothing is counted before both
    players have chosen. *)
Theorem round_counted_at_most_once (db0 : rooms) (tbl0 : stats_table)
    (A B rid : string) (now : Z) (w : World) :
  A ≠ B → db0 !! rid = None → keyed db0 →
  choosing db0 tbl0 A B rid now w →
  (0 ≤ won_counted tbl0 (tbl w) A ≤ counted tbl0 (tbl w) A ∧ counted tbl0 (tbl w) A ≤ 1)
  ∧ (0 ≤ won_counted tbl0 (tbl w) B ≤ counted tbl0 (tbl w) B ∧ counted tbl0 (tbl w) B ≤ 1)
  ∧ (chosen (creator w) && chosen (joiner w) = false →
     counted tbl0 (tbl w) A = 0 ∧ counted tbl0 (tbl w) B = 0).
Proof.
  intros HAB Hfresh Hkeys Hw.
  destruct (choosing_inv A B rid db0 tbl0 now w HAB Hfresh Hkeys Hw)
    as [r gA sA _ _ _ _ _ _ _ _ _ _ HnA HnB Hfirst Hwon _].
  pose proof (completed_rows_nonneg (inbox (creator w))).
  pose proof (completed_rows_nonneg (inbox (joiner w))).
  split; [lia|]. split; [lia|done].
Qed.

Lemma round_counted_at_most_once_witness :
  let w := run rps_round rps_opened in
  "ann" ≠ "bob" ∧ (∅ : rooms) !! "r1" = None
  ∧ counted ∅ (tbl w) "ann" = 1 ∧ counted ∅ (tbl w) "bob" = 1
  ∧ won_counted ∅ (tbl w) "ann" = 0 ∧ won_counted ∅ (tbl w) "bob" = 1
  ∧ counted ∅ (tbl (run (rps_round ++ [Choose Creator "paper"; Deliver Joiner]) rps_opened))
      "bob" ≤ 1.
Proof.
  intros w.
  assert (H1 : "ann" ≠ "bob") by done.
  split; [done|]. split; [done|].
  split; [vm_compute; reflexivity|]. split; [vm_compute; reflexivity|].
  split; [vm_compute; reflexivity|]. split; [vm_compute; reflexivity|].
  assert (Hw : choosing ∅ ∅ "ann" "bob" "r1" 100
                 (run (rps_round ++ [Choose Creator "paper"; Deliver Joiner]) rps_opened))
    by (by eexists).
  exact (proj2 (proj1 (proj2
           (round_counted_at_most_once ∅ ∅ "ann" "bob" "r1" 100 _ H1 (lookup_empty "r1")
              keyed_empty Hw)))).
Defined.

Section Final.
Variables A B rid : string.
Variable t0 : stats_table.
Hypothesis HAB : A ≠ B.

(** A delivery changes neither the room table nor who has chosen. *)
Lemma deliver_keeps (w : World) (p : side) :
  rps_inv A B rid t0 w →
  db (do_deliver p w) = db w
  ∧ chosen (creator (do_deliver p w)) = chosen (creator w)
  ∧ chosen (joiner (do_deliver p w)) = chosen (joiner w).
Proof.
  intros [r gA sA Hkeys Hrow Hgt Hp1 HuA HcA HgA HaA HuB Hown HnA HnB Hfirst Hwon HB].
  unfold do_deliver. destruct p; simpl.
  - destruct (inbox (creator w)) as [|[|x] rest]; [done| |].
    + split_and!; first [done | unfold chosen; by rewrite HcA].
    + rewrite HcA. simpl. rewrite HuA.
      destruct (rps_on_update_cases A gA x sA (tbl w)) as (Hmy & _ & _).
      destruct (RockPaperScissors.on_update (Some A) gA x sA (tbl w)) as [s' t'].
      cbn [fst] in Hmy. simpl. split_and!; first [done | unfold chosen; simpl; by rewrite HcA, Hmy].
  - destruct (inbox (joiner w)) as [|[|x] rest]; [done| |].
    + split_and!; first [done | unfold chosen; simpl; by destruct (comp (joiner w))].
    + destruct HB as [(HcB & _)|(gB & sB & HcB & _)].
      * rewrite HcB. simpl.
        split_and!; first [done | unfold chosen; simpl; by rewrite HcB].
      * rewrite HcB. simpl. rewrite HuB.
        destruct (rps_on_update_cases B gB x sB (tbl w)) as (Hmy & _ & _).
        destruct (RockPaperScissors.on_update (Some B) gB x sB (tbl w)) as [s' t'].
        cbn [fst] in Hmy. simpl. split_and!; first [done | unfold chosen; simpl; by rewrite HcB, Hmy].
Qed.

(** Once both players have chosen, no action writes to the room. *)
Lemma both_chosen_step (w : World) (a : action) :
  rps_inv A B rid t0 w →
  chosen (creator w) = true → chosen (joiner w) = true →
  db (step a w) = db w
  ∧ chosen (creator (step a w)) = true ∧ chosen (joiner (step a w)) = true.
Proof.
  intros Hinv HchA HchB. pose proof Hinv as Hinv0.
  destruct Hinv as [r gA sA Hkeys Hrow Hgt Hp1 HuA HcA HgA HaA HuB Hown HnA HnB Hfirst
                      Hwon HB].
  assert (Hsame : ∀ w', w' = w →
            db (tick w') = db w ∧ chosen (creator (tick w')) = true
            ∧ chosen (joiner (tick w')) = true) by (by intros w' ->).
  destruct HB as [(HcB & _)|(gB & sB & HcB & _ & _ & _ & Hlr)];
    [unfold chosen in HchB; by rewrite HcB in HchB|].
  unfold step. destruct a as [|p i|p ch|p].
  - apply Hsame. unfold do_join. rewrite HaA.
    destruct (find _ _); [|done]. by rewrite Hlr.
  - apply Hsame. by apply (click_rps_inv A B rid t0).
  - apply Hsame. unfold do_choose. destruct p; simpl.
    + rewrite HcA. unfold chosen in HchA. rewrite HcA in HchA.
      unfold RockPaperScissors.buttons_rendered. rewrite HchA. simpl.
      by rewrite andb_false_r.
    + rewrite HcB. unfold chosen in HchB. rewrite HcB in HchB.
      unfold RockPaperScissors.buttons_rendered. rewrite HchB. simpl.
      by rewrite andb_false_r.
  - destruct (deliver_keeps w p Hinv0) as (Hd & Ha & Hb).
    change (db (tick (do_deliver p w))) with (db (do_deliver p w)).
    change (creator (tick (do_deliver p w))) with (creator (do_deliver p w)).
    change (joiner (tick (do_deliver p w))) with (joiner (do_deliver p w)).
    by rewrite Hd, Ha, Hb.
Qed.

Lemma both_chosen_run (l : list action) (w : World) :
  rps_inv A B rid t0 w →
  chosen (creator w) = true → chosen (joiner w) = true →
  db (run l w) = db w.
Proof.
  revert w. induction l as [|a l IH]; intros w Hinv HchA HchB; [done|].
  destruct (both_chosen_step w a Hinv HchA HchB) as (Hd & Ha & Hb).
  simpl. rewrite IH; [done| |done|done]. by apply step_rps_inv.
Qed.

End Final.

(** X23: in every schedule a completed round of Rock-Paper-Scissors is
    final.  The stored row is completed only after both players have
    chosen, and whatever is chosen, clicked, joined or delivered
    afterwards, in whatever order, the table of rooms stays as it is. *)
Theorem completed_round_never_changes (db0 : rooms) (tbl0 : stats_table)
    (A B rid : string) (now : Z) (w : World) (r : GameRoom) (l : list action) :
  A ≠ B → db0 !! rid = None → keyed db0 →
  choosing db0 tbl0 A B rid now w →
  db w !! rid = Some r → status r = "completed" →
  chosen (creator w) = true ∧ chosen (joiner w) = true
  ∧ db (run l w) = db w.
Proof.
  intros HAB Hfresh Hkeys Hw Hrow Hst.
  pose proof (choosing_inv A B rid db0 tbl0 now w HAB Hfresh Hkeys Hw) as Hinv.
  assert (Hboth : chosen (creator w) = true ∧ chosen (joiner w) = true).
  { destruct Hinv as [r0 gA sA _ Hrow0 _ _ _ _ _ _ _ Hown _ _ _ _ _].
    assert (r0 = r) as -> by congruence.
    apply (own_completed _ _ _ (Forall_inv Hown) Hst). }
  destruct Hboth as [Ha Hb]. split; [done|]. split; [done|].
  by apply (both_chosen_run A B rid tbl0).
Qed.

Lemma completed_round_never_changes_witness :
  let w := run rps_round rps_opened in
  "ann" ≠ "bob" ∧ (∅ : rooms) !! "r1" = None
  ∧ ∃ r, db w !! "r1" = Some r ∧ status r = "completed"
      ∧ db (run [Choose Creator "paper"; Click Joiner 0%nat; Join; Deliver Creator] w)
        = db w.
Proof.
  intros w.
  assert (H1 : "ann" ≠ "bob") by done.
  assert (Hw : choosing ∅ ∅ "ann" "bob" "r1" 100 w) by (by exists rps_round).
  split; [done|]. split; [done|].
  assert (Hrow : ∃ r, db w !! "r1" = Some r ∧ status r = "completed")
    by (eexists; split; vm_compute; reflexivity).
  destruct Hrow as (r & Hr & Hst). exists r. split; [done|]. split; [done|].
  exact (proj2 (proj2
           (completed_round_never_changes ∅ ∅ "ann" "bob" "r1" 100 w r
              [Choose Creator "paper"; Click Joiner 0%nat; Join; Deliver Creator]
              H1 (lookup_empty "r1") keyed_empty Hw Hr Hst))).
Defined.
